(** * SnapTalk: a shallow embedding of the backend routes and of the
      real-time channel, with the properties of its specification.

    The document store is a record of collections: users are a finite map
    from ObjectId strings to user documents, messages and posts are lists
    in insertion order.  Route handlers are functions from the store to a
    response and a new store; socket handlers also thread the in-memory
    connection registry of [server.js] and return the events they emit.
    What the sources leave to the database and to the libraries (the order
    a sort gives to equal keys, the cast of a string to an id, how the
    validator measures a text) is the parameter [Query.Platform] of the
    handlers that depend on it. *)

From stdpp Require Import base gmap strings list sorting.
From Stdlib Require Import Ascii Lia Sorted.
From Stdlib Require String.

Open Scope string_scope.
Open Scope nat_scope.

Set Warnings "-clear-no-such-hyp".

(** ** Documents *)

Module Model.

(** An element of [User.friendRequests]. *)
Record FriendRequest := mkFriendRequest {
  fr_from : string;
  fr_createdAt : nat
}.

(** An element of [User.sentFriendRequests]. *)
Record SentRequest := mkSentRequest {
  sr_to : string;
  sr_createdAt : nat
}.

(** A user document; its [_id] is the key under which the store holds it. *)
Record User := mkUser {
  firstName : string;
  lastName : string;
  email : string;
  password : string;
  friends : list string;
  friendRequests : list FriendRequest;
  sentFriendRequests : list SentRequest
}.

(** A message document. [createdAt] and [readAt] are clock readings. *)
Record Message := mkMessage {
  m_id : nat;
  sender : string;
  receiver : string;
  content : string;
  messageType : string;
  fileUrl : string;
  isRead : bool;
  readAt : option nat;
  createdAt : nat
}.

(** Modelled from the spec: the Post schema is not among the sources; the
    visibility tier is one of public, friends-only, private. *)
Inductive Privacy := Public | FriendsOnly | Private.

Record Post := mkPost {
  p_id : nat;
  author : string;
  p_content : string;
  privacy : Privacy;
  p_createdAt : nat
}.

Record Store := mkStore {
  users : gmap string User;
  messages : list Message;
  posts : list Post;
  nextId : nat
}.

(** The uniform JSON envelope: a success with its payload, or a failure
    with its HTTP status and message. *)
Inductive Response (A : Type) :=
| Reply (status : nat) (payload : A)
| Failure (status : nat) (msg : string).
Arguments Reply {A} status payload.
Arguments Failure {A} status msg.

Definition succeeded {A} (r : Response A) : bool :=
  match r with Reply _ _ => true | Failure _ _ => false end.

Definition status_of {A} (r : Response A) : nat :=
  match r with Reply s _ => s | Failure s _ => s end.

#[global] Instance FriendRequest_eq_dec : EqDecision FriendRequest.
Proof. solve_decision. Defined.
#[global] Instance SentRequest_eq_dec : EqDecision SentRequest.
Proof. solve_decision. Defined.
#[global] Instance Message_eq_dec : EqDecision Message.
Proof. solve_decision. Defined.
#[global] Instance Privacy_eq_dec : EqDecision Privacy.
Proof. solve_decision. Defined.

(** *** Update operators of the database *)

Definition with_friends (f : list string -> list string) (u : User) : User :=
  mkUser (firstName u) (lastName u) (email u) (password u)
         (f (friends u)) (friendRequests u) (sentFriendRequests u).

Definition with_friendRequests
    (f : list FriendRequest -> list FriendRequest) (u : User) : User :=
  mkUser (firstName u) (lastName u) (email u) (password u)
         (friends u) (f (friendRequests u)) (sentFriendRequests u).

Definition with_sentFriendRequests
    (f : list SentRequest -> list SentRequest) (u : User) : User :=
  mkUser (firstName u) (lastName u) (email u) (password u)
         (friends u) (friendRequests u) (f (sentFriendRequests u)).

(** [$push]: append at the end of the array. *)
Definition push {A} (x : A) (l : list A) : list A := l ++ [x].

(** [$pull]: remove every element matching the condition. *)
Definition pull {A} (matches : A -> bool) (l : list A) : list A :=
  List.filter (fun x => negb (matches x)) l.

(** [$addToSet]: append unless already present. *)
Definition addToSet (x : string) (l : list string) : list string :=
  if bool_decide (x ∈ l) then l else l ++ [x].

(** [includes] on an array of ids, asked about a string: the string is
    compared with the spelling [toString] gives to each id. *)
Definition includes (l : list string) (x : string) : bool := bool_decide (x ∈ l).

(** [User.findByIdAndUpdate(id, upd)]: no document, no change. *)
Definition findByIdAndUpdate (id : string) (upd : User -> User) (st : Store) : Store :=
  mkStore (alter upd id (users st)) (messages st) (posts st) (nextId st).

Definition set_messages (ms : list Message) (st : Store) : Store :=
  mkStore (users st) ms (posts st) (nextId st).

End Model.
Export Model.

(** ** Query helpers shared by the routes *)

Module Query.

Section Sorting.
Context {A : Type} (key : A -> nat).

(** Insertion into a list sorted by decreasing [key]; the new element goes
    before the first element whose key is not greater than its own. *)
Fixpoint insert_desc (x : A) (l : list A) : list A :=
  match l with
  | [] => [x]
  | y :: l' =>
    if key y <=? key x then x :: y :: l' else y :: insert_desc x l'
  end.

(** Insertion sort by decreasing key: one of the orders a sort by
    decreasing key may produce, the one in which documents with equal keys
    stay as they were given. *)
Definition sort_desc (l : list A) : list A := foldr insert_desc [] l.

(** Sorted by decreasing key. *)
Definition descending (l : list A) : Prop :=
  StronglySorted (fun x y => key y <= key x) l.

End Sorting.

(** What the sources leave to the libraries they run on.

    [sort_by] is [.sort({ key: -1 })] and [$sort]: the documents in some
    order of decreasing key; which of two documents with equal keys comes
    first is the database's choice, and may differ from one query to the
    next.

    [cast_other] is what the cast of a string to an ObjectId makes of a
    string that is not 24 hexadecimal digits: an error ([None]) on the
    current releases of the database library, while older ones read a string
    of 12 characters as the bytes of an id.

    [discounts_selectors] tells whether the validator's [isLength] leaves
    the variation selectors U+FE0E and U+FE0F out of the length, as its
    later releases do.  The manifests that would fix the releases are not
    among the sources. *)
Record Platform := mkPlatform {
  sort_by : forall A : Type, (A -> nat) -> list A -> list A;
  sort_by_perm :
    forall (A : Type) (key : A -> nat) (l : list A), sort_by A key l ≡ₚ l;
  sort_by_descending :
    forall (A : Type) (key : A -> nat) (l : list A), descending key (sort_by A key l);
  cast_other : string -> option string;
  discounts_selectors : bool
}.
Arguments sort_by lib {A} key l : rename.

(** A platform that sorts by insertion, rejects every string that is not
    24 hexadecimal digits as an id, and discounts the selectors. *)
Definition in_insertion_order : Platform.
Proof.
  refine {| sort_by := fun A key => sort_desc key;
            cast_other := fun _ => None;
            discounts_selectors := true |}.
  - intros A key l.
    assert (Hins : forall x l', insert_desc key x l' ≡ₚ x :: l').
    { intros x l'. induction l' as [|y l' IH]; cbn; [done|].
      destruct (key y <=? key x); [done|]. rewrite IH. apply Permutation_swap. }
    induction l as [|x l IH]; cbn; [done|]. by rewrite Hins, IH.
  - intros A key l. unfold descending.
    assert (Hins : forall x l', insert_desc key x l' ≡ₚ x :: l').
    { intros x l'. induction l' as [|y l' IH]; cbn; [done|].
      destruct (key y <=? key x); [done|]. rewrite IH. apply Permutation_swap. }
    assert (Hsorted : forall x l',
               StronglySorted (fun a b => key b <= key a) l' ->
               StronglySorted (fun a b => key b <= key a) (insert_desc key x l')).
    { intros x l' Hl. induction Hl as [|y l' Hl IH Hy]; cbn; [by repeat constructor|].
      destruct (key y <=? key x) eqn:E.
      - apply Nat.leb_le in E. constructor; [by constructor|].
        constructor; [done|]. eapply Forall_impl; [exact Hy|]. cbn. intros; lia.
      - apply Nat.leb_gt in E. constructor; [done|].
        rewrite (Hins x l'). constructor; [lia|done]. }
    induction l as [|x l IH]; cbn; [constructor|]. by apply Hsorted.
Defined.

(** The same platform with the documents of equal key in the opposite
    order. *)
Definition ties_reversed : Platform.
Proof.
  refine {| sort_by := fun A key l => sort_desc key (rev l);
            cast_other := fun _ => None;
            discounts_selectors := true |}.
  - intros A key l. rewrite (sort_by_perm in_insertion_order A key (rev l)).
    symmetry. apply Permutation_rev.
  - intros A key l. apply (sort_by_descending in_insertion_order).
Defined.

(** [.limit(limit).skip(skip)]: the database skips first, then limits; a
    limit of 0 means no limit. *)
Definition window {A} (skip limit : nat) (l : list A) : list A :=
  let rest := drop skip l in
  if limit =? 0 then rest else take limit rest.

(** [skip = (page - 1) * limit] is negative exactly when [page] is 0 and
    [limit] is not; the database rejects a negative skip. *)
Definition negative_skip (page limit : nat) : bool :=
  (page =? 0) && negb (limit =? 0).

Definition paginate {A} (page limit : nat) (l : list A) : list A :=
  window ((page - 1) * limit) limit l.

(** The [pagination] object of a list response ([pages], a quotient of
    the other fields, is left out). *)
Record Pagination := mkPagination {
  pg_current : nat;
  pg_total : nat
}.

(** *** Texts

    A string holds the UTF-8 encoding of a text, one byte per character
    of the string; a surrogate that pairs with no other is held as the
    three bytes of its own code. *)

Definition code (c : ascii) : nat := nat_of_ascii c.

(** The white space of [String.prototype.trim] and of the validator's
    [trim] (the regular expression [\s]): the characters of one byte
    (U+0009 to U+000D, U+0020), of two bytes (U+00A0) and of three bytes
    (U+1680, U+2000 to U+200A, U+2028, U+2029, U+202F, U+205F, U+3000,
    U+FEFF). *)
Definition is_space (c : ascii) : bool :=
  let n := code c in
  ((9 <=? n) && (n <=? 13)) || (n =? 32).

Definition is_space2 (c1 c2 : ascii) : bool :=
  (code c1 =? 194) && (code c2 =? 160).

Definition is_space3 (c1 c2 c3 : ascii) : bool :=
  let a := code c1 in
  let b := code c2 in
  let c := code c3 in
  ((a =? 225) && (b =? 154) && (c =? 128))
  || ((a =? 226) && (b =? 128)
      && (((128 <=? c) && (c <=? 138)) || (c =? 168) || (c =? 169) || (c =? 175)))
  || ((a =? 226) && (b =? 129) && (c =? 159))
  || ((a =? 227) && (b =? 128) && (c =? 128))
  || ((a =? 239) && (b =? 187) && (c =? 191)).

(** The white space at the front of the bytes is dropped. *)
Fixpoint trim_start (l : list ascii) : list ascii :=
  match l with
  | c1 :: l1 =>
    if is_space c1 then trim_start l1
    else
      match l1 with
      | c2 :: l2 =>
        if is_space2 c1 c2 then trim_start l2
        else
          match l2 with
          | c3 :: l3 => if is_space3 c1 c2 c3 then trim_start l3 else l
          | [] => l
          end
      | [] => l
      end
  | [] => []
  end.

(** The same on the bytes in reverse, where the bytes of a character come
    last byte first. *)
Fixpoint trim_start_reversed (l : list ascii) : list ascii :=
  match l with
  | c1 :: l1 =>
    if is_space c1 then trim_start_reversed l1
    else
      match l1 with
      | c2 :: l2 =>
        if is_space2 c2 c1 then trim_start_reversed l2
        else
          match l2 with
          | c3 :: l3 => if is_space3 c3 c2 c1 then trim_start_reversed l3 else l
          | [] => l
          end
      | [] => l
      end
  | [] => []
  end.

Definition trim (s : string) : string :=
  String.string_of_list_ascii
    (rev (trim_start_reversed (rev (trim_start (String.list_ascii_of_string s))))).

(** The number of characters (code points): the bytes that do not
    continue a character. *)
Definition continues (c : ascii) : bool := (128 <=? code c) && (code c <? 192).

Definition code_points (s : string) : nat :=
  length (List.filter (fun c => negb (continues c)) (String.list_ascii_of_string s)).

(** The characters of four bytes are those that take two units (a
    surrogate pair) in a JavaScript string. *)
Definition in_four_bytes (c : ascii) : bool := 240 <=? code c.

(** [String.prototype.length]: the number of UTF-16 units. *)
Definition js_length (s : string) : nat :=
  code_points s
  + length (List.filter in_four_bytes (String.list_ascii_of_string s)).

(** The number of variation selectors U+FE0E and U+FE0F. *)
Fixpoint selectors (l : list ascii) : nat :=
  match l with
  | c1 :: l1 =>
    match l1 with
    | c2 :: c3 :: _ =>
      (if (code c1 =? 239) && (code c2 =? 184)
          && ((code c3 =? 142) || (code c3 =? 143)) then 1 else 0)
      + selectors l1
    | _ => 0
    end
  | [] => 0
  end.

(** The length [isLength] compares with its bounds: the UTF-16 length
    less the surrogate pairs, and on the later releases less the variation
    selectors. *)
Definition validator_length (lib : Platform) (s : string) : nat :=
  code_points s
  - (if discounts_selectors lib
     then selectors (String.list_ascii_of_string s) else 0).

(** *** Ids

    The cast of a string to an ObjectId, which every query and update
    applies to an id it is given as a string: 24 hexadecimal digits in
    either letter case name the id that [toString] spells in lower case.

    An id that comes from the store or from the authentication
    ([req.user.id]) is the string [toString] spells.  An id that comes from
    the client is handled in one of two ways.  Where the code can write, or
    choose what it shows, for a spelling of the id that the store does not
    hold ([post_request], [get_user_posts], [on_sendMessage],
    [create_post]), the handler takes the string as the client sent it, and
    the cast is written out at the places where the database makes it.
    Where the parameter reaches the database only ([get_messages],
    [get_profile]), or where the code acts only once it has found the
    parameter equal, as a string, to an id of the store ([post_accept],
    [post_decline], [delete_friend], [post_message]), the handler takes the
    id. *)
Definition is_hex (c : ascii) : bool :=
  let n := code c in
  ((48 <=? n) && (n <=? 57)) || ((65 <=? n) && (n <=? 70))
  || ((97 <=? n) && (n <=? 102)).

Definition to_lower_hex (c : ascii) : ascii :=
  let n := code c in
  if (65 <=? n) && (n <=? 70) then ascii_of_nat (n + 32) else c.

Definition castObjectId (lib : Platform) (s : string) : option string :=
  let digits := String.list_ascii_of_string s in
  if (length digits =? 24) && forallb is_hex digits
  then Some (String.string_of_list_ascii (map to_lower_hex digits))
  else cast_other lib s.

End Query.

(** ** routes/friends.js *)

Module FriendsRoutes.
Import Query.

Definition request_to (target : string) (r : SentRequest) : bool :=
  bool_decide (sr_to r = target).

Definition request_from (source : string) (r : FriendRequest) : bool :=
  bool_decide (fr_from r = source).

(** [POST /api/friends/request/:id].  [now] is the reading of [new Date()].
    [targetUserId] is the parameter of the URL as it was typed;
    [currentUserId] is [req.user.id], the id of the requester as the
    database spells it.  The guards compare the parameter as a string
    ([===], [includes], [toString() ===]); [findById], [findByIdAndUpdate]
    and the pushed sub-documents cast it to an id, and a failed cast throws,
    which the handler's [catch] turns into a 500, as it does with the
    [currentUser.friends] of a missing current user. *)
Definition post_request (lib : Platform) (now : nat)
    (currentUserId targetUserId : string)
    (st : Store) : Response string * Store :=
  if bool_decide (targetUserId = currentUserId) then
    (Failure 400 "You cannot send a friend request to yourself", st)
  else
    match castObjectId lib targetUserId with
    | None => (Failure 500 "Server error", st)
    | Some target =>
      match users st !! target, users st !! currentUserId with
      | None, _ => (Failure 404 "User not found", st)
      | Some _, None => (Failure 500 "Server error", st)
      | Some _, Some currentUser =>
        if includes (friends currentUser) targetUserId then
          (Failure 400 "You are already friends with this user", st)
        else if existsb (request_to targetUserId) (sentFriendRequests currentUser) then
          (Failure 400 "Friend request already sent", st)
        else if existsb (request_from targetUserId) (friendRequests currentUser) then
          (Failure 400 "This user has already sent you a friend request", st)
        else
          let st1 := findByIdAndUpdate currentUserId
                       (with_sentFriendRequests (push (mkSentRequest target now))) st in
          let st2 := findByIdAndUpdate target
                       (with_friendRequests (push (mkFriendRequest currentUserId now))) st1 in
          (Reply 200 "Friend request sent successfully", st2)
      end
    end.

(** [POST /api/friends/accept/:id].  The route writes only when a request
    whose [from.toString()] is the parameter has been found, that is for a
    parameter spelled as the store spells the id. *)
Definition post_accept (currentUserId senderUserId : string)
    (st : Store) : Response string * Store :=
  match users st !! senderUserId, users st !! currentUserId with
  | None, _ => (Failure 404 "User not found", st)
  | Some _, None => (Failure 500 "Server error", st)
  | Some _, Some currentUser =>
    if negb (existsb (request_from senderUserId) (friendRequests currentUser)) then
      (Failure 400 "No friend request found from this user", st)
    else
      let st1 := findByIdAndUpdate currentUserId
                   (fun u => with_friends (addToSet senderUserId)
                               (with_friendRequests (pull (request_from senderUserId)) u)) st in
      let st2 := findByIdAndUpdate senderUserId
                   (fun u => with_friends (addToSet currentUserId)
                               (with_sentFriendRequests (pull (request_to currentUserId)) u)) st1 in
      (Reply 200 "Friend request accepted successfully", st2)
  end.

(** [POST /api/friends/decline/:id], with the same guard as the accept
    route. *)
Definition post_decline (currentUserId senderUserId : string)
    (st : Store) : Response string * Store :=
  match users st !! senderUserId, users st !! currentUserId with
  | None, _ => (Failure 404 "User not found", st)
  | Some _, None => (Failure 500 "Server error", st)
  | Some _, Some currentUser =>
    if negb (existsb (request_from senderUserId) (friendRequests currentUser)) then
      (Failure 400 "No friend request found from this user", st)
    else
      let st1 := findByIdAndUpdate currentUserId
                   (with_friendRequests (pull (request_from senderUserId))) st in
      let st2 := findByIdAndUpdate senderUserId
                   (with_sentFriendRequests (pull (request_to currentUserId))) st1 in
      (Reply 200 "Friend request declined", st2)
  end.

(** [DELETE /api/friends/:id].  The route writes only when the parameter
    has been found, as a string, on the requester's friend list. *)
Definition delete_friend (currentUserId friendUserId : string)
    (st : Store) : Response string * Store :=
  match users st !! friendUserId, users st !! currentUserId with
  | None, _ => (Failure 404 "User not found", st)
  | Some _, None => (Failure 500 "Server error", st)
  | Some _, Some currentUser =>
    if negb (includes (friends currentUser) friendUserId) then
      (Failure 400 "You are not friends with this user", st)
    else
      let st1 := findByIdAndUpdate currentUserId
                   (with_friends (pull (fun x => bool_decide (x = friendUserId)))) st in
      let st2 := findByIdAndUpdate friendUserId
                   (with_friends (pull (fun x => bool_decide (x = currentUserId)))) st1 in
      (Reply 200 "Friend removed successfully", st2)
  end.

(** [GET /api/friends]: the ids on the requester's friend list. *)
Definition get_friends (currentUserId : string) (st : Store) : list string :=
  match users st !! currentUserId with
  | Some u => friends u
  | None => []
  end.

(** [GET /api/friends/requests]: the senders of the received requests and
    the targets of the sent ones. *)
Definition get_requests_received (currentUserId : string) (st : Store) : list string :=
  match users st !! currentUserId with
  | Some u => map fr_from (friendRequests u)
  | None => []
  end.

Definition get_requests_sent (currentUserId : string) (st : Store) : list string :=
  match users st !! currentUserId with
  | Some u => map sr_to (sentFriendRequests u)
  | None => []
  end.

(** The four mutating friend operations, as requests. *)
Inductive FriendOp :=
| SendRequest (lib : Platform) (now : nat) (currentUserId targetUserId : string)
| Accept (currentUserId senderUserId : string)
| Decline (currentUserId senderUserId : string)
| Remove (currentUserId friendUserId : string).

Definition run (op : FriendOp) (st : Store) : Response string * Store :=
  match op with
  | SendRequest lib now c t => post_request lib now c t st
  | Accept c s => post_accept c s st
  | Decline c s => post_decline c s st
  | Remove c f => delete_friend c f st
  end.

(** A request between the two is pending, in either direction and on
    either side's record. *)
Definition pending_between (a b : string) (st : Store) : Prop :=
  b ∈ get_requests_sent a st \/ a ∈ get_requests_received b st
  \/ a ∈ get_requests_sent b st \/ b ∈ get_requests_received a st.

(** What the routes keep true of the relationship records as long as
    requests name their target by the id as stored: friend lists mirror each
    other, each sent request has its received twin, requests never cross,
    and a friend is never at the same time the target of a request. *)
Record consistent (st : Store) : Prop := mkConsistent {
  friends_mirrored :
    forall a b, b ∈ get_friends a st -> a ∈ get_friends b st;
  requests_paired :
    forall a b, b ∈ get_requests_sent a st <-> a ∈ get_requests_received b st;
  requests_one_way :
    forall a b, b ∈ get_requests_sent a st -> a ∉ get_requests_sent b st;
  friends_not_requested :
    forall a b, b ∈ get_friends a st -> b ∉ get_requests_sent a st
}.

(** A store in which no relationship has been recorded yet. *)
Definition fresh (st : Store) : Prop :=
  forall id u, users st !! id = Some u ->
    friends u = [] /\ friendRequests u = [] /\ sentFriendRequests u = [].

(** Modelled from the spec: account registration (routes/auth.js) is not
    among the sources; a new account is stored under an unused id with an
    empty friend list and no requests. *)
Definition register (id : string) (u : User) (st : Store) : Store :=
  mkStore (<[id := u]> (users st)) (messages st) (posts st) (nextId st).

(** The stores that registrations and the friend routes can produce from
    a fresh one. *)
Inductive reachable : Store -> Prop :=
| reachable_fresh st : fresh st -> reachable st
| reachable_register st id u :
    reachable st -> users st !! id = None ->
    friends u = [] -> friendRequests u = [] -> sentFriendRequests u = [] ->
    reachable (register id u st)
| reachable_step st op : reachable st -> reachable (snd (run op st)).

End FriendsRoutes.

(** ** routes/messages.js *)

Module MessagesRoutes.
Import Query.

(** The body of [POST /api/messages]; absent fields are [None]. *)
Record SendBody := mkSendBody {
  b_receiver : string;
  b_content : string;
  b_messageType : option string;
  b_fileUrl : option string
}.

(** [new Message({...})] followed by [save()]: the document gets a fresh
    [_id], the schema's defaults ([isRead] false, no [readAt]) and its
    creation time. *)
Definition create_message (now : nat) (from to text type url : string)
    (st : Store) : Message * Store :=
  let m := mkMessage (nextId st) from to text type url false None now in
  (m, mkStore (users st) (messages st ++ [m]) (posts st) (S (nextId st))).

(** [POST /api/messages].  A message is created only when [receiver] has
    been found, as a string, on the sender's friend list or equal to the
    sender's id. *)
Definition post_message (lib : Platform) (now : nat) (userId : string)
    (body : SendBody) (st : Store) : Response Message * Store :=
  let text := trim (b_content body) in
  if bool_decide (b_receiver body = "") || bool_decide (text = "")
     || (1000 <? validator_length lib text) then
    (Failure 400 "Validation errors", st)
  else
    let receiver := b_receiver body in
    match users st !! receiver with
    | None => (Failure 404 "Receiver not found", st)
    | Some _ =>
      match users st !! userId with
      | None => (Failure 500 "Server error", st)
      | Some senderUser =>
        if negb (includes (friends senderUser) receiver)
           && negb (bool_decide (receiver = userId)) then
          (Failure 403 "You can only send messages to friends", st)
        else
          let '(m, st') :=
            create_message now userId receiver text
              (default "text" (b_messageType body)) (default "" (b_fileUrl body)) st in
          (Reply 201 m, st')
      end
    end.

(** *** The conversations aggregation *)

(** [$match]: the messages the user sent or received. *)
Definition involves (u : string) (m : Message) : bool :=
  bool_decide (sender m = u) || bool_decide (receiver m = u).

(** [$addFields otherUser]. *)
Definition otherUser (u : string) (m : Message) : string :=
  if bool_decide (sender m = u) then receiver m else sender m.

(** The [$cond] summed into [unreadCount]. *)
Definition unread_for (u : string) (m : Message) : bool :=
  bool_decide (receiver m = u) && bool_decide (isRead m = false).

(** A group of the [$group] stage. *)
Record Group := mkGroup {
  g_id : string;
  g_lastMessage : Message;
  g_unreadCount : nat
}.

(** A group that accumulates one more document ([$first] keeps its
    document, [$sum] adds), and the group a document opens. *)
Definition bump (u : string) (m : Message) (g : Group) : Group :=
  mkGroup (g_id g) (g_lastMessage g)
          (g_unreadCount g + (if unread_for u m then 1 else 0)).

Definition opened (u : string) (m : Message) : Group :=
  mkGroup (otherUser u m) m (if unread_for u m then 1 else 0).

(** One document enters the [$group] stage: it opens a group when its
    key is new, and is accumulated into its group otherwise. *)
Fixpoint group_step (u : string) (m : Message) (gs : list Group) : list Group :=
  match gs with
  | [] => [opened u m]
  | g :: gs' =>
    if bool_decide (g_id g = otherUser u m) then bump u m g :: gs'
    else g :: group_step u m gs'
  end.

(** The documents of a stream that fall in the group of [c], and those
    among them that count as unread. *)
Definition in_group (u c : string) (m : Message) : bool :=
  bool_decide (otherUser u m = c).

Definition unread_in_group (u c : string) (m : Message) : bool :=
  bool_decide (otherUser u m = c) && unread_for u m.

Definition group_by_otherUser (u : string) (l : list Message) : list Group :=
  foldl (fun gs m => group_step u m gs) [] l.

(** The [user] sub-document of a conversation row. *)
Record UserInfo := mkUserInfo {
  ui_id : string;
  ui_firstName : string;
  ui_lastName : string
}.

(** A row of the result, after [$project]. *)
Record Conversation := mkConversation {
  c_id : string;
  c_lastMessage : Message;
  c_unreadCount : nat;
  c_user : UserInfo
}.

(** [$lookup] into users followed by [$unwind]: a group whose key has no
    user document is unwound to nothing. *)
Definition lookup_unwind (st : Store) (g : Group) : option Conversation :=
  match users st !! g_id g with
  | Some u =>
    Some (mkConversation (g_id g) (g_lastMessage g) (g_unreadCount g)
            (mkUserInfo (g_id g) (firstName u) (lastName u)))
  | None => None
  end.

(** [GET /api/messages/conversations]. *)
Definition get_conversations (lib : Platform) (userId : string) (st : Store)
    : list Conversation :=
  let matched := List.filter (involves userId) (messages st) in
  let sorted := sort_by lib createdAt matched in
  let groups := group_by_otherUser userId sorted in
  let rows := omap (lookup_unwind st) groups in
  sort_by lib (fun c => createdAt (c_lastMessage c)) rows.

(** The messages of the conversation of [u] with the counterparty [c]. *)
Definition in_conversation (u c : string) (m : Message) : bool :=
  involves u m && bool_decide (otherUser u m = c).

(** The groups the listing is computed from. *)
Definition conversation_groups (lib : Platform) (userId : string) (st : Store)
    : list Group :=
  group_by_otherUser userId
    (sort_by lib createdAt (List.filter (involves userId) (messages st))).

(** *** Conversation detail, read marking, deletion *)

(** The filter of the detail query: the messages exchanged by the two. *)
Definition between (a b : string) (m : Message) : bool :=
  (bool_decide (sender m = a) && bool_decide (receiver m = b))
  || (bool_decide (sender m = b) && bool_decide (receiver m = a)).

Definition mark_read (now : nat) (m : Message) : Message :=
  mkMessage (m_id m) (sender m) (receiver m) (content m) (messageType m)
            (fileUrl m) true (Some now) (createdAt m).

(** The filter of the [updateMany]: unread messages from [other] to
    [current]. *)
Definition unread_from (other current : string) (m : Message) : bool :=
  bool_decide (sender m = other) && bool_decide (receiver m = current)
  && bool_decide (isRead m = false).

Definition updateMany_read (now : nat) (other current : string)
    (ms : list Message) : list Message :=
  map (fun m => if unread_from other current m then mark_read now m else m) ms.

(** [GET /api/messages/:userId].  The page is read before the update,
    so it shows the flags as they were; the result is oldest first.  The
    parameter is used in queries and updates only; [otherUserId] is the id
    it names. *)
Definition get_messages (lib : Platform) (now : nat) (page limit : nat)
    (currentUserId otherUserId : string) (st : Store)
    : Response (list Message * Pagination) * Store :=
  match users st !! otherUserId with
  | None => (Failure 404 "User not found", st)
  | Some _ =>
    if negative_skip page limit then (Failure 500 "Server error", st)
    else
      let found :=
        paginate page limit
          (sort_by lib createdAt
             (List.filter (between currentUserId otherUserId) (messages st))) in
      let st' :=
        set_messages (updateMany_read now otherUserId currentUserId (messages st)) st in
      let total :=
        length (List.filter (between currentUserId otherUserId) (messages st')) in
      (Reply 200 (rev found, mkPagination page total), st')
  end.

(** The defaults of the query string: [page = 1], [limit = 50]. *)
Definition get_messages_default (lib : Platform) (now : nat) :=
  get_messages lib now 1 50.

(** [Message.findById]. *)
Definition findById (id : nat) (ms : list Message) : option Message :=
  List.find (fun m => m_id m =? id) ms.

(** [message.save()] of a loaded and modified document: the stored
    document with that [_id] is replaced. *)
Fixpoint save (m : Message) (ms : list Message) : list Message :=
  match ms with
  | [] => []
  | x :: ms' => if m_id x =? m_id m then m :: ms' else x :: save m ms'
  end.

(** [Message.findByIdAndDelete]. *)
Fixpoint findByIdAndDelete (id : nat) (ms : list Message) : list Message :=
  match ms with
  | [] => []
  | x :: ms' => if m_id x =? id then ms' else x :: findByIdAndDelete id ms'
  end.

(** [PUT /api/messages/:messageId/read]. *)
Definition put_read (now : nat) (userId : string) (messageId : nat)
    (st : Store) : Response string * Store :=
  match findById messageId (messages st) with
  | None => (Failure 404 "Message not found", st)
  | Some message =>
    if negb (bool_decide (receiver message = userId)) then
      (Failure 403 "Not authorized to mark this message as read", st)
    else
      let st' :=
        if negb (isRead message)
        then set_messages (save (mark_read now message) (messages st)) st
        else st in
      (Reply 200 "Message marked as read", st')
  end.

(** [DELETE /api/messages/:messageId]. *)
Definition delete_message (userId : string) (messageId : nat)
    (st : Store) : Response string * Store :=
  match findById messageId (messages st) with
  | None => (Failure 404 "Message not found", st)
  | Some message =>
    if negb (bool_decide (sender message = userId)) then
      (Failure 403 "Not authorized to delete this message", st)
    else
      (Reply 200 "Message deleted successfully",
       set_messages (findByIdAndDelete messageId (messages st)) st)
  end.

(** [GET /api/messages/unread/count]. *)
Definition get_unread_count (userId : string) (st : Store) : nat :=
  length (List.filter
            (fun m => bool_decide (receiver m = userId) && bool_decide (isRead m = false))
            (messages st)).

(** The messages one user sent to another. *)
Definition sent_by_to (from to : string) (m : Message) : bool :=
  bool_decide (sender m = from) && bool_decide (receiver m = to).

(** [n] successive [POST /api/messages] with the same body, one clock
    tick apart. *)
Fixpoint post_messages (lib : Platform) (n now : nat) (userId : string)
    (body : SendBody) (st : Store) : Store :=
  match n with
  | 0 => st
  | S k =>
    post_messages lib k (S now) userId body (snd (post_message lib now userId body st))
  end.

(** The messages a response of the detail route carries. *)
Definition messages_of (r : Response (list Message * Pagination)) : list Message :=
  match r with
  | Reply _ (ms, _) => ms
  | Failure _ _ => []
  end.

(** How a stored message may differ after a request: not at all, or by
    having been unread and now being marked read. *)
Definition evolves (m m' : Message) : Prop :=
  m' = m \/ (isRead m = false /\ exists t, m' = mark_read t m).

End MessagesRoutes.

(** ** server.js: the real-time channel *)

Module Server.
Import Query.

(** [activeUsers] (userId to socketId) and [socketToUser] (socketId to
    userId). *)
Record Registry := mkRegistry {
  activeUsers : gmap string string;
  socketToUser : gmap string string
}.

Definition no_connections : Registry := mkRegistry ∅ ∅.

(** [io.to(target).emit(event, payload)]. *)
Record Emit := mkEmit {
  e_target : string;
  e_event : string;
  e_payload : Message
}.

(** What the acknowledgement callback is called with. *)
Inductive Ack :=
| AckSuccess (m : Message)
| AckFailure (msg : string).

(** The payload of a [sendMessage] event. *)
Record SendData := mkSendData {
  d_receiverId : string;
  d_content : string;
  d_messageType : option string;
  d_fileUrl : option string
}.

(** Truthiness of a string fetched from a [Map]: absent or empty is falsy. *)
Definition truthy (v : option string) : option string :=
  match v with
  | Some s => if bool_decide (s = "") then None else Some s
  | None => None
  end.

(** [socket.on('join')]: registers the pair in both maps; nothing is
    emitted.  ([socket.join(userId)] only enters a room no handler emits
    to.) *)
Definition on_join (socketId userId : string) (reg : Registry)
    : list Emit * Registry :=
  ([], mkRegistry (<[userId := socketId]> (activeUsers reg))
                  (<[socketId := userId]> (socketToUser reg))).

(** [socket.on('disconnect')]. *)
Definition on_disconnect (socketId : string) (reg : Registry)
    : list Emit * Registry :=
  match truthy (socketToUser reg !! socketId) with
  | Some userId =>
    ([], mkRegistry (delete userId (activeUsers reg))
                    (delete socketId (socketToUser reg)))
  | None => ([], reg)
  end.

(** [socket.on('sendMessage')].  The ids of the registry are the strings
    the clients sent with [join]; [sender] and [receiver] of a message are
    ids, so the strings are cast when the document is built, and [save]
    rejects a document in which a cast failed: nothing is stored then, and
    the [catch] acknowledges a server error.  Whether the chained
    [message.populate(..).populate(..)] is accepted depends on the release
    of the database library, whose manifest is not among the sources (on
    releases where a document's [populate] returns a promise the second
    call throws); it is the parameter [chained_populate].  The message is
    saved before that point in either case. *)
Definition on_sendMessage (lib : Platform) (chained_populate : bool) (now : nat)
    (socketId : string) (data : option SendData) (reg : Registry) (st : Store)
    : Ack * list Emit * Store :=
  match truthy (socketToUser reg !! socketId) with
  | None => (AckFailure "Not joined", [], st)
  | Some senderId =>
    match data with
    | None =>
      (AckFailure "receiverId and non-empty content are required", [], st)
    | Some d =>
      if bool_decide (d_receiverId d = "") || bool_decide (d_content d = "")
         || bool_decide (trim (d_content d) = "") then
        (AckFailure "receiverId and non-empty content are required", [], st)
      else
        match castObjectId lib senderId, castObjectId lib (d_receiverId d) with
        | Some from, Some to =>
          let '(message, st') :=
            MessagesRoutes.create_message now from to
              (trim (d_content d))
              (default "text" (d_messageType d)) (default "" (d_fileUrl d)) st in
          if chained_populate then
            let to_receiver :=
              match truthy (activeUsers reg !! d_receiverId d) with
              | Some receiverSocketId =>
                [mkEmit receiverSocketId "receiveMessage" message]
              | None => []
              end in
            (AckSuccess message,
             (to_receiver ++ [mkEmit socketId "messageSent" message])%list, st')
          else (AckFailure "Server error", [], st')
        | _, _ => (AckFailure "Server error", [], st)
        end
    end
  end.

End Server.

(** ** routes/posts.js *)

Module PostsRoutes.
Import Query.

Definition public_or_friends (p : Post) : bool :=
  bool_decide (privacy p = Public) || bool_decide (privacy p = FriendsOnly).

(** The filter of the feed query. *)
Definition feed_filter (userId : string) (friendIds : list string) (p : Post) : bool :=
  bool_decide (author p = userId)
  || (includes friendIds (author p) && public_or_friends p).

(** [GET /api/posts/feed]. *)
Definition get_feed (lib : Platform) (page limit : nat) (userId : string)
    (st : Store) : Response (list Post * Pagination) :=
  match users st !! userId with
  | None => Failure 500 "Server error"
  | Some currentUser =>
    if negative_skip page limit then Failure 500 "Server error"
    else
      let matched := List.filter (feed_filter userId (friends currentUser)) (posts st) in
      Reply 200 (paginate page limit (sort_by lib p_createdAt matched),
                 mkPagination page (length matched))
  end.

(** The [privacyFilter] of the user's posts query. *)
Definition privacyFilter (isOwnProfile isFriend : bool) (p : Post) : bool :=
  if isOwnProfile then true
  else if isFriend then public_or_friends p
  else bool_decide (privacy p = Public).

(** [GET /api/posts/user/:userId].  [userId] is the parameter of the URL
    as it was typed, [requester] is [req.user.id].  [findById] and the
    [author] condition of the query cast the parameter to an id (a failed
    cast throws: 500); [isFriend] and [isOwnProfile] compare it as a
    string. *)
Definition get_user_posts (lib : Platform) (page limit : nat)
    (requester userId : string) (st : Store)
    : Response (list Post * Pagination) :=
  match castObjectId lib userId with
  | None => Failure 500 "Server error"
  | Some target =>
    match users st !! target, users st !! requester with
    | None, _ => Failure 404 "User not found"
    | Some _, None => Failure 500 "Server error"
    | Some _, Some currentUser =>
      let isFriend := includes (friends currentUser) userId in
      let isOwnProfile := bool_decide (userId = requester) in
      if negative_skip page limit then Failure 500 "Server error"
      else
        let matched :=
          List.filter (fun p => bool_decide (author p = target)
                                && privacyFilter isOwnProfile isFriend p) (posts st) in
        Reply 200 (paginate page limit (sort_by lib p_createdAt matched),
                   mkPagination page (length matched))
    end
  end.

(** The posts a response carries; a failure carries none. *)
Definition posts_of (r : Response (list Post * Pagination)) : list Post :=
  match r with
  | Reply _ (ps, _) => ps
  | Failure _ _ => []
  end.

(** The visibility rule of the specification, for a requester with the
    given friend list. *)
Definition may_see (requester : string) (friendIds : list string) (p : Post) : Prop :=
  author p = requester
  \/ (author p ∈ friendIds /\ privacy p ≠ Private)
  \/ ((author p ∉ friendIds) /\ privacy p = Public).

End PostsRoutes.

(** ** routes/users.js *)

Module UsersRoutes.

(** A populated reference: the selected fields of the referenced user. *)
Record FriendInfo := mkFriendInfo {
  fi_id : string;
  fi_firstName : string;
  fi_lastName : string
}.

(** The profile as sent: the password is never selected; [email] and
    the two request lists are present unless deleted. *)
Record ProfileJSON := mkProfileJSON {
  j_id : string;
  j_firstName : string;
  j_lastName : string;
  j_email : option string;
  j_friends : list FriendInfo;
  j_friendRequests : option (list (option FriendInfo * nat));
  j_sentFriendRequests : option (list (option FriendInfo * nat))
}.

Record ProfileReply := mkProfileReply {
  pr_user : ProfileJSON;
  pr_isFriend : bool;
  pr_isOwnProfile : bool
}.

Definition populate_ref (st : Store) (id : string) : option FriendInfo :=
  match users st !! id with
  | Some u => Some (mkFriendInfo id (firstName u) (lastName u))
  | None => None
  end.

(** [GET /api/users/profile/:id].  Populating the [friends] array drops
    the references that resolve to no user; a request whose reference
    does not resolve keeps its entry with a null reference. *)
Definition get_profile (requester id : string) (st : Store) : Response ProfileReply :=
  match users st !! id with
  | None => Failure 404 "User not found"
  | Some user =>
    let populated := omap (populate_ref st) (friends user) in
    let isFriend := existsb (fun f => bool_decide (fi_id f = requester)) populated in
    let isOwnProfile := bool_decide (id = requester) in
    let hide := negb isFriend && negb isOwnProfile in
    let userData :=
      mkProfileJSON id (firstName user) (lastName user)
        (if hide then None else Some (email user))
        populated
        (if hide then None
         else Some (map (fun r => (populate_ref st (fr_from r), fr_createdAt r))
                        (friendRequests user)))
        (if hide then None
         else Some (map (fun r => (populate_ref st (sr_to r), sr_createdAt r))
                        (sentFriendRequests user))) in
    Reply 200 (mkProfileReply userData isFriend isOwnProfile)
  end.

End UsersRoutes.

(** ** The backend as one transition system *)

Module Backend.

Record State := mkState {
  registry : Server.Registry;
  store : Store
}.

(** The requests and socket events that read or write the relationship
    records, the messages and the connection registry, with the post and
    profile queries.  (Post creation, likes and comments, profile edits and
    user search touch neither messages nor relationships.) *)
Inductive Request :=
| Friend (op : FriendsRoutes.FriendOp)
| PostMessage (lib : Query.Platform) (now : nat) (userId : string)
              (body : MessagesRoutes.SendBody)
| GetConversations (lib : Query.Platform) (userId : string)
| GetMessages (lib : Query.Platform) (now page limit : nat)
              (currentUserId otherUserId : string)
| PutRead (now : nat) (userId : string) (messageId : nat)
| DeleteMessage (userId : string) (messageId : nat)
| GetUnreadCount (userId : string)
| GetFeed (lib : Query.Platform) (page limit : nat) (userId : string)
| GetUserPosts (lib : Query.Platform) (page limit : nat) (requester userId : string)
| GetProfile (requester id : string)
| Join (socketId userId : string)
| SendMessage (lib : Query.Platform) (chained_populate : bool) (now : nat)
              (socketId : string) (data : option Server.SendData)
| Disconnect (socketId : string).

(** The state after a request; the read-only routes leave it as it is. *)
Definition handle (r : Request) (s : State) : State :=
  match r with
  | Friend op => mkState (registry s) (snd (FriendsRoutes.run op (store s)))
  | PostMessage lib now u b =>
    mkState (registry s) (snd (MessagesRoutes.post_message lib now u b (store s)))
  | GetMessages lib now page limit c o =>
    mkState (registry s)
            (snd (MessagesRoutes.get_messages lib now page limit c o (store s)))
  | PutRead now u i =>
    mkState (registry s) (snd (MessagesRoutes.put_read now u i (store s)))
  | DeleteMessage u i =>
    mkState (registry s) (snd (MessagesRoutes.delete_message u i (store s)))
  | Join sid u => mkState (snd (Server.on_join sid u (registry s))) (store s)
  | SendMessage lib cp now sid d =>
    mkState (registry s)
            (snd (Server.on_sendMessage lib cp now sid d (registry s) (store s)))
  | Disconnect sid => mkState (snd (Server.on_disconnect sid (registry s))) (store s)
  | GetConversations _ _ | GetUnreadCount _ | GetFeed _ _ _ _
  | GetUserPosts _ _ _ _ _ | GetProfile _ _ => s
  end.

(** The events pushed while a request is handled; the REST routes never
    reach the socket server. *)
Definition emits (r : Request) (s : State) : list Server.Emit :=
  match r with
  | Join sid u => fst (Server.on_join sid u (registry s))
  | SendMessage lib cp now sid d =>
    snd (fst (Server.on_sendMessage lib cp now sid d (registry s) (store s)))
  | Disconnect sid => fst (Server.on_disconnect sid (registry s))
  | _ => []
  end.

(** Whether an event of that name is among the pushed ones. *)
Definition pushes (name : string) (es : list Server.Emit) : bool :=
  existsb (fun e => bool_decide (Server.e_event e = name)) es.

End Backend.

(** ** Sample data *)

Module Sample.
Import Query.

Definition alice : string := "65a1f0c2b7e4d3a9c8b70001".
Definition bob : string := "65a1f0c2b7e4d3a9c8b70002".
Definition carol : string := "65a1f0c2b7e4d3a9c8b70003".

Definition new_user (first mail : string) : User :=
  mkUser first "Doe" mail "$2a$10$hash" [] [] [].

(** Alice, Bob and Carol, just registered. *)
Definition three_users : Store :=
  mkStore (<[alice := new_user "Alice" "alice@example.org"]>
           (<[bob := new_user "Bob" "bob@example.org"]>
            (<[carol := new_user "Carol" "carol@example.org"]> ∅)))
          [] [] 0.

Definition hello : Server.SendData := Server.mkSendData bob " hello " None None.

Definition hello_body : MessagesRoutes.SendBody :=
  MessagesRoutes.mkSendBody bob " hello " None None.

(** Alice has published one post of each tier. *)
Definition alice_posts : list Post :=
  [ mkPost 1 alice "to everyone" Public 10;
    mkPost 2 alice "to my friends" FriendsOnly 20;
    mkPost 3 alice "to myself" Private 30 ].

Definition store_with_posts : Store :=
  mkStore (users three_users) [] alice_posts 4.

(** A well-formed ObjectId that belongs to no user. *)
Definition nobody : string := "65a1f0c2b7e4d3a9c8b7ffff".

(** The ids of Alice and Bob with the letters in upper case, as a URL
    may carry them. *)
Definition ALICE : string := "65A1F0C2B7E4D3A9C8B70001".
Definition BOB : string := "65A1F0C2B7E4D3A9C8B70002".

(** Alice's socket has joined; she sends a message to an id without a
    user, which the socket handler stores. *)
Definition dangling : Store :=
  snd (Server.on_sendMessage in_insertion_order true 5 "h1"
         (Some (Server.mkSendData nobody "anyone there?" None None))
         (snd (Server.on_join "h1" alice Server.no_connections)) three_users).

(** Bob and Alice exchange messages at times 1, 3 and 5, interleaved with
    messages between Alice and Carol at times 2 and 4. *)
Definition interleaved : Store :=
  mkStore (users three_users)
    [ mkMessage 0 bob alice "one" "text" "" false None 1;
      mkMessage 1 carol alice "two" "text" "" false None 2;
      mkMessage 2 alice bob "three" "text" "" false None 3;
      mkMessage 3 alice carol "four" "text" "" false None 4;
      mkMessage 4 bob alice "five" "text" "" false None 5 ]
    [] 5.

(** Alice has asked Bob to be her friend. *)
Definition requested : Store :=
  snd (FriendsRoutes.run
         (FriendsRoutes.SendRequest in_insertion_order 1 alice bob) three_users).

(** Bob has accepted. *)
Definition befriended : Store :=
  snd (FriendsRoutes.run (FriendsRoutes.Accept bob alice) requested).

(** Bob, now Alice's friend, sends her two messages through the REST
    route that are created at the same clock reading. *)
Definition same_instant : Store :=
  snd (MessagesRoutes.post_message in_insertion_order 8 bob
         (MessagesRoutes.mkSendBody alice "second" None None)
         (snd (MessagesRoutes.post_message in_insertion_order 8 bob
                 (MessagesRoutes.mkSendBody alice "first" None None) befriended))).

(** The same posts, with Alice and Bob friends. *)
Definition friends_with_posts : Store :=
  mkStore (users befriended) [] alice_posts 4.

(** Bob, now Alice's friend, has sent her sixty messages. *)
Definition sixty_unread : Store :=
  MessagesRoutes.post_messages in_insertion_order 60 10 bob
    (MessagesRoutes.mkSendBody alice "ping" None None) befriended.

End Sample.

(** ** routes/posts.js: creating, liking, commenting, deleting *)

Module PostsMutations.
Import Query.

(** An element of [Post.likes]. *)
Record Like := mkLike {
  l_user : string;
  l_createdAt : nat
}.

(** An element of [Post.comments]. *)
Record Comment := mkComment {
  cm_user : string;
  cm_content : string;
  cm_createdAt : nat
}.

(** An element of [Post.images] or [Post.videos]. *)
Record Media := mkMedia {
  md_url : string;
  md_publicId : string
}.

(** A post document in full: the fields the listings read ([core]) and
    the arrays the other routes work on. *)
Record PostDoc := mkPostDoc {
  core : Post;
  images : list Media;
  videos : list Media;
  taggedUsers : list string;
  likes : list Like;
  comments : list Comment
}.

(** The posts collection, in insertion order. *)
Record Posts := mkPosts {
  docs : list PostDoc;
  nextPostId : nat
}.

Definition with_likes (f : list Like -> list Like) (d : PostDoc) : PostDoc :=
  mkPostDoc (core d) (images d) (videos d) (taggedUsers d) (f (likes d)) (comments d).

Definition with_comments (f : list Comment -> list Comment) (d : PostDoc) : PostDoc :=
  mkPostDoc (core d) (images d) (videos d) (taggedUsers d) (likes d) (f (comments d)).

(** [Post.findById]. *)
Definition findPost (id : nat) (ds : list PostDoc) : option PostDoc :=
  List.find (fun d => p_id (core d) =? id) ds.

(** [post.save()] of a loaded and modified document. *)
Fixpoint savePost (d : PostDoc) (ds : list PostDoc) : list PostDoc :=
  match ds with
  | [] => []
  | x :: ds' =>
    if p_id (core x) =? p_id (core d) then d :: ds' else x :: savePost d ds'
  end.

(** [Post.findByIdAndDelete]. *)
Fixpoint removePost (id : nat) (ds : list PostDoc) : list PostDoc :=
  match ds with
  | [] => []
  | x :: ds' => if p_id (core x) =? id then ds' else x :: removePost id ds'
  end.

(** [Array.prototype.findIndex]; [None] stands for -1. *)
Fixpoint findIndex {A} (f : A -> bool) (l : list A) : option nat :=
  match l with
  | [] => None
  | x :: l' => if f x then Some 0 else S <$> findIndex f l'
  end.

Definition liked_by (userId : string) (l : Like) : bool :=
  bool_decide (l_user l = userId).

(** The like toggle on the [likes] array: [splice(likeIndex, 1)] when the
    user is found, a push otherwise. *)
Definition toggle_like (now : nat) (userId : string) (ls : list Like) : list Like :=
  match findIndex (liked_by userId) ls with
  | Some likeIndex => delete likeIndex ls
  | None => push (mkLike userId now) ls
  end.

(** The reply of the like route. *)
Record LikeReply := mkLikeReply {
  lr_message : string;
  lr_likes : list Like;
  lr_likeCount : nat
}.

(** Modelled from the spec: the virtuals [likeCount] and [commentCount] of
    the Post schema are not among the sources; they count the likes and the
    comments. *)
Definition likeCount (d : PostDoc) : nat := length (likes d).
Definition commentCount (d : PostDoc) : nat := length (comments d).

(** [POST /api/posts/:id/like]. *)
Definition post_like (now : nat) (userId : string) (id : nat) (ps : Posts)
    : Response LikeReply * Posts :=
  match findPost id (docs ps) with
  | None => (Failure 404 "Post not found", ps)
  | Some post =>
    let likeIndex := findIndex (liked_by userId) (likes post) in
    let post' := with_likes (toggle_like now userId) post in
    (Reply 200 (mkLikeReply (match likeIndex with
                             | Some _ => "Post unliked"
                             | None => "Post liked"
                             end)
                  (likes post') (likeCount post')),
     mkPosts (savePost post' (docs ps)) (nextPostId ps))
  end.

(** [POST /api/posts/:id/comment]. *)
Definition post_comment (lib : Platform) (now : nat) (userId : string) (id : nat)
    (content : string) (ps : Posts) : Response (Comment * nat) * Posts :=
  let text := trim content in
  if bool_decide (text = "") || (500 <? validator_length lib text) then
    (Failure 400 "Validation errors", ps)
  else
    match findPost id (docs ps) with
    | None => (Failure 404 "Post not found", ps)
    | Some post =>
      let comment := mkComment userId text now in
      let post' := with_comments (push comment) post in
      (Reply 200 (List.last (comments post') comment, commentCount post'),
       mkPosts (savePost post' (docs ps)) (nextPostId ps))
    end.

(** [DELETE /api/posts/:id], with the public ids handed to
    [deleteFromCloudinary]; a failing deletion is caught and the post is
    deleted all the same. *)
Definition delete_post (userId : string) (id : nat) (ps : Posts)
    : Response string * Posts * list string :=
  match findPost id (docs ps) with
  | None => (Failure 404 "Post not found", ps, [])
  | Some post =>
    if negb (bool_decide (author (core post) = userId)) then
      (Failure 403 "Not authorized to delete this post", ps, [])
    else
      let mediaToDelete := (images post ++ videos post)%list in
      (Reply 200 "Post deleted successfully",
       mkPosts (removePost id (docs ps)) (nextPostId ps),
       map md_publicId mediaToDelete)
  end.

(** An uploaded file as the route sees it. *)
Record File := mkFile {
  f_originalname : string;
  f_mimetype : string;
  f_size : nat
}.

Definition is_video (f : File) : bool := String.prefix "video/" (f_mimetype f).

Section Storage.

(** The object storage is outside the sources: [uploadToCloudinary]
    resolves with the url and public id of the stored file or rejects with
    a message, and [deleteFromCloudinary] resolves or rejects. *)
Variable upload : File -> Media + string.
Variable destroy_ok : string -> bool.

(** The upload loop of the create route: files go up one after the
    other into [videos] or [images]; the first rejection stops the loop with
    what has been uploaded so far and the error's message. *)
Fixpoint upload_files (files : list File) (imgs vids : list Media)
    : (list Media * list Media) + (list Media * string) :=
  match files with
  | [] => inl (imgs, vids)
  | file :: rest =>
    match upload file with
    | inl result =>
      if is_video file then upload_files rest imgs (vids ++ [result])
      else upload_files rest (imgs ++ [result]) vids
    | inr message => inr ((imgs ++ vids)%list, message)
    end
  end.

(** The body of [POST /api/posts].  [cb_taggedUsers] holds the strings
    the route assigns to [post.taggedUsers]: none when the field is absent
    or empty, the one string or the strings of the array otherwise. *)
Record CreateBody := mkCreateBody {
  cb_content : option string;
  cb_taggedUsers : list string;
  cb_privacy : option Privacy
}.

(** The custom validator of [content]. *)
Definition valid_content (content : option string) (files : list File) : bool :=
  let hasText :=
    match content with
    | Some value => negb (bool_decide (trim value = ""))
    | None => false
    end in
  let hasFiles := negb (bool_decide (files = [])) in
  if negb hasText && negb hasFiles then false
  else if hasText && (2000 <? js_length (trim (default "" content))) then false
  else true.

(** [POST /api/posts], after the multipart middleware has accepted the
    files.  The third component lists the public ids handed to
    [deleteFromCloudinary]; when one of these deletions rejects, the
    [Promise.all] of the clean-up rejects and the outer handler answers
    500.  The tagged users are references that the route populates, so the
    strings are cast when the document is saved; [save] rejects when a cast
    fails, after the uploads and with no clean-up. *)
Definition create_post (lib : Platform) (now : nat) (userId : string)
    (body : CreateBody) (files : list File) (ps : Posts)
    : Response PostDoc * Posts * list string :=
  if negb (valid_content (cb_content body) files) then
    (Failure 400 "Validation errors", ps, [])
  else
    match upload_files files [] [] with
    | inr (uploaded, message) =>
      let ids := map md_publicId uploaded in
      if forallb destroy_ok ids then
        (Failure 400 (if bool_decide (message = "")
                      then "Error uploading media files" else message), ps, ids)
      else (Failure 500 "Server error", ps, ids)
    | inl (imgs, vids) =>
      match mapM (castObjectId lib) (cb_taggedUsers body) with
      | None => (Failure 500 "Server error", ps, [])
      | Some tagged =>
        let post :=
          mkPostDoc (mkPost (nextPostId ps) userId (default "" (cb_content body))
                       (default FriendsOnly (cb_privacy body)) now)
                    imgs vids tagged [] [] in
        (Reply 201 post, mkPosts (docs ps ++ [post]) (S (nextPostId ps)), [])
      end
    end.

End Storage.

End PostsMutations.

(** ** routes/users.js: suggestions and the old avatar *)

Module UsersExtras.
Import Query.

(** The ids the suggestions query excludes: the requester, the friends,
    and the users of both request lists. *)
Definition excluded (userId : string) (currentUser : User) : list string :=
  (userId :: friends currentUser
     ++ map sr_to (sentFriendRequests currentUser)
     ++ map fr_from (friendRequests currentUser))%list.

(** [GET /api/users/suggestions].  The users' creation times are a field
    of the schema that the user documents here do not carry; they are the
    parameter [createdAtOf]. *)
Definition get_suggestions (lib : Platform) (createdAtOf : string -> nat)
    (userId : string) (st : Store) : Response (list (string * User)) :=
  match users st !! userId with
  | None => Failure 500 "Server error"
  | Some currentUser =>
    let found :=
      List.filter (fun '(id, _) => negb (includes (excluded userId currentUser) id))
                  (map_to_list (users st)) in
    Reply 200 (take 5 (sort_by lib (fun p => createdAtOf (fst p)) found))
  end.

(** The suggestions a response carries. *)
Definition suggestions_of (r : Response (list (string * User))) : list string :=
  match r with
  | Reply _ l => map fst l
  | Failure _ _ => []
  end.

(** [String.prototype.split] on a one-character separator: never empty,
    one more piece than there are separators. *)
Fixpoint split_on (sep : ascii) (s : list ascii) : list (list ascii) :=
  match s with
  | [] => [[]]
  | c :: s' =>
    if Ascii.eqb c sep then [] :: split_on sep s'
    else match split_on sep s' with
         | piece :: pieces => (c :: piece) :: pieces
         | [] => [[c]]
         end
  end.

(** [profilePicture.split('/').pop().split('.')[0]]. *)
Definition old_public_id (profilePicture : string) : string :=
  let segment :=
    List.last (split_on "/"%char (String.list_ascii_of_string profilePicture)) [] in
  String.string_of_list_ascii (hd [] (split_on "."%char segment)).

(** The id the avatar route hands to [deleteFromCloudinary]. *)
Definition old_avatar_target (profilePicture : string) : string :=
  String.append "snaptalk/" (old_public_id profilePicture).

(** The folder new avatars are uploaded to. *)
Definition avatar_folder : string := "snaptalk/avatars".

End UsersExtras.

(** ** The client: navigation, the message form, the feed cache *)

Module Client.
Import Query.

(** [isActive] of the layout, for the current [pathname]. *)
Definition isActive (pathname path : string) : bool :=
  if bool_decide (path = "/") && bool_decide (pathname = "/") then true
  else if negb (bool_decide (path = "/")) && String.prefix path pathname then true
  else false.

(** The [href]s of the navigation bar. *)
Definition navigation : list string := ["/"; "/friends"; "/messages"; "/search"].

(** The object the message form emits on the socket,
    [{ receiverId, message: {...} }], as the server's destructuring reads
    it: there is no [content], [messageType] or [fileUrl] key. *)
Definition emitted_payload (selectedConversation : string) : Server.SendData :=
  Server.mkSendData selectedConversation "" None None.

(** [handleSendMessage] of the messages page, run against the backend:
    nothing happens on a blank message or without a selected conversation;
    otherwise the message is posted to the REST route and, when a socket is
    open, the event is emitted as well. *)
Definition handleSendMessage (lib : Platform) (chained_populate : bool) (now : nat)
    (socket : option string) (currentUser : string)
    (message : string) (selectedConversation : option string)
    (s : Backend.State) : Backend.State * list Server.Emit :=
  match selectedConversation with
  | None => (s, [])
  | Some receiver =>
    if bool_decide (trim message = "") || bool_decide (receiver = "") then (s, [])
    else
      let messageData := MessagesRoutes.mkSendBody receiver (trim message) None None in
      let s1 := Backend.handle (Backend.PostMessage lib now currentUser messageData) s in
      match socket with
      | None => (s1, [])
      | Some socketId =>
        let event :=
          Backend.SendMessage lib chained_populate now socketId
            (Some (emitted_payload receiver)) in
        (Backend.handle event s1, Backend.emits event s1)
      end
  end.

(** The cache update of the feed after a like: the cached post takes the
    likes and the count of the reply. *)
Definition cache_like (postId : nat) (reply : PostsMutations.LikeReply)
    (cached : list PostsMutations.PostDoc) : list PostsMutations.PostDoc :=
  map (fun post =>
         if p_id (PostsMutations.core post) =? postId
         then PostsMutations.with_likes (fun _ => PostsMutations.lr_likes reply) post
         else post) cached.

(** The cache update after a comment: the reply's comment is appended. *)
Definition cache_comment (postId : nat) (comment : PostsMutations.Comment)
    (cached : list PostsMutations.PostDoc) : list PostsMutations.PostDoc :=
  map (fun post =>
         if p_id (PostsMutations.core post) =? postId
         then PostsMutations.with_comments (fun cs => cs ++ [comment])%list post
         else post) cached.

End Client.

(** ** Well-formed message collections *)

Module Wellformed.

(** Message ids are distinct and below the next id to be handed out. *)
Definition message_ids_ok (st : Store) : Prop :=
  NoDup (map m_id (messages st))
  /\ Forall (fun m => m_id m < nextId st) (messages st).

(** Post ids are distinct and below the next id to be handed out. *)
Definition post_ids_ok (ps : PostsMutations.Posts) : Prop :=
  NoDup (map (fun d => p_id (PostsMutations.core d)) (PostsMutations.docs ps))
  /\ Forall (fun d => p_id (PostsMutations.core d) < PostsMutations.nextPostId ps)
            (PostsMutations.docs ps).

End Wellformed.

(** ** Paging through a listing *)

Module Paging.

(** The first [n] pages of the feed, one after the other; each page is
    a query of its own, sorted as the database sorts that query. *)
Definition feed_pages (libs : nat -> Query.Platform) (n limit : nat)
    (userId : string) (st : Store) : list Post :=
  flat_map (fun k =>
              PostsRoutes.posts_of
                (PostsRoutes.get_feed (libs (S k)) (S k) limit userId st))
           (seq 0 n).

(** The pagination object a response carries. *)
Definition pagination_of {A} (r : Response (list A * Query.Pagination))
    : option Query.Pagination :=
  match r with
  | Reply _ (_, pg) => Some pg
  | Failure _ _ => None
  end.

End Paging.

(** ** The two users of a friend operation *)

Module Parties.

(** The requester and the user the parameter names (the one its cast
    finds). *)
Definition participants (op : FriendsRoutes.FriendOp) : list string :=
  match op with
  | FriendsRoutes.SendRequest lib _ c t =>
    c :: match Query.castObjectId lib t with Some target => [target] | None => [] end
  | FriendsRoutes.Accept c s => [c; s]
  | FriendsRoutes.Decline c s => [c; s]
  | FriendsRoutes.Remove c f => [c; f]
  end.

(** The part of a user document no friend operation writes. *)
Definition identity_of (u : User) : string * string * string * string :=
  (firstName u, lastName u, email u, password u).

End Parties.

(** ** What an upload loop has uploaded *)

Module Uploads.
Import PostsMutations.

Section Outcomes.
Variable upload : File -> Media + string.

(** The stored media of a file whose upload is accepted. *)
Definition outcome (f : File) : option Media :=
  match upload f with
  | inl result => Some result
  | inr _ => None
  end.

(** The media uploaded, in order, until the first rejection. *)
Fixpoint uploaded_before_failure (files : list File) : list Media :=
  match files with
  | [] => []
  | f :: rest =>
    match upload f with
    | inl result => result :: uploaded_before_failure rest
    | inr _ => []
    end
  end.

End Outcomes.

End Uploads.

(** ** More sample data *)

Module Scenes.
Import Sample.

(** Alice's note to herself, stored through the REST route. *)
Definition one_note : Store :=
  snd (MessagesRoutes.post_message Query.in_insertion_order 4 alice
         (MessagesRoutes.mkSendBody alice "note" None None) three_users).

(** Alice's post with one image and one video, liked by Bob. *)
Definition one_post : PostsMutations.Posts :=
  PostsMutations.mkPosts
    [ PostsMutations.mkPostDoc (mkPost 0 alice "holiday" Public 5)
        [PostsMutations.mkMedia "https://cdn.example/p/a.jpg" "snaptalk/posts/a"]
        [PostsMutations.mkMedia "https://cdn.example/p/b.mp4" "snaptalk/posts/b"]
        [] [PostsMutations.mkLike bob 6] [] ]
    1.

(** A storage service that rejects the file named "broken". *)
Definition flaky_upload (f : PostsMutations.File)
    : PostsMutations.Media + string :=
  if bool_decide (PostsMutations.f_originalname f = "broken")
  then inr "Invalid image file"
  else inl (PostsMutations.mkMedia
              (String.append "https://cdn.example/" (PostsMutations.f_originalname f))
              (PostsMutations.f_originalname f)).

Definition three_files : list PostsMutations.File :=
  [ PostsMutations.mkFile "sea.jpg" "image/jpeg" 1000;
    PostsMutations.mkFile "surf.mp4" "video/mp4" 900;
    PostsMutations.mkFile "broken" "image/png" 10 ].

(** The bytes of a text, and two texts outside ASCII: a no-break space
    (U+00A0), and [n] times the letter e with an acute accent (U+00E9), of
    two bytes each. *)
Definition text_of (bytes : list nat) : string :=
  String.string_of_list_ascii (map ascii_of_nat bytes).

Definition no_break_space : string := text_of [194; 160].


End Scenes.

(** * Properties *)

(** ** The connection registry *)

Section RegistryFacts.
Import Server.

Lemma truthy_Some (s : string) : s ≠ "" -> truthy (Some s) = Some s.
Proof. intros Hs. unfold truthy. rewrite bool_decide_eq_false_2; done. Qed.

Lemma truthy_inv (v : option string) (s : string) :
  truthy v = Some s -> v = Some s /\ s ≠ "".
Proof.
  destruct v as [x|]; simpl; [|done].
  case_bool_decide; [done|]. intros [= ->]. done.
Qed.

(** A join maps the user to the joining handle, whatever was there. *)
Lemma on_join_maps socketId userId reg :
  activeUsers (snd (on_join socketId userId reg)) !! userId = Some socketId
  /\ socketToUser (snd (on_join socketId userId reg)) !! socketId = Some userId.
Proof. simpl. split; apply lookup_insert_eq. Qed.

(** The registry is a map: a user has at most one handle. *)
Lemma activeUsers_functional (reg : Registry) (u h1 h2 : string) :
  activeUsers reg !! u = Some h1 -> activeUsers reg !! u = Some h2 -> h1 = h2.
Proof. congruence. Qed.

(** A disconnect removes the user of the closing handle from [activeUsers]
    even when the user has since joined with another handle. *)
Lemma stale_disconnect_unregisters reg u h1 h2 :
  u ≠ "" -> h1 ≠ h2 ->
  let reg' := snd (on_disconnect h1 (snd (on_join h2 u (snd (on_join h1 u reg))))) in
  activeUsers reg' !! u = None /\ socketToUser reg' !! h2 = Some u.
Proof.
  intros Hu Hh. simpl.
  unfold on_disconnect. simpl.
  rewrite lookup_insert_ne by done. rewrite lookup_insert_eq.
  rewrite truthy_Some by done. simpl.
  split.
  - apply lookup_delete_eq.
  - rewrite lookup_delete_ne by done. apply lookup_insert_eq.
Qed.

End RegistryFacts.

(** C4: the registry maps a user to one handle and a join replaces the
    handle, but the disconnect of a replaced handle is not confined to that
    handle's entries.  After Alice joins on socket "h1" and again on socket
    "h2", she maps to "h2"; when "h1" then disconnects, the handler deletes
    her entry from [activeUsers], although "h2" is still connected and
    still maps back to her. *)
Theorem C4_stale_disconnect_drops_live_handle :
  let reg2 :=
    snd (Server.on_join "h2" Sample.alice
           (snd (Server.on_join "h1" Sample.alice Server.no_connections))) in
  let reg3 := snd (Server.on_disconnect "h1" reg2) in
  Server.activeUsers reg2 !! Sample.alice = Some "h2"
  /\ Server.activeUsers reg3 !! Sample.alice = None
  /\ Server.socketToUser reg3 !! "h2" = Some Sample.alice.
Proof.
  split; [apply on_join_maps|].
  apply (stale_disconnect_unregisters Server.no_connections Sample.alice "h1" "h2"); done.
Qed.

(** ** Events pushed by the channel *)

Lemma on_disconnect_emits_nothing socketId reg :
  fst (Server.on_disconnect socketId reg) = [].
Proof. unfold Server.on_disconnect. by destruct (Server.truthy _). Qed.

Lemma on_sendMessage_events lib cp now socketId data reg st :
  Forall (fun e => Server.e_event e = "receiveMessage"
                   \/ Server.e_event e = "messageSent")
         (snd (fst (Server.on_sendMessage lib cp now socketId data reg st))).
Proof.
  unfold Server.on_sendMessage.
  destruct (Server.truthy (Server.socketToUser reg !! socketId)) as [senderId|];
    [|by constructor].
  destruct data as [d|]; [|by constructor].
  destruct (_ || _); [by constructor|].
  destruct (Query.castObjectId lib senderId) as [from|]; [|by constructor].
  destruct (Query.castObjectId lib (Server.d_receiverId d)) as [to|]; [|by constructor].
  destruct (MessagesRoutes.create_message _ _ _ _ _ _ _) as [m st'].
  destruct cp; [|by constructor]. simpl.
  destruct (Server.truthy (Server.activeUsers reg !! Server.d_receiverId d));
    repeat (constructor; simpl; auto).
Qed.

(** C8, as the code has it: a join and a disconnect push nothing at all,
    and every event any request pushes is a [receiveMessage] or a
    [messageSent]; no [userOnline] or [userOffline] is ever pushed. *)
Theorem C8_no_presence_events (r : Backend.Request) (s : Backend.State) :
  Forall (fun e => Server.e_event e = "receiveMessage"
                   \/ Server.e_event e = "messageSent") (Backend.emits r s)
  /\ Backend.pushes "userOnline" (Backend.emits r s) = false
  /\ Backend.pushes "userOffline" (Backend.emits r s) = false
  /\ (forall socketId userId,
        Backend.emits (Backend.Join socketId userId) s = [])
  /\ (forall socketId, Backend.emits (Backend.Disconnect socketId) s = []).
Proof.
  assert (H : Forall (fun e => Server.e_event e = "receiveMessage"
                   \/ Server.e_event e = "messageSent") (Backend.emits r s)).
  { destruct r; simpl; try by constructor.
    - apply on_sendMessage_events.
    - rewrite on_disconnect_emits_nothing. constructor. }
  split; [exact H|].
  split; [|split; [|split]].
  - unfold Backend.pushes. apply not_true_is_false. intros He.
    apply existsb_exists in He as (e & Hin & Hname).
    apply bool_decide_eq_true in Hname.
    rewrite Forall_forall in H. apply list_elem_of_In in Hin.
    destruct (H e Hin) as [E|E]; rewrite E in Hname; discriminate.
  - unfold Backend.pushes. apply not_true_is_false. intros He.
    apply existsb_exists in He as (e & Hin & Hname).
    apply bool_decide_eq_true in Hname.
    rewrite Forall_forall in H. apply list_elem_of_In in Hin.
    destruct (H e Hin) as [E|E]; rewrite E in Hname; discriminate.
  - reflexivity.
  - intros. apply on_disconnect_emits_nothing.
Qed.

(** C8 as stated fails: when Alice joins, and when her socket then
    disconnects, no [userOnline] and no [userOffline] is pushed. *)
Lemma C8_join_and_disconnect_push_no_presence :
  let s0 := Backend.mkState Server.no_connections Sample.three_users in
  let s1 := Backend.handle (Backend.Join "h1" Sample.alice) s0 in
  Backend.pushes "userOnline" (Backend.emits (Backend.Join "h1" Sample.alice) s0) = false
  /\ Server.activeUsers (Backend.registry s1) !! Sample.alice = Some "h1"
  /\ Backend.pushes "userOffline" (Backend.emits (Backend.Disconnect "h1") s1) = false.
Proof. vm_compute. done. Qed.

(** ** The friendship check on message creation *)

Section MessageCheck.
Import MessagesRoutes.

(** The REST route creates a message only for a friend or for oneself,
    and leaves the store alone whenever it fails. *)
Lemma post_message_checks_friendship lib now userId body st :
  (succeeded (fst (post_message lib now userId body st)) = true ->
     b_receiver body ∈ FriendsRoutes.get_friends userId st
     \/ b_receiver body = userId)
  /\ (succeeded (fst (post_message lib now userId body st)) = false ->
        snd (post_message lib now userId body st) = st).
Proof.
  unfold post_message, FriendsRoutes.get_friends.
  destruct (_ || _); [by split|].
  destruct (users st !! b_receiver body); [|by split].
  destruct (users st !! userId) as [senderUser|]; [|by split].
  destruct (negb (includes (friends senderUser) (b_receiver body))
            && negb (bool_decide (b_receiver body = userId))) eqn:E.
  - by split.
  - simpl. split; [|done]. intros _.
    apply andb_false_iff in E as [E|E]; apply negb_false_iff in E.
    + left. by apply bool_decide_eq_true in E.
    + right. by apply bool_decide_eq_true in E.
Qed.

(** A user who is neither a friend nor the sender is refused with 403,
    provided the request is valid and both users exist. *)
Lemma post_message_forbidden lib now userId body st senderUser receiverUser :
  b_receiver body ≠ "" -> Query.trim (b_content body) ≠ "" ->
  Query.validator_length lib (Query.trim (b_content body)) <= 1000 ->
  users st !! b_receiver body = Some receiverUser ->
  users st !! userId = Some senderUser ->
  b_receiver body ∉ friends senderUser -> b_receiver body ≠ userId ->
  post_message lib now userId body st
  = (Failure 403 "You can only send messages to friends", st).
Proof.
  intros Hr Hc Hl Hru Hsu Hnf Hne. unfold post_message.
  rewrite !bool_decide_eq_false_2 by done.
  replace (1000 <? _) with false by (symmetry; apply Nat.ltb_ge; lia).
  simpl. rewrite Hru, Hsu. unfold includes.
  rewrite !bool_decide_eq_false_2 by done. done.
Qed.

(** The socket handler saves the message for any joined sender and any
    receiver whose ids the database accepts and any non-blank content: the
    friend list is not consulted. *)
Lemma on_sendMessage_saves lib cp now socketId d reg st senderId from to :
  Server.truthy (Server.socketToUser reg !! socketId) = Some senderId ->
  Query.castObjectId lib senderId = Some from ->
  Query.castObjectId lib (Server.d_receiverId d) = Some to ->
  Server.d_receiverId d ≠ "" -> Query.trim (Server.d_content d) ≠ "" ->
  messages (snd (Server.on_sendMessage lib cp now socketId (Some d) reg st))
  = (messages st ++
     [mkMessage (nextId st) from to
        (Query.trim (Server.d_content d))
        (default "text" (Server.d_messageType d))
        (default "" (Server.d_fileUrl d)) false None now])%list.
Proof.
  intros Hs Hfrom Hto Hr Hc. unfold Server.on_sendMessage. rewrite Hs.
  assert (Hd : Server.d_content d ≠ "").
  { intros E. apply Hc. rewrite E. reflexivity. }
  rewrite !bool_decide_eq_false_2 by done. simpl. rewrite Hfrom, Hto.
  by destruct cp.
Qed.

End MessageCheck.

(** C1: the check is made on the REST route only.  Alice and Bob are not
    friends.  [POST /api/messages] from Alice to Bob is refused with 403 and
    stores nothing; the [sendMessage] event from Alice's socket with the
    same receiver and content stores the message, whichever way the
    populate call goes, and is acknowledged as a success when it is
    accepted. *)
Theorem C1_socket_send_skips_friend_check (lib : Query.Platform) :
  let reg := snd (Server.on_join "h1" Sample.alice Server.no_connections) in
  let saved := mkMessage 0 Sample.alice Sample.bob "hello" "text" "" false None 7 in
  includes (FriendsRoutes.get_friends Sample.alice Sample.three_users) Sample.bob = false
  /\ bool_decide (Sample.bob = Sample.alice) = false
  /\ MessagesRoutes.post_message lib 7 Sample.alice Sample.hello_body Sample.three_users
     = (Failure 403 "You can only send messages to friends", Sample.three_users)
  /\ (forall cp,
        messages (snd (Server.on_sendMessage lib cp 7 "h1" (Some Sample.hello) reg
                         Sample.three_users)) = [saved])
  /\ fst (fst (Server.on_sendMessage lib true 7 "h1" (Some Sample.hello) reg
                 Sample.three_users)) = Server.AckSuccess saved.
Proof.
  destruct lib as [sort_by Hperm Hdesc cast_other [|]];
    (repeat split; try (vm_compute; reflexivity));
    intros cp; destruct cp; vm_compute; reflexivity.
Qed.

(** ** Profile redaction *)

Section Profile.
Import UsersRoutes.

(** [isFriend]: the requester is on the friend list and resolves to a
    user document. *)
Lemma isFriend_spec (st : Store) (l : list string) (requester : string) :
  existsb (fun f => bool_decide (fi_id f = requester)) (omap (populate_ref st) l) = true
  <-> requester ∈ l /\ is_Some (users st !! requester).
Proof.
  induction l as [|a l IH]; simpl.
  - split; [done|]. intros [H _]. by apply not_elem_of_nil in H.
  - unfold populate_ref at 1. destruct (users st !! a) as [u|] eqn:Ha; simpl.
    + rewrite orb_true_iff, IH, bool_decide_eq_true, elem_of_cons.
      split.
      * intros [<-|[H1 H2]]; [split; [by left|by eexists]|split; [by right|done]].
      * intros [[->|H1] H2]; [by left|by right].
    + rewrite IH, elem_of_cons. split.
      * intros [H1 H2]. split; [by right|done].
      * intros [[->|H1] H2]; [|done]. rewrite Ha in H2. by destruct H2.
Qed.

End Profile.

(** C10: a requester who is a registered user and views an existing
    profile gets a 200 reply; when the requester is neither the owner nor
    on the owner's friend list, the reply has no email and neither request
    list; when the requester is the owner or on the friend list, the reply
    has the owner's email and both lists, one entry per stored request. *)
Theorem C10_profile_redaction (requester id : string) (st : Store) (user ru : User) :
  users st !! id = Some user ->
  users st !! requester = Some ru ->
  exists reply,
    UsersRoutes.get_profile requester id st = Reply 200 reply
    /\ (requester ≠ id /\ requester ∉ friends user ->
          UsersRoutes.j_email (UsersRoutes.pr_user reply) = None
          /\ UsersRoutes.j_friendRequests (UsersRoutes.pr_user reply) = None
          /\ UsersRoutes.j_sentFriendRequests (UsersRoutes.pr_user reply) = None)
    /\ (requester = id \/ requester ∈ friends user ->
          UsersRoutes.j_email (UsersRoutes.pr_user reply) = Some (email user)
          /\ (exists rs, UsersRoutes.j_friendRequests (UsersRoutes.pr_user reply) = Some rs
                         /\ length rs = length (friendRequests user))
          /\ (exists rs, UsersRoutes.j_sentFriendRequests (UsersRoutes.pr_user reply) = Some rs
                         /\ length rs = length (sentFriendRequests user))).
Proof.
  intros Hid Hreq. unfold UsersRoutes.get_profile. rewrite Hid.
  eexists. split; [reflexivity|]. simpl.
  destruct (existsb _ (omap (UsersRoutes.populate_ref st) (friends user))) eqn:Hf.
  - apply isFriend_spec in Hf as [Hin _]. simpl. split.
    + intros [_ Hn]. done.
    + intros _. split; [done|]. split; eexists; (split; [reflexivity|]);
        by rewrite length_map.
  - assert (Hn : requester ∉ friends user).
    { intros Hin. apply not_true_iff_false in Hf. apply Hf.
      apply isFriend_spec. split; [done|by eexists]. }
    simpl. case_bool_decide as Hown; simpl.
    + split; [intros [Hne _]; by subst|].
      intros _. split; [done|]. split; eexists; (split; [reflexivity|]);
        by rewrite length_map.
    + split; [done|]. intros [->|Hin]; done.
Qed.

(** Bob, a stranger, views Alice's profile, which holds a request from
    Carol. *)
Lemma C10_profile_redaction_witness :
  let st := snd (FriendsRoutes.post_request Query.in_insertion_order 3 Sample.carol
                   Sample.alice Sample.three_users) in
  exists reply,
    UsersRoutes.get_profile Sample.bob Sample.alice st = Reply 200 reply
    /\ UsersRoutes.j_email (UsersRoutes.pr_user reply) = None
    /\ UsersRoutes.j_friendRequests (UsersRoutes.pr_user reply) = None.
Proof.
  intros st.
  destruct (C10_profile_redaction Sample.bob Sample.alice st
              (with_friendRequests (push (mkFriendRequest Sample.carol 3))
                 (Sample.new_user "Alice" "alice@example.org"))
              (Sample.new_user "Bob" "bob@example.org"))
    as (reply & Hr & Hhide & _).
  - vm_compute. reflexivity.
  - vm_compute. reflexivity.
  - exists reply. split; [exact Hr|].
    destruct Hhide as (He & Hf & _).
    + split; [vm_compute; congruence|].
      vm_compute. intros H. inversion H.
    + split; assumption.
Defined.

(** ** Sorting and pagination *)

Section SortFacts.
Context {A : Type} (key : A -> nat).
Import Query.

Lemma insert_desc_perm (x : A) (l : list A) : insert_desc key x l ≡ₚ x :: l.
Proof.
  induction l as [|y l IH]; simpl; [done|].
  destruct (key y <=? key x); [done|].
  rewrite IH. apply Permutation_swap.
Qed.

Lemma sort_desc_perm (l : list A) : sort_desc key l ≡ₚ l.
Proof.
  induction l as [|x l IH]; simpl; [done|].
  rewrite insert_desc_perm. by rewrite IH.
Qed.

Lemma elem_of_sort_desc (x : A) (l : list A) : x ∈ sort_desc key l <-> x ∈ l.
Proof. by rewrite sort_desc_perm. Qed.

Lemma elem_of_sort_by (lib : Platform) (x : A) (l : list A) :
  x ∈ sort_by lib key l <-> x ∈ l.
Proof. by rewrite (sort_by_perm lib). Qed.

Lemma length_sort_by (lib : Platform) (l : list A) :
  length (sort_by lib key l) = length l.
Proof. by rewrite (sort_by_perm lib). Qed.

(** With pairwise distinct keys there is one decreasing order. *)
Lemma descending_unique (l1 l2 : list A) :
  l1 ≡ₚ l2 -> descending key l1 -> descending key l2 ->
  NoDup (map key l1) -> l1 = l2.
Proof.
  revert l2. induction l1 as [|x l1 IH]; intros l2 Hp H1 H2 Hnd.
  - by apply Permutation_nil_l in Hp.
  - destruct l2 as [|y l2]; [by apply Permutation_nil_r in Hp|].
    apply StronglySorted_inv in H1 as [H1 Hx].
    apply StronglySorted_inv in H2 as [H2 Hy].
    cbn [map] in Hnd. apply NoDup_cons in Hnd as [Hkx Hnd].
    assert (E : x = y).
    { assert (Hyin : y ∈ x :: l1) by (rewrite Hp; by left).
      apply elem_of_cons in Hyin as [->|Hyin]; [done|]. exfalso.
      assert (Hxin : x ∈ y :: l2) by (rewrite <- Hp; by left).
      apply elem_of_cons in Hxin as [->|Hxin].
      - apply Hkx. apply list_elem_of_fmap. by exists y.
      - rewrite Forall_forall in Hx, Hy.
        pose proof (Hx y Hyin). pose proof (Hy x Hxin).
        apply Hkx. apply list_elem_of_fmap. exists y. split; [lia|done]. }
    subst y. f_equal. apply Permutation_cons_inv in Hp. by apply IH.
Qed.

(** So every platform sorts documents with distinct keys alike. *)
Lemma sort_by_distinct (lib : Platform) (l : list A) :
  NoDup (map key l) -> sort_by lib key l = sort_desc key l.
Proof.
  intros Hnd. apply descending_unique.
  - by rewrite (sort_by_perm lib), sort_desc_perm.
  - apply (sort_by_descending lib).
  - apply (sort_by_descending in_insertion_order).
  - by rewrite (sort_by_perm lib).
Qed.

End SortFacts.

Lemma NoDup_map_filter {A B} (g : A -> B) (f : A -> bool) (l : list A) :
  NoDup (map g l) -> NoDup (map g (List.filter f l)).
Proof.
  induction l as [|x l IH]; cbn; [done|].
  intros [Hx Hnd]%NoDup_cons. destruct (f x); cbn; [|by apply IH].
  apply NoDup_cons. split; [|by apply IH].
  intros (y & E & Hy)%list_elem_of_fmap.
  apply list_elem_of_In, filter_In in Hy as [Hy _].
  apply Hx. rewrite E. apply list_elem_of_fmap. exists y. split; [done|].
  by apply list_elem_of_In.
Qed.

Section PageFacts.
Context {A : Type}.
Import Query.

Lemma elem_of_List_filter (f : A -> bool) (l : list A) (x : A) :
  x ∈ List.filter f l <-> x ∈ l /\ f x = true.
Proof. rewrite !list_elem_of_In. apply filter_In. Qed.

Lemma elem_of_window (skip limit : nat) (l : list A) (x : A) :
  x ∈ window skip limit l -> x ∈ l.
Proof.
  unfold window. destruct (limit =? 0); intros H.
  - apply list_elem_of_lookup in H as [i Hi]. rewrite lookup_drop in Hi.
    by eapply list_elem_of_lookup_2.
  - apply elem_of_take in H as (i & Hi & _). rewrite lookup_drop in Hi.
    by eapply list_elem_of_lookup_2.
Qed.

Lemma elem_of_paginate (page limit : nat) (l : list A) (x : A) :
  x ∈ paginate page limit l -> x ∈ l.
Proof. apply elem_of_window. Qed.

(** Every element of the result set is on some page. *)
Lemma paginate_covers (limit : nat) (l : list A) (x : A) :
  0 < limit -> x ∈ l ->
  exists page, 1 <= page /\ x ∈ paginate page limit l.
Proof.
  intros Hl Hx. apply list_elem_of_lookup in Hx as [i Hi].
  exists (S (i / limit)). split; [lia|].
  unfold paginate, window.
  replace (limit =? 0) with false by (symmetry; apply Nat.eqb_neq; lia).
  apply elem_of_take. exists (i mod limit). split.
  - rewrite lookup_drop. replace (S (i / limit) - 1) with (i / limit) by lia.
    replace (i / limit * limit + i mod limit) with i; [done|].
    rewrite (Nat.div_mod_eq i limit) at 1. lia.
  - apply Nat.mod_upper_bound. lia.
Qed.

End PageFacts.

(** ** Post visibility *)

Section Visibility.
Import PostsRoutes.

Lemma public_or_friends_spec (p : Post) :
  public_or_friends p = true <-> privacy p ≠ Private.
Proof.
  unfold public_or_friends. rewrite orb_true_iff, !bool_decide_eq_true.
  destruct (privacy p); split; intros H; try done; auto; by destruct H.
Qed.

Lemma feed_filter_spec userId friendIds p :
  feed_filter userId friendIds p = true
  <-> author p = userId \/ (author p ∈ friendIds /\ privacy p ≠ Private).
Proof.
  unfold feed_filter, includes.
  by rewrite orb_true_iff, andb_true_iff, !bool_decide_eq_true, public_or_friends_spec.
Qed.

Lemma feed_sound lib page limit userId st u p :
  users st !! userId = Some u ->
  p ∈ posts_of (get_feed lib page limit userId st) ->
  p ∈ posts st /\ (author p = userId \/ (author p ∈ friends u /\ privacy p ≠ Private)).
Proof.
  intros Hu. unfold get_feed. rewrite Hu.
  destruct (Query.negative_skip page limit); simpl.
  - intros H. by apply not_elem_of_nil in H.
  - intros H. apply elem_of_paginate, elem_of_sort_by, elem_of_List_filter in H.
    by rewrite feed_filter_spec in H.
Qed.

(** Every post of the feed that the rule lets the requester see is on one
    of its pages. *)
Lemma feed_complete lib limit userId st u p :
  users st !! userId = Some u -> 0 < limit -> p ∈ posts st ->
  author p = userId \/ (author p ∈ friends u /\ privacy p ≠ Private) ->
  exists page, p ∈ posts_of (get_feed lib page limit userId st).
Proof.
  intros Hu Hl Hp Hsee.
  assert (Hm : p ∈ Query.sort_by lib p_createdAt
                 (List.filter (feed_filter userId (friends u)) (posts st))).
  { apply elem_of_sort_by, elem_of_List_filter. split; [done|].
    by apply feed_filter_spec. }
  destruct (paginate_covers limit _ p Hl Hm) as (page & Hpage & Hin).
  exists page. unfold get_feed. rewrite Hu.
  replace (Query.negative_skip page limit) with false; [done|].
  unfold Query.negative_skip. symmetry. apply andb_false_iff. left.
  apply Nat.eqb_neq. lia.
Qed.

(** What the user-posts query returns are stored posts of the user the
    parameter names, and a post that is not public is returned only when the
    parameter is, letter for letter, the requester's id or an id on the
    requester's friend list. *)
Lemma user_posts_sound lib page limit requester userId st u p :
  users st !! requester = Some u ->
  p ∈ posts_of (get_user_posts lib page limit requester userId st) ->
  p ∈ posts st
  /\ Query.castObjectId lib userId = Some (author p)
  /\ (privacy p ≠ Public ->
      userId = requester \/ (userId ∈ friends u /\ privacy p ≠ Private)).
Proof.
  intros Hu. unfold get_user_posts.
  destruct (Query.castObjectId lib userId) as [target|];
    [|intros H; by apply not_elem_of_nil in H].
  rewrite Hu.
  destruct (users st !! target); simpl; [|intros H; by apply not_elem_of_nil in H].
  destruct (Query.negative_skip page limit); simpl.
  - intros H. by apply not_elem_of_nil in H.
  - intros H. apply elem_of_paginate, elem_of_sort_by, elem_of_List_filter in H.
    destruct H as [Hin H]. apply andb_true_iff in H as [Ha Hf].
    apply bool_decide_eq_true in Ha. split; [done|]. split; [by rewrite Ha|].
    intros Hnp. unfold privacyFilter, includes in Hf.
    case_bool_decide as Hown; [by left|].
    case_bool_decide as Hfr.
    + right. split; [done|]. by apply public_or_friends_spec.
    + by apply bool_decide_eq_true in Hf.
Qed.

(** With distinct creation times the listing does not depend on the
    platform. *)
Lemma get_user_posts_distinct lib page limit requester userId st :
  Query.castObjectId lib userId = Query.castObjectId Query.in_insertion_order userId ->
  NoDup (map p_createdAt (posts st)) ->
  get_user_posts lib page limit requester userId st
  = get_user_posts Query.in_insertion_order page limit requester userId st.
Proof.
  intros Hcast Hnd. unfold get_user_posts. rewrite Hcast. clear Hcast.
  destruct (Query.castObjectId _ userId) as [target|]; [|done].
  destruct (users st !! target); [|done].
  destruct (users st !! requester); [|done].
  destruct (Query.negative_skip page limit); [done|].
  rewrite !sort_by_distinct; [done| |]; by apply NoDup_map_filter.
Qed.

End Visibility.

(** C9: the user-posts query decides who is asking by comparing the
    parameter of the URL with the stored ids as strings, while the database
    finds the author by the id the parameter names.  Alice has a public, a
    friends-only and a private post.  Asking for her own posts under her id
    she gets all three, and her friend Bob gets the two that are not
    private; asking under the same id with its letters in upper case, she
    and Bob are both served as strangers: the public post alone. *)
Theorem C9_respelled_id_hides_posts (lib : Query.Platform) :
  let public := mkPost 1 Sample.alice "to everyone" Public 10 in
  let for_friends := mkPost 2 Sample.alice "to my friends" FriendsOnly 20 in
  let for_herself := mkPost 3 Sample.alice "to myself" Private 30 in
  PostsRoutes.get_user_posts lib 1 10 Sample.alice Sample.alice Sample.store_with_posts
  = Reply 200 ([for_herself; for_friends; public], Query.mkPagination 1 3)
  /\ PostsRoutes.get_user_posts lib 1 10 Sample.alice Sample.ALICE Sample.store_with_posts
     = Reply 200 ([public], Query.mkPagination 1 1)
  /\ PostsRoutes.get_user_posts lib 1 10 Sample.bob Sample.alice Sample.friends_with_posts
     = Reply 200 ([for_friends; public], Query.mkPagination 1 2)
  /\ PostsRoutes.get_user_posts lib 1 10 Sample.bob Sample.ALICE Sample.friends_with_posts
     = Reply 200 ([public], Query.mkPagination 1 1).
Proof.
  assert (Hnd : NoDup (map p_createdAt Sample.alice_posts)).
  { apply (bool_decide_unpack _). vm_compute. exact I. }
  repeat split; rewrite get_user_posts_distinct; try exact Hnd;
    vm_compute; reflexivity.
Qed.

(** ** Friend requests and friendship *)

Section UpdateFacts.
Import FriendsRoutes.

Lemma users_findByIdAndUpdate id f st a :
  users (findByIdAndUpdate id f st) !! a
  = if decide (id = a) then f <$> users st !! a else users st !! a.
Proof.
  simpl. destruct (decide (id = a)) as [->|Hne].
  - apply lookup_alter_eq.
  - by apply lookup_alter_ne.
Qed.

Lemma elem_of_addToSet (x y : string) (l : list string) :
  x ∈ addToSet y l <-> x ∈ l \/ x = y.
Proof.
  unfold addToSet. case_bool_decide as H.
  - split; [by left|]. intros [Hx | ->]; done.
  - rewrite elem_of_app, list_elem_of_singleton. done.
Qed.

Lemma elem_of_pull_ids (x y : string) (l : list string) :
  x ∈ pull (fun z => bool_decide (z = y)) l <-> x ∈ l /\ x ≠ y.
Proof.
  unfold pull. rewrite elem_of_List_filter, negb_true_iff, bool_decide_eq_false. done.
Qed.

Lemma elem_of_pull_from (x y : string) (l : list FriendRequest) :
  x ∈ map fr_from (pull (request_from y) l) <-> x ∈ map fr_from l /\ x ≠ y.
Proof.
  unfold pull, request_from. rewrite !list_elem_of_In, !in_map_iff. split.
  - intros (r & <- & Hr). apply filter_In in Hr as [Hin Hr].
    apply negb_true_iff, bool_decide_eq_false in Hr. split; [by exists r|done].
  - intros [(r & <- & Hin) Hne]. exists r. split; [done|].
    apply filter_In. split; [done|]. by apply negb_true_iff, bool_decide_eq_false.
Qed.

Lemma elem_of_pull_to (x y : string) (l : list SentRequest) :
  x ∈ map sr_to (pull (request_to y) l) <-> x ∈ map sr_to l /\ x ≠ y.
Proof.
  unfold pull, request_to. rewrite !list_elem_of_In, !in_map_iff. split.
  - intros (r & <- & Hr). apply filter_In in Hr as [Hin Hr].
    apply negb_true_iff, bool_decide_eq_false in Hr. split; [by exists r|done].
  - intros [(r & <- & Hin) Hne]. exists r. split; [done|].
    apply filter_In. split; [done|]. by apply negb_true_iff, bool_decide_eq_false.
Qed.

Lemma existsb_request_from (y : string) (l : list FriendRequest) :
  existsb (request_from y) l = true <-> y ∈ map fr_from l.
Proof.
  rewrite existsb_exists, list_elem_of_In, in_map_iff. unfold request_from.
  split; intros (r & H1 & H2); exists r.
  - apply bool_decide_eq_true in H2. done.
  - split; [done|]. by apply bool_decide_eq_true.
Qed.

Lemma existsb_request_to (y : string) (l : list SentRequest) :
  existsb (request_to y) l = true <-> y ∈ map sr_to l.
Proof.
  rewrite existsb_exists, list_elem_of_In, in_map_iff. unfold request_to.
  split; intros (r & H1 & H2); exists r.
  - apply bool_decide_eq_true in H2. done.
  - split; [done|]. by apply bool_decide_eq_true.
Qed.

End UpdateFacts.

Section FriendEffects.
Import FriendsRoutes.

(** Computes the three list views after a sequence of updates and
    closes the resulting membership goal. *)
Ltac views :=
  unfold get_friends, get_requests_sent, get_requests_received;
  rewrite ?users_findByIdAndUpdate;
  repeat case_decide; simplify_eq;
  repeat match goal with
         | H : users ?s !! ?x = _ |- context [users ?s !! ?x] => rewrite H
         end;
  simpl; unfold push;
  rewrite ?elem_of_addToSet, ?elem_of_pull_ids, ?elem_of_pull_from, ?elem_of_pull_to,
    ?map_app, ?elem_of_app;
  simpl; rewrite ?list_elem_of_singleton;
  try done; try naive_solver.

(** A request either fails and changes nothing, or passes every guard,
    which read the parameter [t] as it is spelled, and records the request
    on both sides under the id [target] that the parameter names. *)
Lemma post_request_effect lib now c t st :
  let st' := snd (post_request lib now c t st) in
  (succeeded (fst (post_request lib now c t st)) = false /\ st' = st)
  \/ (exists target,
        Query.castObjectId lib t = Some target
        /\ succeeded (fst (post_request lib now c t st)) = true
        /\ c ≠ t
        /\ (t ∉ get_friends c st)
        /\ (t ∉ get_requests_sent c st)
        /\ (t ∉ get_requests_received c st)
        /\ (forall a, get_friends a st' = get_friends a st)
        /\ (forall a b, b ∈ get_requests_sent a st'
                        <-> b ∈ get_requests_sent a st \/ (a = c /\ b = target))
        /\ (forall a b, b ∈ get_requests_received a st'
                        <-> b ∈ get_requests_received a st \/ (a = target /\ b = c))).
Proof.
  unfold post_request. case_bool_decide as Hself; [by left|].
  destruct (Query.castObjectId lib t) as [target|]; [|by left].
  destruct (users st !! target) as [tu|] eqn:Ht; [|by left].
  destruct (users st !! c) as [cu|] eqn:Hc; [|by left].
  destruct (includes (friends cu) t) eqn:Hf; [by left|].
  destruct (existsb (request_to t) (sentFriendRequests cu)) eqn:Hs; [by left|].
  destruct (existsb (request_from t) (friendRequests cu)) eqn:Hr; [by left|].
  right. exists target. simpl. split; [done|]. split; [done|]. split; [done|].
  apply bool_decide_eq_false in Hf.
  apply not_true_iff_false in Hs, Hr.
  rewrite existsb_request_to in Hs. rewrite existsb_request_from in Hr.
  split; [views|]. split; [views|]. split; [views|].
  split; [|split]; intros; views.
Qed.

(** An accept either fails and changes nothing, or finds the request,
    removes it from both sides and makes the two friends. *)
Lemma post_accept_effect c s st :
  let st' := snd (post_accept c s st) in
  (succeeded (fst (post_accept c s st)) = false /\ st' = st)
  \/ (succeeded (fst (post_accept c s st)) = true
      /\ s ∈ get_requests_received c st
      /\ (forall a b, b ∈ get_friends a st'
                      <-> b ∈ get_friends a st \/ (a = c /\ b = s) \/ (a = s /\ b = c))
      /\ (forall a b, b ∈ get_requests_sent a st'
                      <-> b ∈ get_requests_sent a st /\ ~ (a = s /\ b = c))
      /\ (forall a b, b ∈ get_requests_received a st'
                      <-> b ∈ get_requests_received a st /\ ~ (a = c /\ b = s))).
Proof.
  unfold post_accept.
  destruct (users st !! s) as [su|] eqn:Hs; [|by left].
  destruct (users st !! c) as [cu|] eqn:Hc; [|by left].
  destruct (existsb (request_from s) (friendRequests cu)) eqn:Hr; [|by left].
  right. simpl. split; [done|].
  rewrite existsb_request_from in Hr.
  split; [views|].
  split; [|split]; intros; views.
Qed.

(** A decline either fails and changes nothing, or removes the request
    from both sides. *)
Lemma post_decline_effect c s st :
  let st' := snd (post_decline c s st) in
  (succeeded (fst (post_decline c s st)) = false /\ st' = st)
  \/ (succeeded (fst (post_decline c s st)) = true
      /\ s ∈ get_requests_received c st
      /\ (forall a, get_friends a st' = get_friends a st)
      /\ (forall a b, b ∈ get_requests_sent a st'
                      <-> b ∈ get_requests_sent a st /\ ~ (a = s /\ b = c))
      /\ (forall a b, b ∈ get_requests_received a st'
                      <-> b ∈ get_requests_received a st /\ ~ (a = c /\ b = s))).
Proof.
  unfold post_decline.
  destruct (users st !! s) as [su|] eqn:Hs; [|by left].
  destruct (users st !! c) as [cu|] eqn:Hc; [|by left].
  destruct (existsb (request_from s) (friendRequests cu)) eqn:Hr; [|by left].
  right. simpl. split; [done|].
  rewrite existsb_request_from in Hr.
  split; [views|].
  split; [|split]; intros; views.
Qed.

(** A removal either fails and changes nothing, or takes each of the two
    off the other's friend list. *)
Lemma delete_friend_effect c f st :
  let st' := snd (delete_friend c f st) in
  (succeeded (fst (delete_friend c f st)) = false /\ st' = st)
  \/ (succeeded (fst (delete_friend c f st)) = true
      /\ f ∈ get_friends c st
      /\ (forall a b, b ∈ get_friends a st'
                      <-> b ∈ get_friends a st /\ ~ (a = c /\ b = f) /\ ~ (a = f /\ b = c))
      /\ (forall a, get_requests_sent a st' = get_requests_sent a st)
      /\ (forall a, get_requests_received a st' = get_requests_received a st)).
Proof.
  unfold delete_friend.
  destruct (users st !! f) as [fu|] eqn:Hf; [|by left].
  destruct (users st !! c) as [cu|] eqn:Hc; [|by left].
  destruct (includes (friends cu) f) eqn:Hi; [|by left].
  right. simpl. split; [done|].
  apply bool_decide_eq_true in Hi.
  split; [views|].
  split; [|split]; intros; views.
Qed.

End FriendEffects.

Section FriendInvariant.
Import FriendsRoutes.

Lemma fresh_consistent st : fresh st -> consistent st.
Proof.
  intros Hfresh.
  assert (Hf : forall a, get_friends a st = []).
  { intros a. unfold get_friends. destruct (users st !! a) eqn:E; [|done].
    by destruct (Hfresh _ _ E) as (-> & _ & _). }
  assert (Hs : forall a, get_requests_sent a st = []).
  { intros a. unfold get_requests_sent. destruct (users st !! a) eqn:E; [|done].
    by destruct (Hfresh _ _ E) as (_ & _ & ->). }
  assert (Hr : forall a, get_requests_received a st = []).
  { intros a. unfold get_requests_received. destruct (users st !! a) eqn:E; [|done].
    by destruct (Hfresh _ _ E) as (_ & -> & _). }
  constructor; intros a b; rewrite ?Hf, ?Hs, ?Hr;
    try split; intros H; by apply not_elem_of_nil in H.
Qed.

(** A request under the id as the database spells it keeps the records
    consistent. *)
Lemma post_request_consistent lib now c t st :
  Query.castObjectId lib t = Some t ->
  consistent st -> consistent (snd (post_request lib now c t st)).
Proof.
  intros Hcast [Hm Hp Ho Hx].
  destruct (post_request_effect lib now c t st)
    as [[_ ->]|(target & Ht & _ & Hne & Hnf & Hns & Hnr & HF & HS & HR)];
    [by constructor|].
  rewrite Hcast in Ht. injection Ht as <-.
  constructor; intros a b; rewrite ?HF, ?HS, ?HR.
  - apply Hm.
  - rewrite Hp. naive_solver.
  - intros [H|[-> ->]] [H'|[E1 E2]].
    + by apply (Ho a b).
    + subst. by apply Hp in H.
    + by apply Hp in H'.
    + by subst.
  - intros H [H'|[-> ->]]; [by apply (Hx a b)|done].
Qed.

Lemma post_accept_consistent c s st :
  consistent st -> consistent (snd (post_accept c s st)).
Proof.
  intros [Hm Hp Ho Hx].
  destruct (post_accept_effect c s st) as [[_ ->]|(_ & Hreq & HF & HS & HR)];
    [by constructor|].
  apply Hp in Hreq.
  constructor; intros a b; rewrite ?HF, ?HS, ?HR.
  - intros [H|[[-> ->]|[-> ->]]]; [left; by apply Hm|auto|auto].
  - rewrite Hp. naive_solver.
  - intros [H _] [H' _]. by apply (Ho a b).
  - intros [H|[[-> ->]|[-> ->]]] [H' Hn].
    + by apply (Hx a b).
    + by apply (Ho s c).
    + by apply Hn.
Qed.

Lemma post_decline_consistent c s st :
  consistent st -> consistent (snd (post_decline c s st)).
Proof.
  intros [Hm Hp Ho Hx].
  destruct (post_decline_effect c s st) as [[_ ->]|(_ & Hreq & HF & HS & HR)];
    [by constructor|].
  constructor; intros a b; rewrite ?HF, ?HS, ?HR.
  - apply Hm.
  - rewrite Hp. naive_solver.
  - intros [H _] [H' _]. by apply (Ho a b).
  - intros H [H' _]. by apply (Hx a b).
Qed.

Lemma delete_friend_consistent c f st :
  consistent st -> consistent (snd (delete_friend c f st)).
Proof.
  intros [Hm Hp Ho Hx].
  destruct (delete_friend_effect c f st) as [[_ ->]|(_ & Hfr & HF & HS & HR)];
    [by constructor|].
  constructor; intros a b; rewrite ?HF, ?HS, ?HR.
  - intros (H & H1 & H2). split; [by apply Hm|]. naive_solver.
  - apply Hp.
  - apply Ho.
  - intros (H & _). by apply Hx.
Qed.

(** Every friend operation keeps the records consistent, a request
    provided its parameter is an id as the database spells it. *)
Lemma run_consistent op st :
  match op with
  | SendRequest lib _ _ t => Query.castObjectId lib t = Some t
  | _ => True
  end ->
  consistent st -> consistent (snd (run op st)).
Proof.
  destruct op; simpl; intros Hop.
  - by apply post_request_consistent.
  - apply post_accept_consistent.
  - apply post_decline_consistent.
  - apply delete_friend_consistent.
Qed.

(** A registration changes none of the three lists of any id. *)
Lemma register_views id u st :
  users st !! id = None ->
  friends u = [] -> friendRequests u = [] -> sentFriendRequests u = [] ->
  forall a,
    get_friends a (register id u st) = get_friends a st
    /\ get_requests_sent a (register id u st) = get_requests_sent a st
    /\ get_requests_received a (register id u st) = get_requests_received a st.
Proof.
  intros Hnew Hf Hr Hs a.
  unfold get_friends, get_requests_sent, get_requests_received, register. simpl.
  destruct (decide (id = a)) as [->|Hne].
  - rewrite lookup_insert_eq, Hnew, Hf, Hr, Hs. done.
  - rewrite lookup_insert_ne by done. done.
Qed.

Lemma register_consistent id u st :
  users st !! id = None ->
  friends u = [] -> friendRequests u = [] -> sentFriendRequests u = [] ->
  consistent st -> consistent (register id u st).
Proof.
  intros Hnew Hf Hr Hs [Hm Hp Ho Hx].
  pose proof (register_views id u st Hnew Hf Hr Hs) as Hv.
  assert (HF : forall a, get_friends a (register id u st) = get_friends a st)
    by (intros a; apply Hv).
  assert (HS : forall a, get_requests_sent a (register id u st)
                         = get_requests_sent a st) by (intros a; apply Hv).
  assert (HR : forall a, get_requests_received a (register id u st)
                         = get_requests_received a st) by (intros a; apply Hv).
  constructor; intros a b; rewrite ?HF, ?HS, ?HR; auto.
Qed.

(** In a consistent store friends have no request pending between them. *)
Lemma consistent_exclusive st a b :
  consistent st -> pending_between a b st ->
  (b ∉ get_friends a st) /\ (a ∉ get_friends b st).
Proof.
  intros [Hm Hp Ho Hx] Hpend.
  assert (H : b ∈ get_requests_sent a st \/ a ∈ get_requests_sent b st).
  { destruct Hpend as [H|[H|[H|H]]]; rewrite <- ?Hp in H; auto. }
  destruct H as [H|H]; split; intros Hfr.
  - by apply (Hx a b).
  - apply Hm in Hfr. by apply (Hx a b).
  - apply Hm in Hfr. by apply (Hx b a).
  - by apply (Hx b a).
Qed.

End FriendInvariant.

Section FriendRequests.
Import FriendsRoutes.

Lemma fresh_three_users : fresh Sample.three_users.
Proof.
  intros id u H. unfold Sample.three_users in H. simpl in H.
  rewrite !lookup_insert in H.
  repeat case_decide; simplify_eq; done.
Qed.

(** A request that is already pending under the spelling of the
    parameter is refused as such. *)
Lemma post_request_pending lib now c t st :
  t ∈ get_requests_sent c st ->
  succeeded (fst (post_request lib now c t st)) = false
  /\ snd (post_request lib now c t st) = st.
Proof.
  intros Hp.
  destruct (post_request_effect lib now c t st)
    as [H|(target & _ & _ & _ & _ & Hn & _)]; done.
Qed.

(** Repeating a request under the id as the database spells it is
    refused. *)
Lemma post_request_twice lib now now' c t st :
  Query.castObjectId lib t = Some t ->
  succeeded (fst (post_request lib now c t st)) = true ->
  post_request lib now' c t (snd (post_request lib now c t st))
  = (Failure 400 "Friend request already sent", snd (post_request lib now c t st)).
Proof.
  intros Hcast Hok. unfold post_request in *.
  case_bool_decide as Hself; [done|]. rewrite Hcast in *.
  destruct (users st !! t) as [tu|] eqn:Ht; [|done].
  destruct (users st !! c) as [cu|] eqn:Hc; [|done].
  destruct (includes (friends cu) t) eqn:Hf; [done|].
  destruct (existsb (request_to t) (sentFriendRequests cu)) eqn:Hs; [done|].
  destruct (existsb (request_from t) (friendRequests cu)) eqn:Hr; [done|].
  cbn [snd]. rewrite !users_findByIdAndUpdate.
  rewrite decide_True by done. rewrite decide_False by done.
  rewrite decide_False by done. rewrite decide_True by done.
  rewrite Ht, Hc. simpl. rewrite Hf.
  unfold push. rewrite existsb_app. simpl.
  unfold request_to at 2. simpl. rewrite bool_decide_eq_true_2 by done.
  by rewrite orb_true_r.
Qed.

Lemma post_accept_absent c s st :
  s ∉ get_requests_received c st ->
  succeeded (fst (post_accept c s st)) = false /\ snd (post_accept c s st) = st.
Proof.
  intros Hn. destruct (post_accept_effect c s st) as [H|(_ & Hin & _)]; done.
Qed.

End FriendRequests.

Lemma consistent_requested : FriendsRoutes.consistent Sample.requested.
Proof.
  apply (post_request_consistent Query.in_insertion_order 1 Sample.alice Sample.bob).
  - vm_compute. reflexivity.
  - apply fresh_consistent, fresh_three_users.
Qed.

(** C6: the guards of the request route read the parameter of the URL as
    a string, while the database reads it as an id, for which the case of
    the letters does not matter.  Under her id as stored, Alice's request to
    herself is refused, and so is the repetition of her request to Bob;
    with the letters of the id in upper case both are accepted: Alice then
    holds a request from herself to herself, or two pending requests to
    Bob. *)
Theorem C6_respelled_id_passes_request_guards (lib : Query.Platform) :
  let requested := snd (FriendsRoutes.post_request lib 1 Sample.alice Sample.bob
                          Sample.three_users) in
  let to_herself := FriendsRoutes.post_request lib 1 Sample.alice Sample.ALICE
                      Sample.three_users in
  let repeated := FriendsRoutes.post_request lib 2 Sample.alice Sample.BOB requested in
  FriendsRoutes.post_request lib 1 Sample.alice Sample.alice Sample.three_users
  = (Failure 400 "You cannot send a friend request to yourself", Sample.three_users)
  /\ fst to_herself = Reply 200 "Friend request sent successfully"
  /\ FriendsRoutes.get_requests_sent Sample.alice (snd to_herself) = [Sample.alice]
  /\ FriendsRoutes.get_requests_received Sample.alice (snd to_herself) = [Sample.alice]
  /\ FriendsRoutes.get_requests_sent Sample.alice requested = [Sample.bob]
  /\ FriendsRoutes.post_request lib 2 Sample.alice Sample.bob requested
     = (Failure 400 "Friend request already sent", requested)
  /\ fst repeated = Reply 200 "Friend request sent successfully"
  /\ FriendsRoutes.get_requests_sent Sample.alice (snd repeated)
     = [Sample.bob; Sample.bob]
  /\ FriendsRoutes.get_requests_received Sample.bob (snd repeated)
     = [Sample.alice; Sample.alice].
Proof. repeat split; vm_compute; reflexivity. Qed.

(** C7: the same defect lets requests cross.  Alice asks Bob; Bob asks
    Alice back under her id in upper case, which the guard against a request
    already received lets through; Bob then accepts Alice's request.  The
    three requests all succeed, and in the store they leave Alice and Bob
    are friends while Bob's request to Alice is still pending on both
    records.  Under Alice's id as stored, Bob's request is refused. *)
Theorem C7_crossing_request_survives_accept (lib : Query.Platform) :
  let st1 := snd (FriendsRoutes.run
                    (FriendsRoutes.SendRequest lib 1 Sample.alice Sample.bob)
                    Sample.three_users) in
  let crossing := FriendsRoutes.SendRequest lib 2 Sample.bob Sample.ALICE in
  let st2 := snd (FriendsRoutes.run crossing st1) in
  let accept := FriendsRoutes.Accept Sample.bob Sample.alice in
  let st3 := snd (FriendsRoutes.run accept st2) in
  FriendsRoutes.reachable st3
  /\ fst (FriendsRoutes.run (FriendsRoutes.SendRequest lib 2 Sample.bob Sample.alice) st1)
     = Failure 400 "This user has already sent you a friend request"
  /\ succeeded (fst (FriendsRoutes.run crossing st1)) = true
  /\ succeeded (fst (FriendsRoutes.run accept st2)) = true
  /\ FriendsRoutes.get_friends Sample.alice st3 = [Sample.bob]
  /\ FriendsRoutes.get_friends Sample.bob st3 = [Sample.alice]
  /\ FriendsRoutes.get_requests_sent Sample.bob st3 = [Sample.alice]
  /\ FriendsRoutes.get_requests_received Sample.alice st3 = [Sample.bob]
  /\ FriendsRoutes.pending_between Sample.alice Sample.bob st3.
Proof.
  intros st1 crossing st2 accept st3.
  split.
  { do 3 apply FriendsRoutes.reachable_step.
    apply FriendsRoutes.reachable_fresh, fresh_three_users. }
  repeat split; try (vm_compute; reflexivity).
  right; right; left. vm_compute. apply list_elem_of_In. simpl. auto.
Qed.

(** ** Messages after creation *)

Section MessageLifecycle.
Import MessagesRoutes.

Lemma evolves_refl (ms : list Message) : Forall2 evolves ms ms.
Proof. induction ms; constructor; [by left|done]. Qed.

Lemma updateMany_read_evolves now other current ms :
  Forall2 evolves ms (updateMany_read now other current ms).
Proof.
  induction ms as [|m ms IH]; simpl; constructor; [|done].
  destruct (unread_from other current m) eqn:E; [|by left].
  right. unfold unread_from in E.
  apply andb_true_iff in E as [_ E]. apply bool_decide_eq_true in E. eauto.
Qed.

Lemma save_evolves now i m ms :
  findById i ms = Some m -> isRead m = false ->
  Forall2 evolves ms (save (mark_read now m) ms).
Proof.
  unfold findById. intros Hfind Hunread.
  induction ms as [|x ms IH]; simpl in *; [constructor|].
  destruct (m_id x =? i) eqn:E.
  - injection Hfind as ->. rewrite Nat.eqb_refl.
    constructor; [right; eauto|apply evolves_refl].
  - destruct (m_id x =? m_id m) eqn:E'.
    + apply find_some in Hfind as [_ Hm]. apply Nat.eqb_eq in Hm, E'.
      apply Nat.eqb_neq in E. congruence.
    + constructor; [by left|by apply IH].
Qed.

Lemma findByIdAndDelete_split i m ms :
  findById i ms = Some m ->
  exists pre post,
    ms = (pre ++ m :: post)%list /\ m_id m = i
    /\ findByIdAndDelete i ms = (pre ++ post)%list.
Proof.
  unfold findById. induction ms as [|x ms IH]; simpl; [done|].
  destruct (m_id x =? i) eqn:E.
  - intros [= ->]. exists [], ms. apply Nat.eqb_eq in E. done.
  - intros H. destruct (IH H) as (pre & post & -> & Hid & Hdel).
    exists (x :: pre), post. simpl. by rewrite Hdel.
Qed.

Lemma friend_run_messages op st : messages (snd (FriendsRoutes.run op st)) = messages st.
Proof.
  destruct op; simpl;
    unfold FriendsRoutes.post_request, FriendsRoutes.post_accept,
      FriendsRoutes.post_decline, FriendsRoutes.delete_friend;
    repeat (case_bool_decide || case_match); done.
Qed.

(** Either route appends at most one message and touches no other. *)
Lemma post_message_appends lib now userId body st :
  exists added,
    messages (snd (post_message lib now userId body st)) = (messages st ++ added)%list.
Proof.
  unfold post_message.
  destruct (_ || _); [exists []; by rewrite app_nil_r|].
  destruct (users st !! b_receiver body); [|exists []; by rewrite app_nil_r].
  destruct (users st !! userId); [|exists []; by rewrite app_nil_r].
  destruct (_ && _); [exists []; by rewrite app_nil_r|].
  simpl. by eexists.
Qed.

Lemma on_sendMessage_appends lib cp now socketId data reg st :
  exists added,
    messages (snd (Server.on_sendMessage lib cp now socketId data reg st))
    = (messages st ++ added)%list.
Proof.
  unfold Server.on_sendMessage.
  destruct (Server.truthy _) as [senderId|]; [|exists []; by rewrite app_nil_r].
  destruct data as [d|]; [|exists []; by rewrite app_nil_r].
  destruct (_ || _); [exists []; by rewrite app_nil_r|].
  destruct (Query.castObjectId lib senderId); [|exists []; by rewrite app_nil_r].
  destruct (Query.castObjectId lib (Server.d_receiverId d));
    [|exists []; by rewrite app_nil_r].
  simpl. destruct cp; simpl; by eexists.
Qed.

(** Deleting succeeds only for the sender of the message. *)
Lemma delete_message_by_sender userId messageId st :
  succeeded (fst (delete_message userId messageId st)) = true ->
  exists m, findById messageId (messages st) = Some m /\ sender m = userId.
Proof.
  unfold delete_message.
  destruct (findById messageId (messages st)) as [m|]; [|done].
  case_bool_decide as Hs; simpl; [|done]. eauto.
Qed.

End MessageLifecycle.

(** C5: whatever the request, the stored messages afterwards are either
    the same messages in the same places, each one unchanged or turned from
    unread to read (with nothing else altered and no read message touched),
    followed by the newly created ones; or the request is a deletion by the
    sender of the one message that is gone.  A deletion succeeds only when
    the requester is the sender. *)
Theorem C5_message_immutability (r : Backend.Request) (s : Backend.State) :
  ((exists kept added,
       messages (Backend.store (Backend.handle r s)) = (kept ++ added)%list
       /\ Forall2 MessagesRoutes.evolves (messages (Backend.store s)) kept)
   \/ (exists userId messageId pre m post,
         r = Backend.DeleteMessage userId messageId
         /\ messages (Backend.store s) = (pre ++ m :: post)%list
         /\ m_id m = messageId /\ sender m = userId
         /\ messages (Backend.store (Backend.handle r s)) = (pre ++ post)%list))
  /\ (forall userId messageId,
        succeeded (fst (MessagesRoutes.delete_message userId messageId (Backend.store s)))
        = true ->
        exists m, MessagesRoutes.findById messageId (messages (Backend.store s)) = Some m
                  /\ sender m = userId)
  /\ (forall m m', MessagesRoutes.evolves m m' ->
        m_id m' = m_id m /\ sender m' = sender m /\ receiver m' = receiver m
        /\ content m' = content m /\ createdAt m' = createdAt m
        /\ (isRead m = true -> m' = m)).
Proof.
  split; [|split].
  - pose proof (evolves_refl (messages (Backend.store s))) as Hrefl.
    assert (Hsame : forall ms, ms = messages (Backend.store s) ->
              exists kept added, ms = (kept ++ added)%list
                /\ Forall2 MessagesRoutes.evolves (messages (Backend.store s)) kept).
    { intros ms ->. exists (messages (Backend.store s)), []. by rewrite app_nil_r. }
    destruct r; simpl; try (left; by apply Hsame).
    + left. apply Hsame. apply friend_run_messages.
    + left.
      destruct (post_message_appends lib now userId body (Backend.store s)) as [added ->].
      by exists (messages (Backend.store s)), added.
    + left. unfold MessagesRoutes.get_messages.
      destruct (users _ !! otherUserId); [|by apply Hsame].
      destruct (Query.negative_skip page limit); [by apply Hsame|].
      simpl. eexists _, []. rewrite app_nil_r. split; [done|].
      apply updateMany_read_evolves.
    + left. unfold MessagesRoutes.put_read.
      destruct (MessagesRoutes.findById messageId _) as [m|] eqn:Hfind; [|by apply Hsame].
      case_bool_decide; simpl; [|by apply Hsame].
      destruct (isRead m) eqn:Hr; simpl; [by apply Hsame|].
      eexists _, []. rewrite app_nil_r. split; [done|]. by apply (save_evolves now messageId).
    + unfold MessagesRoutes.delete_message.
      destruct (MessagesRoutes.findById messageId _) as [m|] eqn:Hfind;
        [|left; by apply Hsame].
      case_bool_decide as Hs; simpl; [|left; by apply Hsame].
      right. destruct (findByIdAndDelete_split _ _ _ Hfind) as (pre & post & E & Hid & Hdel).
      exists userId, messageId, pre, m, post. by rewrite Hdel.
    + left.
      destruct (on_sendMessage_appends lib chained_populate now socketId data
                  (Backend.registry s) (Backend.store s)) as [added ->].
      by exists (messages (Backend.store s)), added.
  - intros userId messageId. apply delete_message_by_sender.
  - intros m m' [->|[Hunread [t ->]]]; [done|].
    simpl. repeat split; try done. intros Hr. congruence.
Qed.

(** ** Sorted lists *)

Section SortedFacts.
Context {A : Type} (key : A -> nat).
Import Query.

Lemma sort_desc_descending (l : list A) : descending key (sort_desc key l).
Proof. apply (sort_by_descending in_insertion_order). Qed.

(** A selection from a sorted list is sorted. *)
Lemma descending_filter (f : A -> bool) (l : list A) :
  descending key l -> descending key (List.filter f l).
Proof.
  unfold descending. induction 1 as [|x l Hl IH Hx]; simpl; [constructor|].
  destruct (f x); [|done]. constructor; [done|].
  apply Forall_forall. intros y Hy.
  apply list_elem_of_In, filter_In in Hy as [Hy _].
  rewrite Forall_forall in Hx. apply Hx. by apply list_elem_of_In.
Qed.

(** The head of a sorted list has the greatest key. *)
Lemma descending_head (x y : A) (l : list A) :
  descending key (x :: l) -> y ∈ x :: l -> key y <= key x.
Proof.
  intros H Hy. apply StronglySorted_inv in H as [_ H].
  apply elem_of_cons in Hy as [->|Hy]; [done|].
  rewrite Forall_forall in H. by apply H.
Qed.

End SortedFacts.

Section FilterFacts.
Context {A : Type}.

Lemma List_filter_perm (f : A -> bool) (l l' : list A) :
  l ≡ₚ l' -> List.filter f l ≡ₚ List.filter f l'.
Proof.
  induction 1 as [|x l l' _ IH|x y l|l1 l2 l3 _ IH1 _ IH2]; simpl.
  - done.
  - destruct (f x); [by constructor|done].
  - destruct (f x), (f y); try done. apply Permutation_swap.
  - by etrans.
Qed.

Lemma List_filter_filter (f g : A -> bool) (l : list A) :
  List.filter f (List.filter g l) = List.filter (fun x => g x && f x) l.
Proof.
  induction l as [|x l IH]; simpl; [done|].
  destruct (g x); simpl; [|done]. destruct (f x); by rewrite IH.
Qed.

End FilterFacts.

(** ** The conversations aggregation *)

Section Grouping.
Import MessagesRoutes.
Variable u : string.

Lemma group_step_ids m gs :
  map g_id (group_step u m gs)
  = if bool_decide (otherUser u m ∈ map g_id gs) then map g_id gs
    else (map g_id gs ++ [otherUser u m])%list.
Proof.
  induction gs as [|g gs IH]; simpl; [done|].
  destruct (bool_decide (g_id g = otherUser u m)) eqn:Hg; simpl.
  - apply bool_decide_eq_true in Hg.
    rewrite bool_decide_eq_true_2; [done|]. rewrite Hg. by left.
  - apply bool_decide_eq_false in Hg. rewrite IH.
    destruct (bool_decide (otherUser u m ∈ map g_id gs)) eqn:Hin.
    + apply bool_decide_eq_true in Hin.
      rewrite bool_decide_eq_true_2; [done|]. by right.
    + apply bool_decide_eq_false in Hin.
      rewrite bool_decide_eq_false_2; [done|].
      intros [E|E]%elem_of_cons; [by symmetry in E|done].
Qed.

Lemma group_step_elem m gs g' :
  NoDup (map g_id gs) ->
  g' ∈ group_step u m gs ->
  (g' ∈ gs /\ g_id g' ≠ otherUser u m)
  \/ (exists g, g ∈ gs /\ g_id g = otherUser u m /\ g' = bump u m g)
  \/ ((otherUser u m ∉ map g_id gs) /\ g' = opened u m).
Proof.
  induction gs as [|g gs IH]; simpl; intros Hnd Hin.
  - apply list_elem_of_singleton in Hin as ->. right; right. split; [|done].
    apply not_elem_of_nil.
  - apply NoDup_cons in Hnd as [Hg Hnd].
    case_bool_decide as Hid.
    + apply elem_of_cons in Hin as [->|Hin].
      * right; left. exists g. split; [by left|done].
      * left. split; [by right|]. intros E. apply Hg. rewrite Hid, <- E.
        apply list_elem_of_fmap. by exists g'.
    + apply elem_of_cons in Hin as [->|Hin].
      * left. split; [by left|done].
      * destruct (IH Hnd Hin) as [[H1 H2]|[(g0 & H1 & H2 & H3)|[H1 H2]]].
        -- left. split; [by right|done].
        -- right; left. exists g0. split; [by right|done].
        -- right; right. split; [|done].
           intros [E|E]%elem_of_cons; [by symmetry in E|done].
Qed.

(** What the [$group] stage has accumulated after a stream: one group
    per key seen, holding the first document of the key and the number of
    its documents that count as unread. *)
Lemma group_by_otherUser_spec (l : list Message) :
  NoDup (map g_id (group_by_otherUser u l))
  /\ (forall c, c ∈ map g_id (group_by_otherUser u l)
                <-> exists m, m ∈ l /\ otherUser u m = c)
  /\ (forall g, g ∈ group_by_otherUser u l ->
        head (List.filter (in_group u (g_id g)) l) = Some (g_lastMessage g)
        /\ g_unreadCount g = length (List.filter (unread_in_group u (g_id g)) l)).
Proof.
  unfold group_by_otherUser.
  induction l as [|m l IH] using rev_ind; simpl.
  - split; [constructor|]. split.
    + intros c. split; [intros H; by apply not_elem_of_nil in H|].
      intros (m & H & _). by apply not_elem_of_nil in H.
    + intros g H. by apply not_elem_of_nil in H.
  - rewrite foldl_app. simpl.
    set (gs := foldl (fun gs m => group_step u m gs) [] l) in *.
    destruct IH as (Hnd & Hids & Hgs).
    assert (Hids' : forall c, c ∈ map g_id (group_step u m gs)
                     <-> c ∈ map g_id gs \/ c = otherUser u m).
    { intros c. rewrite group_step_ids. case_bool_decide as Hin.
      - split; [by left|]. by intros [H| ->].
      - by rewrite elem_of_app, list_elem_of_singleton. }
    split; [|split].
    + rewrite group_step_ids. case_bool_decide as Hin; [done|].
      apply NoDup_app. split; [done|]. split; [|apply NoDup_singleton].
      intros x Hx ->%list_elem_of_singleton. done.
    + intros c. rewrite Hids', Hids. split.
      * intros [(m' & H1 & H2)| ->].
        -- exists m'. split; [|done]. apply elem_of_app. by left.
        -- exists m. split; [|done]. apply elem_of_app. right. by left.
      * intros (m' & [H1|H1%list_elem_of_singleton]%elem_of_app & H2).
        -- left. by exists m'.
        -- right. by subst.
    + intros g' Hin. rewrite !List.filter_app, length_app. simpl.
      unfold in_group, unread_in_group, bump, opened in *.
      destruct (group_step_elem m gs g' Hnd Hin)
        as [[H1 H2]|[(g0 & H1 & H2 & ->)|[H1 ->]]].
      * destruct (Hgs g' H1) as [Hh Hc].
        rewrite bool_decide_eq_false_2 by done. simpl.
        rewrite !app_nil_r, Nat.add_0_r. split; [exact Hh|exact Hc].
      * destruct (Hgs g0 H1) as [Hh Hc]. simpl.
        rewrite bool_decide_eq_true_2 by done. simpl. split.
        -- unfold in_group in Hh.
           destruct (List.filter _ l); simpl in *; [done|done].
        -- rewrite Hc. unfold unread_in_group. destruct (unread_for u m); simpl; lia.
      * simpl. rewrite bool_decide_eq_true_2 by done. simpl.
        assert (Hnone : forall f,
                  List.filter (fun x => bool_decide (otherUser u x = otherUser u m) && f x) l
                  = []).
        { intros f. destruct (List.filter _ l) as [|x xs] eqn:E; [done|].
          assert (Hx : x ∈ List.filter
                          (fun x => bool_decide (otherUser u x = otherUser u m) && f x) l)
            by (rewrite E; by left).
          apply elem_of_List_filter in Hx as [Hx Hk].
          apply andb_true_iff in Hk as [Hk _]. apply bool_decide_eq_true in Hk.
          exfalso. apply H1. apply Hids. by exists x. }
        split.
        -- pose proof (Hnone (fun _ => true)) as Hn.
           erewrite List.filter_ext in Hn; [rewrite Hn; done|].
           intros x. simpl. by rewrite andb_true_r.
        -- rewrite (Hnone (unread_for u)). simpl. by destruct (unread_for u m).
Qed.

End Grouping.

Section Conversations.
Import MessagesRoutes.

Lemma Forall_List_filter {A} (f : A -> bool) (Q : A -> Prop) (l : list A) :
  Forall Q (List.filter f l) <-> Forall (fun x => f x = true -> Q x) l.
Proof.
  rewrite !Forall_forall. split.
  - intros H x Hx Hf. apply H. by apply elem_of_List_filter.
  - intros H x [Hx Hf]%elem_of_List_filter. by apply H.
Qed.

(** A group of the listing holds, of its conversation, a message of
    greatest creation time and the number of unread messages addressed to
    the user. *)
Lemma conversation_group_spec lib userId st g :
  g ∈ conversation_groups lib userId st ->
  g_lastMessage g ∈ messages st
  /\ in_conversation userId (g_id g) (g_lastMessage g) = true
  /\ (forall m, m ∈ messages st -> in_conversation userId (g_id g) m = true ->
        createdAt m <= createdAt (g_lastMessage g))
  /\ g_unreadCount g
     = length (List.filter
                 (fun m => in_conversation userId (g_id g) m && unread_for userId m)
                 (messages st)).
Proof.
  intros Hg. unfold conversation_groups in Hg.
  set (matched := List.filter (involves userId) (messages st)) in *.
  set (sorted := Query.sort_by lib createdAt matched) in *.
  destruct (group_by_otherUser_spec userId sorted) as (_ & _ & Hspec).
  destruct (Hspec g Hg) as [Hhead Hcount]. clear Hspec.
  assert (Hsorted : forall m, m ∈ sorted <-> m ∈ messages st /\ involves userId m = true).
  { intros m. unfold sorted, matched. by rewrite elem_of_sort_by, elem_of_List_filter. }
  assert (Hdesc : Query.descending createdAt (List.filter (in_group userId (g_id g)) sorted)).
  { apply descending_filter, (Query.sort_by_descending lib). }
  destruct (List.filter (in_group userId (g_id g)) sorted) as [|x rest] eqn:Hf; [done|].
  injection Hhead as ->.
  assert (Hmem : forall m, m ∈ g_lastMessage g :: rest
                           <-> m ∈ messages st /\ in_conversation userId (g_id g) m = true).
  { intros m. rewrite <- Hf, elem_of_List_filter, Hsorted.
    unfold in_conversation, in_group. rewrite andb_true_iff. naive_solver. }
  destruct (proj1 (Hmem (g_lastMessage g))) as [Hin Hconv]; [by left|].
  split; [done|]. split; [done|]. split.
  - intros m Hm Hc. apply (descending_head createdAt _ _ rest); [done|].
    by apply Hmem.
  - rewrite Hcount. unfold sorted.
    rewrite (Permutation_length
               (List_filter_perm _ _ _ (Query.sort_by_perm lib _ createdAt _))).
    unfold matched. rewrite List_filter_filter. f_equal. apply List.filter_ext.
    intros m. unfold unread_in_group, in_conversation. by rewrite andb_assoc.
Qed.

Lemma conversation_group_ids lib userId st :
  NoDup (map g_id (conversation_groups lib userId st))
  /\ forall c, c ∈ map g_id (conversation_groups lib userId st)
               <-> exists m, m ∈ messages st /\ in_conversation userId c m = true.
Proof.
  unfold conversation_groups.
  destruct (group_by_otherUser_spec userId
              (Query.sort_by lib createdAt (List.filter (involves userId) (messages st))))
    as (Hnd & Hids & _).
  split; [exact Hnd|]. intros c. rewrite Hids. unfold in_conversation.
  split.
  - intros (m & Hm & Hc). exists m.
    apply elem_of_sort_by, elem_of_List_filter in Hm as [Hm Hi].
    split; [done|]. rewrite Hi. by apply bool_decide_eq_true.
  - intros (m & Hm & [Hi Hc]%andb_true_iff). exists m.
    apply bool_decide_eq_true in Hc. split; [|done].
    apply elem_of_sort_by, elem_of_List_filter. done.
Qed.

Lemma lookup_unwind_Some st g row :
  lookup_unwind st g = Some row ->
  is_Some (users st !! g_id g) /\ c_id row = g_id g
  /\ c_lastMessage row = g_lastMessage g /\ c_unreadCount row = g_unreadCount g.
Proof.
  unfold lookup_unwind. destruct (users st !! g_id g); [|done].
  intros [= <-]. simpl. split; [by eexists|done].
Qed.

Lemma omap_cons_Some {A B} (f : A -> option B) (x : A) (l : list A) (y : B) :
  f x = Some y -> omap f (x :: l) = y :: omap f l.
Proof. intros H. cbn. by rewrite H. Qed.

Lemma omap_cons_None {A B} (f : A -> option B) (x : A) (l : list A) :
  f x = None -> omap f (x :: l) = omap f l.
Proof. intros H. cbn. by rewrite H. Qed.

Lemma lookup_unwind_None st g :
  lookup_unwind st g = None -> users st !! g_id g = None.
Proof. unfold lookup_unwind. by destruct (users st !! g_id g). Qed.

Lemma lookup_unwind_ids st gs :
  NoDup (map g_id gs) ->
  NoDup (map c_id (omap (lookup_unwind st) gs))
  /\ forall c, c ∈ map c_id (omap (lookup_unwind st) gs)
               <-> c ∈ map g_id gs /\ is_Some (users st !! c).
Proof.
  induction gs as [|g gs IH]; intros Hnd.
  - split; [constructor|]. intros c. split; [intros H|intros [H _]];
      by apply not_elem_of_nil in H.
  - rewrite map_cons in Hnd.
    apply NoDup_cons in Hnd as [Hg Hnd]. destruct (IH Hnd) as [IH1 IH2].
    destruct (lookup_unwind st g) as [row|] eqn:Hlu.
    + rewrite (omap_cons_Some _ _ _ _ Hlu), !map_cons.
      apply lookup_unwind_Some in Hlu as (Hsome & -> & _).
      split.
      * apply NoDup_cons. split; [|done]. rewrite IH2. intros [H _]. done.
      * intros c. rewrite !elem_of_cons, IH2. split.
        -- intros [->|[H1 H2]]; [split; [by left|done]|split; [by right|done]].
        -- intros [[->|H1] H2]; [by left|by right].
    + rewrite (omap_cons_None _ _ _ Hlu), map_cons.
      apply lookup_unwind_None in Hlu.
      split; [done|]. intros c. rewrite elem_of_cons, IH2. split.
      * intros [H1 H2]. split; [by right|done].
      * intros [[->|H1] H2]; [|done]. rewrite Hlu in H2. by destruct H2.
Qed.

Lemma get_conversations_rows lib userId st row :
  row ∈ get_conversations lib userId st
  <-> exists g, g ∈ conversation_groups lib userId st /\ lookup_unwind st g = Some row.
Proof.
  unfold get_conversations. rewrite elem_of_sort_by, list_elem_of_omap. done.
Qed.

End Conversations.

(** C2, as the code has it: whichever way the database orders equal
    creation times, the listing has exactly one row per distinct counterparty
    that has a user document (a group whose counterparty has none is unwound
    away); the row's last message is a message of the pair whose creation
    time no message of the pair exceeds; the row's unread count is the number
    of messages of the pair addressed to the user and not read.  So when
    one message of the pair is strictly later than all the others, whatever
    other conversations are interleaved, it is the row's last message. *)
Theorem C2_conversation_aggregation (lib : Query.Platform) (userId : string)
    (st : Store) :
  let rows := MessagesRoutes.get_conversations lib userId st in
  NoDup (map MessagesRoutes.c_id rows)
  /\ (forall c,
        c ∈ map MessagesRoutes.c_id rows
        <-> (exists m, m ∈ messages st
                       /\ MessagesRoutes.in_conversation userId c m = true)
            /\ is_Some (users st !! c))
  /\ (forall row, row ∈ rows ->
        let last := MessagesRoutes.c_lastMessage row in
        let mine := MessagesRoutes.in_conversation userId (MessagesRoutes.c_id row) in
        last ∈ messages st
        /\ mine last = true
        /\ (forall m, m ∈ messages st -> mine m = true -> createdAt m <= createdAt last)
        /\ MessagesRoutes.c_unreadCount row
           = length (List.filter
                       (fun m => mine m && MessagesRoutes.unread_for userId m)
                       (messages st)))
  /\ (forall row m3, row ∈ rows ->
        m3 ∈ messages st ->
        MessagesRoutes.in_conversation userId (MessagesRoutes.c_id row) m3 = true ->
        (forall m, m ∈ messages st ->
           MessagesRoutes.in_conversation userId (MessagesRoutes.c_id row) m = true ->
           m = m3 \/ createdAt m < createdAt m3) ->
        MessagesRoutes.c_lastMessage row = m3).
Proof.
  intros rows.
  assert (Hrow : forall row, row ∈ rows ->
            let last := MessagesRoutes.c_lastMessage row in
            let mine := MessagesRoutes.in_conversation userId (MessagesRoutes.c_id row) in
            last ∈ messages st
            /\ mine last = true
            /\ (forall m, m ∈ messages st -> mine m = true ->
                  createdAt m <= createdAt last)
            /\ MessagesRoutes.c_unreadCount row
               = length (List.filter
                           (fun m => mine m && MessagesRoutes.unread_for userId m)
                           (messages st))).
  { intros row Hin. apply get_conversations_rows in Hin as (g & Hg & Hlu).
    apply lookup_unwind_Some in Hlu as (_ & -> & -> & ->).
    by apply (conversation_group_spec lib). }
  destruct (conversation_group_ids lib userId st) as [Hnd Hids].
  destruct (lookup_unwind_ids st _ Hnd) as [Hnd' Hids'].
  assert (Hperm : map MessagesRoutes.c_id rows
                  ≡ₚ map MessagesRoutes.c_id
                       (omap (MessagesRoutes.lookup_unwind st)
                             (MessagesRoutes.conversation_groups lib userId st))).
  { apply Permutation_map. apply (Query.sort_by_perm lib). }
  split; [by rewrite Hperm|]. split; [|split; [exact Hrow|]].
  - intros c. rewrite Hperm, Hids', Hids. done.
  - intros row m3 Hin Hm3 Hmine Hlatest.
    destruct (Hrow row Hin) as (Hl & Hlast & Hmax & _).
    destruct (Hlatest _ Hl Hlast) as [E|Hlt]; [done|].
    specialize (Hmax _ Hm3 Hmine). lia.
Qed.

(** C2 as stated fails, twice.  Alice has one message, to a counterparty
    without a user document, and her listing has no row.  And Bob has sent
    Alice two messages, "first" and then "second", that were created at the
    same clock reading: a platform that keeps equal creation times in
    insertion order reports the first as the last message of the pair, a
    platform that returns them in the opposite order reports the second; the
    sort fixes no rule for ties. *)
Lemma C2_no_row_without_user_and_no_rule_for_ties :
  let last_messages lib st :=
    map (fun row => content (MessagesRoutes.c_lastMessage row))
        (MessagesRoutes.get_conversations lib Sample.alice st) in
  messages Sample.dangling
  = [mkMessage 0 Sample.alice Sample.nobody "anyone there?" "text" "" false None 5]
  /\ MessagesRoutes.get_conversations Query.in_insertion_order Sample.alice Sample.dangling
     = []
  /\ map (fun m => (content m, createdAt m)) (messages Sample.same_instant)
     = [("first", 8); ("second", 8)]
  /\ last_messages Query.in_insertion_order Sample.same_instant = ["first"]
  /\ last_messages Query.ties_reversed Sample.same_instant = ["second"].
Proof. repeat split; vm_compute; reflexivity. Qed.

(** Alice's listing over the interleaved conversations: the row for Bob
    ends with the message of time 5 and counts two unread messages. *)
Lemma C2_conversation_aggregation_witness :
  map (fun row => (MessagesRoutes.c_id row,
                   content (MessagesRoutes.c_lastMessage row),
                   MessagesRoutes.c_unreadCount row))
      (MessagesRoutes.get_conversations Query.ties_reversed Sample.alice
         Sample.interleaved)
  = [(Sample.bob, "five", 2); (Sample.carol, "four", 1)]
  /\ forall lib row,
       row ∈ MessagesRoutes.get_conversations lib Sample.alice Sample.interleaved ->
       MessagesRoutes.c_id row = Sample.bob ->
       MessagesRoutes.c_lastMessage row
       = mkMessage 4 Sample.bob Sample.alice "five" "text" "" false None 5.
Proof.
  split; [vm_compute; reflexivity|].
  intros lib row Hin Hid.
  destruct (C2_conversation_aggregation lib Sample.alice Sample.interleaved)
    as (_ & _ & _ & Hlast).
  apply Hlast; [done| |rewrite Hid; vm_compute; reflexivity|].
  - apply list_elem_of_In. simpl. auto 10.
  - rewrite Hid. intros m Hm Hmine.
    apply list_elem_of_In in Hm. simpl in Hm.
    destruct Hm as [<-|[<-|[<-|[<-|[<-|[]]]]]]; simpl; try (left; reflexivity);
      try (right; lia); vm_compute in Hmine; discriminate.
Defined.

(** ** Unread accounting *)

Section Unread.
Import MessagesRoutes.

Lemma List_filter_none {A} (f : A -> bool) (l : list A) :
  (forall x, x ∈ l -> f x = false) -> List.filter f l = [].
Proof.
  induction l as [|x l IH]; simpl; intros H; [done|].
  rewrite (H x) by by left. apply IH. intros y Hy. apply H. by right.
Qed.

Lemma updateMany_read_all_read now other current ms :
  length (List.filter (fun m => sent_by_to other current m && isRead m)
            (updateMany_read now other current ms))
  = length (List.filter (sent_by_to other current) ms).
Proof.
  induction ms as [|m ms IH]; simpl; [done|].
  unfold unread_from, sent_by_to in *.
  destruct (bool_decide (sender m = other)) eqn:E1,
           (bool_decide (receiver m = current)) eqn:E2,
           (isRead m) eqn:E3; simpl;
    rewrite ?E1, ?E2, ?E3; simpl; rewrite ?IH; done.
Qed.

Lemma updateMany_read_none_unread now other current ms m :
  m ∈ updateMany_read now other current ms -> unread_from other current m = false.
Proof.
  unfold updateMany_read. rewrite list_elem_of_In, in_map_iff.
  intros (x & <- & _). destruct (unread_from other current x) eqn:E; [|done].
  unfold unread_from. simpl. by rewrite andb_false_r.
Qed.

Lemma updateMany_read_unread_count now other current ms :
  length (List.filter
            (fun m => bool_decide (receiver m = current) && bool_decide (isRead m = false))
            (updateMany_read now other current ms))
  = length (List.filter
              (fun m => bool_decide (receiver m = current) && bool_decide (isRead m = false)
                        && negb (bool_decide (sender m = other))) ms).
Proof.
  induction ms as [|m ms IH]; simpl; [done|].
  unfold unread_from.
  destruct (bool_decide (sender m = other)) eqn:E1,
           (bool_decide (receiver m = current)) eqn:E2,
           (bool_decide (isRead m = false)) eqn:E3; simpl;
    rewrite ?E1, ?E2, ?E3; simpl; rewrite ?IH; done.
Qed.

(** A message of the conversation with [other] that counts as unread for
    [current] is an unread message from [other] to [current]. *)
Lemma unread_in_conversation current other m :
  in_conversation current other m && unread_for current m = true ->
  unread_from other current m = true.
Proof.
  unfold in_conversation, unread_for, unread_from, involves, otherUser.
  intros [[_ Ho]%andb_true_iff [Hr Hu]%andb_true_iff]%andb_true_iff.
  apply bool_decide_eq_true in Hr, Hu. rewrite Hr, Hu.
  rewrite (bool_decide_eq_true_2 (current = current)) by done.
  rewrite (bool_decide_eq_true_2 (false = false)) by done.
  rewrite !andb_true_r. apply bool_decide_eq_true.
  destruct (bool_decide (sender m = current)) eqn:Es.
  - apply bool_decide_eq_true in Es, Ho. congruence.
  - by apply bool_decide_eq_true in Ho.
Qed.

Lemma get_messages_ok lib now page limit current other st :
  is_Some (users st !! other) -> 1 <= page ->
  succeeded (fst (get_messages lib now page limit current other st)) = true
  /\ messages (snd (get_messages lib now page limit current other st))
     = updateMany_read now other current (messages st)
  /\ users (snd (get_messages lib now page limit current other st)) = users st.
Proof.
  intros [ou Ho] Hp. unfold get_messages. rewrite Ho.
  replace (Query.negative_skip page limit) with false; [done|].
  unfold Query.negative_skip. destruct page; [lia|done].
Qed.

(** A successful post appends one unread message from the sender to the
    receiver and leaves the users as they are. *)
Lemma post_message_success lib now userId body st :
  succeeded (fst (post_message lib now userId body st)) = true ->
  messages (snd (post_message lib now userId body st))
  = (messages st ++
     [mkMessage (nextId st) userId (b_receiver body) (Query.trim (b_content body))
        (default "text" (b_messageType body)) (default "" (b_fileUrl body))
        false None now])%list
  /\ users (snd (post_message lib now userId body st)) = users st.
Proof.
  unfold post_message.
  destruct (_ || _); [done|].
  destruct (users st !! b_receiver body); [|done].
  destruct (users st !! userId); [|done].
  destruct (_ && _); done.
Qed.

(** Whether a post succeeds depends on the users only. *)
Lemma post_message_success_users lib now now' userId body st st' :
  users st' = users st ->
  succeeded (fst (post_message lib now' userId body st'))
  = succeeded (fst (post_message lib now userId body st)).
Proof.
  intros E. unfold post_message. rewrite E.
  destruct (_ || _); [done|].
  destruct (users st !! b_receiver body); [|done].
  destruct (users st !! userId); [|done].
  destruct (_ && _); done.
Qed.

(** [n] posts that are allowed add [n] unread messages from the sender
    to the receiver. *)
Lemma post_messages_unread lib n now userId body st :
  succeeded (fst (post_message lib now userId body st)) = true ->
  length (List.filter (unread_from userId (b_receiver body))
            (messages (post_messages lib n now userId body st)))
  = length (List.filter (unread_from userId (b_receiver body)) (messages st)) + n.
Proof.
  revert now st. induction n as [|n IH]; intros now st Hok; simpl; [lia|].
  destruct (post_message_success lib now userId body st Hok) as [Hms Hus].
  rewrite IH.
  - rewrite Hms, List.filter_app, length_app. simpl.
    unfold unread_from at 2. simpl.
    rewrite !bool_decide_eq_true_2 by done. simpl. lia.
  - rewrite <- Hok. by apply post_message_success_users.
Qed.

End Unread.

(** C3: when the other user exists and the page number is at least 1
    (the default is 1, with a limit of 50), one fetch of the conversation
    succeeds and afterwards each of the [n] messages the other user had
    sent to the current user, however many, is stored as read; none from
    that sender is unread; the unread count of the current user is the
    number of unread messages from everybody else; and the conversation
    row for that sender reports 0 unread. *)
Theorem C3_unread_accounting (lib lib' : Query.Platform)
    (st : Store) (current other : string) (now page limit n : nat) :
  is_Some (users st !! other) ->
  1 <= page ->
  length (List.filter (MessagesRoutes.sent_by_to other current) (messages st)) = n ->
  let st' := snd (MessagesRoutes.get_messages lib now page limit current other st) in
  succeeded (fst (MessagesRoutes.get_messages lib now page limit current other st)) = true
  /\ length (List.filter
               (fun m => MessagesRoutes.sent_by_to other current m && isRead m)
               (messages st')) = n
  /\ List.filter (MessagesRoutes.unread_from other current) (messages st') = []
  /\ MessagesRoutes.get_unread_count current st'
     = length (List.filter
                 (fun m => bool_decide (receiver m = current)
                           && bool_decide (isRead m = false)
                           && negb (bool_decide (sender m = other)))
                 (messages st))
  /\ Forall (fun row => MessagesRoutes.c_id row = other ->
                        MessagesRoutes.c_unreadCount row = 0)
            (MessagesRoutes.get_conversations lib' current st').
Proof.
  intros Ho Hp Hn st'.
  destruct (get_messages_ok lib now page limit current other st Ho Hp) as (Hok & Hms & _).
  fold st' in Hms.
  assert (Hnone : List.filter (MessagesRoutes.unread_from other current) (messages st') = []).
  { apply List_filter_none. intros m Hm. rewrite Hms in Hm.
    by eapply updateMany_read_none_unread. }
  split; [exact Hok|]. split; [|split; [exact Hnone|split]].
  - rewrite Hms, updateMany_read_all_read. exact Hn.
  - unfold MessagesRoutes.get_unread_count. rewrite Hms.
    apply updateMany_read_unread_count.
  - apply Forall_forall. intros row Hrow Hid.
    apply get_conversations_rows in Hrow as (g & Hg & Hlu).
    apply lookup_unwind_Some in Hlu as (_ & Hcid & _ & ->).
    destruct (conversation_group_spec _ _ _ _ Hg) as (_ & _ & _ & ->).
    rewrite <- Hcid, Hid. rewrite List_filter_none; [done|].
    intros m Hm. apply not_true_iff_false. intros Hu.
    apply unread_in_conversation in Hu.
    assert (Hin : m ∈ List.filter (MessagesRoutes.unread_from other current) (messages st')).
    { by apply elem_of_List_filter. }
    rewrite Hnone in Hin. by apply not_elem_of_nil in Hin.
Qed.

(** Alice fetches her conversation with Bob after his sixty messages:
    the page shows fifty of them, and all sixty are read afterwards. *)
Lemma C3_unread_accounting_witness :
  let fetch := MessagesRoutes.get_messages_default Query.ties_reversed 99
                 Sample.alice Sample.bob Sample.sixty_unread in
  MessagesRoutes.get_unread_count Sample.alice Sample.sixty_unread = 60
  /\ length (MessagesRoutes.messages_of (fst fetch)) = 50
  /\ length (List.filter
               (fun m => MessagesRoutes.sent_by_to Sample.bob Sample.alice m && isRead m)
               (messages (snd fetch))) = 60
  /\ MessagesRoutes.get_unread_count Sample.alice (snd fetch) = 0.
Proof.
  intros fetch.
  split; [vm_compute; reflexivity|]. split; [vm_compute; reflexivity|].
  destruct (C3_unread_accounting Query.ties_reversed Query.ties_reversed
              Sample.sixty_unread Sample.alice Sample.bob 99 1 50 60)
    as (_ & Hread & _ & Hcount & _).
  - vm_compute. by eexists.
  - lia.
  - vm_compute. reflexivity.
  - split; [exact Hread|]. unfold fetch, MessagesRoutes.get_messages_default.
    rewrite Hcount. vm_compute. reflexivity.
Defined.

(** ** Worked examples *)

Example trim_example : Query.trim "  hello world " = "hello world".
Proof. reflexivity. Qed.

Example paginate_second_page : Query.paginate 2 2 [1; 2; 3; 4; 5] = [3; 4].
Proof. reflexivity. Qed.

(** Two platforms, two orders among equal keys. *)
Example two_orders_among_ties :
  Query.sort_by Query.in_insertion_order snd [("a", 1); ("b", 2); ("c", 1); ("d", 2)]
  = [("b", 2); ("d", 2); ("a", 1); ("c", 1)]
  /\ Query.sort_by Query.ties_reversed snd [("a", 1); ("b", 2); ("c", 1); ("d", 2)]
     = [("d", 2); ("b", 2); ("c", 1); ("a", 1)].
Proof. split; reflexivity. Qed.

(** A no-break space is white space, and a character of several bytes
    counts once. *)
Example trim_and_lengths :
  let text l := String.string_of_list_ascii (map ascii_of_nat l) in
  Query.trim (text [194; 160; 104; 105; 226; 128; 168]) = "hi"
  /\ Query.code_points (text [195; 169; 240; 159; 152; 128]) = 2
  /\ Query.js_length (text [195; 169; 240; 159; 152; 128]) = 3
  /\ Query.castObjectId Query.in_insertion_order Sample.ALICE = Some Sample.alice.
Proof. repeat split; reflexivity. Qed.

(** A whitespace-only content is refused on both paths. *)
Example blank_content_refused :
  fst (MessagesRoutes.post_message Query.in_insertion_order 1 Sample.alice
         (MessagesRoutes.mkSendBody Sample.alice "   " None None) Sample.three_users)
  = Failure 400 "Validation errors"
  /\ fst (fst (Server.on_sendMessage Query.in_insertion_order true 1 "h1"
                 (Some (Server.mkSendData Sample.bob "   " None None))
                 (snd (Server.on_join "h1" Sample.alice Server.no_connections))
                 Sample.three_users))
     = Server.AckFailure "receiverId and non-empty content are required".
Proof. split; vm_compute; reflexivity. Qed.

(** A message to oneself passes the check of the REST route. *)
Example message_to_self_allowed :
  succeeded (fst (MessagesRoutes.post_message Query.in_insertion_order 1 Sample.alice
                    (MessagesRoutes.mkSendBody Sample.alice "note" None None)
                    Sample.three_users)) = true.
Proof. vm_compute. reflexivity. Qed.

(** * Further properties of the code *)

(** ** The channel: joining, sending, leaving *)

Section ChannelFacts.
Import Server.

(** X1: a socket that joins and then disconnects leaves the registry as it
    was, when neither the socket nor the user was registered before and the
    user id is not empty. *)
Theorem join_then_disconnect_restores (socketId userId : string) (reg : Registry) :
  userId ≠ "" ->
  activeUsers reg !! userId = None ->
  socketToUser reg !! socketId = None ->
  snd (on_disconnect socketId (snd (on_join socketId userId reg))) = reg.
Proof.
  intros Hu Ha Hs. unfold on_disconnect, on_join. cbn [snd socketToUser activeUsers].
  rewrite lookup_insert_eq, truthy_Some by done. cbn [snd].
  rewrite !delete_insert_id by done. by destruct reg.
Qed.

Lemma join_then_disconnect_restores_witness :
  snd (on_disconnect "h1" (snd (on_join "h1" Sample.alice no_connections)))
  = no_connections.
Proof.
  apply (join_then_disconnect_restores "h1" Sample.alice no_connections); done.
Defined.

(** X2: a [sendMessage] event from a joined socket, with a non-blank
    content, whose joined id and receiver id the database accepts as ids, is
    saved unread under those ids with the trimmed content.  When the chained
    populate call is accepted, the saved message is acknowledged, confirmed
    to the sending socket, and pushed before that to the socket registered
    under the receiver id as it was sent, when there is one.  When the
    populate call is refused, the message is saved all the same, the
    acknowledgement reports a server error and nothing is emitted. *)
Theorem send_is_saved_and_delivered (lib : Query.Platform) (now : nat)
    (socketId joinedId from to : string)
    (d : SendData) (reg : Registry) (st : Store) :
  truthy (socketToUser reg !! socketId) = Some joinedId ->
  Query.castObjectId lib joinedId = Some from ->
  Query.castObjectId lib (d_receiverId d) = Some to ->
  d_receiverId d ≠ "" -> Query.trim (d_content d) ≠ "" ->
  let saved :=
    mkMessage (nextId st) from to (Query.trim (d_content d))
      (default "text" (d_messageType d)) (default "" (d_fileUrl d)) false None now in
  let stored :=
    mkStore (users st) (messages st ++ [saved]) (posts st) (S (nextId st)) in
  on_sendMessage lib true now socketId (Some d) reg st
  = (AckSuccess saved,
     match truthy (activeUsers reg !! d_receiverId d) with
     | Some receiverSocketId =>
       [mkEmit receiverSocketId "receiveMessage" saved;
        mkEmit socketId "messageSent" saved]
     | None => [mkEmit socketId "messageSent" saved]
     end,
     stored)
  /\ on_sendMessage lib false now socketId (Some d) reg st
     = (AckFailure "Server error", [], stored).
Proof.
  intros Hs Hfrom Hto Hr Hc saved stored. unfold on_sendMessage. rewrite Hs.
  assert (Hd : d_content d ≠ "").
  { intros E. apply Hc. rewrite E. reflexivity. }
  rewrite !bool_decide_eq_false_2 by done. cbn. rewrite Hfrom, Hto. cbn.
  split; [|done]. by destruct (truthy (activeUsers reg !! d_receiverId d)).
Qed.

(** Bob is connected on "h2" under his id in upper case when Alice, on
    "h1", writes to him under that spelling. *)
Lemma send_is_saved_and_delivered_witness :
  let reg := snd (on_join "h2" Sample.BOB
                    (snd (on_join "h1" Sample.alice no_connections))) in
  let saved := mkMessage 0 Sample.alice Sample.bob "hello" "text" "" false None 7 in
  let data := Some (mkSendData Sample.BOB " hello " None None) in
  snd (fst (on_sendMessage Query.in_insertion_order true 7 "h1" data reg
              Sample.three_users))
  = [mkEmit "h2" "receiveMessage" saved; mkEmit "h1" "messageSent" saved]
  /\ fst (fst (on_sendMessage Query.in_insertion_order false 7 "h1" data reg
                 Sample.three_users))
     = AckFailure "Server error".
Proof.
  intros reg saved data. subst data.
  destruct (send_is_saved_and_delivered Query.in_insertion_order 7 "h1"
              Sample.alice Sample.alice Sample.bob
              (mkSendData Sample.BOB " hello " None None) reg Sample.three_users)
    as [H1 H2];
    [vm_compute; reflexivity|vm_compute; reflexivity|vm_compute; reflexivity
    |done|by vm_compute|].
  rewrite H1, H2. vm_compute. done.
Defined.

(** X3: when the populate call is accepted, a send that is not
    acknowledged as a success has stored nothing and emitted nothing; and
    whatever the populate call does, an event is only ever emitted together
    with a success acknowledgement, of a message stored unread under the
    next id whose sender is the id that the string joined on that socket
    names. *)
Theorem failed_send_leaves_no_trace (lib : Query.Platform) (cp : bool) (now : nat)
    (socketId : string) (data : option SendData) (reg : Registry) (st : Store) :
  let '(ack, events, st') := on_sendMessage lib cp now socketId data reg st in
  (forall msg, ack = AckFailure msg -> events = [] /\ (cp = true -> st' = st))
  /\ (forall m, ack = AckSuccess m ->
        messages st' = (messages st ++ [m])%list
        /\ isRead m = false /\ m_id m = nextId st
        /\ (exists joinedId,
              truthy (socketToUser reg !! socketId) = Some joinedId
              /\ Query.castObjectId lib joinedId = Some (sender m))
        /\ mkEmit socketId "messageSent" m ∈ events).
Proof.
  unfold on_sendMessage.
  destruct (truthy (socketToUser reg !! socketId)) as [senderId|]; [|by split].
  destruct data as [d|]; [|by split].
  destruct (_ || _); [by split|].
  destruct (Query.castObjectId lib senderId) as [from|] eqn:Hfrom; [|by split].
  destruct (Query.castObjectId lib (d_receiverId d)) as [to|]; [|by split].
  cbn. destruct cp; split; try done.
  intros m [= <-]. repeat split; [by exists senderId|].
  apply elem_of_app. right. by left.
Qed.

End ChannelFacts.

(** ** The message form against the backend *)

Section MessageForm.
Import Client.

(** The payload the form emits is refused by the socket handler in every
    state: it stores nothing and emits nothing. *)
Lemma emitted_payload_refused lib cp now socketId receiver reg st :
  snd (Server.on_sendMessage lib cp now socketId (Some (emitted_payload receiver)) reg st)
  = st
  /\ snd (fst (Server.on_sendMessage lib cp now socketId
                 (Some (emitted_payload receiver)) reg st)) = [].
Proof.
  unfold Server.on_sendMessage, emitted_payload.
  destruct (Server.truthy _); [|done]. cbn.
  rewrite orb_true_r. done.
Qed.

(** X4: submitting the message form never makes the server push an event
    and never stores a message twice: the socket event it emits next to the
    REST request carries no [content] and is refused, so the backend ends in
    the state the REST request alone produces, with at most one new
    message. *)
Theorem message_form_stores_once (lib : Query.Platform) (cp : bool) (now : nat)
    (socket : option string)
    (currentUser message : string) (selectedConversation : option string)
    (s : Backend.State) :
  snd (handleSendMessage lib cp now socket currentUser message selectedConversation s)
  = []
  /\ fst (handleSendMessage lib cp now socket currentUser message selectedConversation s)
     = fst (handleSendMessage lib cp now None currentUser message selectedConversation s)
  /\ exists added,
       messages (Backend.store
                   (fst (handleSendMessage lib cp now socket currentUser message
                           selectedConversation s)))
       = (messages (Backend.store s) ++ added)%list
       /\ length added <= 1.
Proof.
  unfold handleSendMessage.
  destruct selectedConversation as [receiver|];
    [|repeat split; exists []; rewrite app_nil_r; split; [done|simpl; lia]].
  destruct (_ || _);
    [repeat split; exists []; rewrite app_nil_r; split; [done|simpl; lia]|].
  set (body := MessagesRoutes.mkSendBody receiver (Query.trim message) None None).
  assert (Hrest : exists added,
            messages (snd (MessagesRoutes.post_message lib now currentUser body
                             (Backend.store s)))
            = (messages (Backend.store s) ++ added)%list /\ length added <= 1).
  { unfold MessagesRoutes.post_message.
    destruct (_ || _); [exists []; rewrite app_nil_r; split; [done|simpl; lia]|].
    destruct (users _ !! MessagesRoutes.b_receiver body);
      [|exists []; rewrite app_nil_r; split; [done|simpl; lia]].
    destruct (users _ !! currentUser);
      [|exists []; rewrite app_nil_r; split; [done|simpl; lia]].
    destruct (_ && _); [exists []; rewrite app_nil_r; split; [done|simpl; lia]|].
    cbn. eexists. split; [reflexivity|]. simpl. lia. }
  destruct socket as [socketId|]; cbn [fst snd]; [|by repeat split].
  cbn [Backend.emits Backend.handle Backend.registry Backend.store].
  destruct (emitted_payload_refused lib cp now socketId receiver (Backend.registry s)
              (snd (MessagesRoutes.post_message lib now currentUser body
                      (Backend.store s))))
    as [-> ->].
  by repeat split.
Qed.

End MessageForm.

(** ** Message ids, reading and deleting *)

Lemma List_filter_all {A} (f : A -> bool) (l : list A) :
  (forall x, x ∈ l -> f x = true) -> List.filter f l = l.
Proof.
  induction l as [|x l IH]; cbn; intros H; [done|].
  rewrite (H x) by by left. f_equal. apply IH. intros y Hy. apply H. by right.
Qed.

Section MessageIds.
Import MessagesRoutes.

(** With distinct ids, deleting by id removes the message found by that id
    and nothing else. *)
Lemma findByIdAndDelete_filter i ms :
  NoDup (map m_id ms) ->
  findByIdAndDelete i ms = List.filter (fun m => negb (m_id m =? i)) ms.
Proof.
  induction ms as [|x ms IH]; cbn; [done|].
  intros [Hx Hnd]%NoDup_cons. destruct (m_id x =? i) eqn:E; cbn.
  - apply Nat.eqb_eq in E. symmetry. apply List_filter_all.
    intros m Hm. apply negb_true_iff, Nat.eqb_neq.
    intros E'. apply Hx. rewrite E, <- E'. apply list_elem_of_fmap. by exists m.
  - by rewrite IH.
Qed.

End MessageIds.


Section ReadAndDelete.
Import MessagesRoutes.

Lemma findById_filter_other i j ms :
  j ≠ i ->
  findById j (List.filter (fun m => negb (m_id m =? i)) ms) = findById j ms.
Proof.
  intros Hne. unfold findById. induction ms as [|x ms IH]; cbn; [done|].
  destruct (m_id x =? i) eqn:E; cbn.
  - apply Nat.eqb_eq in E. replace (m_id x =? j) with false; [done|].
    symmetry. apply Nat.eqb_neq. lia.
  - by rewrite IH.
Qed.

Lemma findById_filter_self i ms :
  findById i (List.filter (fun m => negb (m_id m =? i)) ms) = None.
Proof.
  unfold findById. induction ms as [|x ms IH]; cbn; [done|].
  destruct (m_id x =? i) eqn:E; cbn; [done|]. by rewrite E.
Qed.

Lemma findById_save i m m' ms :
  findById i ms = Some m -> m_id m' = m_id m ->
  findById i (save m' ms) = Some m'.
Proof.
  unfold findById. intros Hfind Hid.
  assert (Hi : m_id m = i).
  { apply find_some in Hfind as [_ H]. by apply Nat.eqb_eq in H. }
  induction ms as [|x ms IH]; cbn in *; [done|].
  destruct (m_id x =? i) eqn:E.
  - injection Hfind as ->. rewrite Hid, Nat.eqb_refl. cbn.
    rewrite Hid, Hi. by rewrite Nat.eqb_refl.
  - rewrite Hid, Hi, E. cbn. rewrite E. by apply IH.
Qed.

Lemma save_unread_count now i m ms (v : string) :
  findById i ms = Some m -> isRead m = false ->
  length (List.filter
            (fun x => bool_decide (receiver x = v) && bool_decide (isRead x = false)) ms)
  = length (List.filter
              (fun x => bool_decide (receiver x = v) && bool_decide (isRead x = false))
              (save (mark_read now m) ms))
    + (if bool_decide (receiver m = v) then 1 else 0).
Proof.
  unfold findById. intros Hfind Hunread.
  induction ms as [|x ms IH]; cbn in *; [done|].
  destruct (m_id x =? i) eqn:E.
  - injection Hfind as ->. rewrite Nat.eqb_refl. cbn. rewrite Hunread.
    rewrite (bool_decide_eq_true_2 (false = false)) by done.
    rewrite (bool_decide_eq_false_2 (true = false)) by done.
    destruct (bool_decide (receiver m = v)); cbn; lia.
  - assert (E' : (m_id x =? m_id m) = false).
    { apply find_some in Hfind as [_ H]. apply Nat.eqb_eq in H.
      rewrite H. exact E. }
    rewrite E'. cbn.
    destruct (bool_decide (receiver x = v) && bool_decide (isRead x = false));
      cbn; rewrite (IH Hfind); lia.
Qed.

End ReadAndDelete.

(** X6: when message ids are distinct, a successful deletion removes
    exactly the message with that id: it can no longer be found, every other
    id resolves as before, and one message fewer is stored. *)
Theorem delete_removes_exactly_one (userId : string) (messageId : nat) (st : Store) :
  Wellformed.message_ids_ok st ->
  succeeded (fst (MessagesRoutes.delete_message userId messageId st)) = true ->
  let st' := snd (MessagesRoutes.delete_message userId messageId st) in
  MessagesRoutes.findById messageId (messages st') = None
  /\ (forall j, j ≠ messageId ->
        MessagesRoutes.findById j (messages st')
        = MessagesRoutes.findById j (messages st))
  /\ S (length (messages st')) = length (messages st)
  /\ users st' = users st.
Proof.
  intros [Hnd _] Hok. unfold MessagesRoutes.delete_message in *.
  destruct (MessagesRoutes.findById messageId (messages st)) as [m|] eqn:Hfind; [|done].
  case_bool_decide; cbn in *; [|done].
  split; [|split; [|split; [|done]]].
  - rewrite findByIdAndDelete_filter by done. apply findById_filter_self.
  - intros j Hj. rewrite findByIdAndDelete_filter by done.
    by apply findById_filter_other.
  - destruct (findByIdAndDelete_split _ _ _ Hfind) as (pre & post & -> & _ & ->).
    rewrite !length_app. cbn. lia.
Qed.

(** Alice deletes the note she wrote to herself. *)
Lemma delete_removes_exactly_one_witness :
  MessagesRoutes.findById 0 (messages Scenes.one_note)
  = Some (mkMessage 0 Sample.alice Sample.alice "note" "text" "" false None 4)
  /\ MessagesRoutes.findById 0
       (messages (snd (MessagesRoutes.delete_message Sample.alice 0 Scenes.one_note)))
     = None.
Proof.
  split; [vm_compute; reflexivity|].
  apply (delete_removes_exactly_one Sample.alice 0 Scenes.one_note).
  - split; [vm_compute; repeat constructor; by intros H%not_elem_of_nil
           |vm_compute; repeat constructor].
  - vm_compute. reflexivity.
Defined.

(** X7: marking as read is idempotent: a second request for the same
    message by the same user answers like the first and leaves the store as
    the first left it, so the time of the first reading is kept. *)
Theorem put_read_idempotent (now now' : nat) (userId : string) (messageId : nat)
    (st : Store) :
  let first := MessagesRoutes.put_read now userId messageId st in
  let second := MessagesRoutes.put_read now' userId messageId (snd first) in
  snd second = snd first /\ fst second = fst first.
Proof.
  cbn zeta. unfold MessagesRoutes.put_read.
  pose proof (findById_save messageId) as Hsave.
  unfold MessagesRoutes.findById in *.
  destruct (find _ (messages st)) as [m|] eqn:Hfind; cbn; [|by rewrite Hfind].
  case_bool_decide as Hrecv; cbn; [|rewrite Hfind; cbn; by rewrite bool_decide_eq_false_2].
  destruct (isRead m) eqn:Hr; cbn.
  - rewrite Hfind. cbn. rewrite bool_decide_eq_true_2 by done. cbn. by rewrite Hr.
  - rewrite (Hsave m (MessagesRoutes.mark_read now m)) by done.
    cbn. by rewrite bool_decide_eq_true_2.
Qed.

(** X8: marking an unread message as read lowers the reader's unread
    count by exactly one and changes nobody else's; a user who is not the
    receiver is refused with 403 and nothing changes. *)
Theorem put_read_lowers_unread_count (now : nat) (userId : string) (messageId : nat)
    (st : Store) (m : Message) :
  MessagesRoutes.findById messageId (messages st) = Some m ->
  isRead m = false ->
  (receiver m = userId ->
   let st' := snd (MessagesRoutes.put_read now userId messageId st) in
   S (MessagesRoutes.get_unread_count userId st')
   = MessagesRoutes.get_unread_count userId st
   /\ forall v, v ≠ userId ->
        MessagesRoutes.get_unread_count v st' = MessagesRoutes.get_unread_count v st)
  /\ (receiver m ≠ userId ->
      MessagesRoutes.put_read now userId messageId st
      = (Failure 403 "Not authorized to mark this message as read", st)).
Proof.
  intros Hfind Hunread. unfold MessagesRoutes.put_read. rewrite Hfind. split.
  - intros Hrecv. rewrite bool_decide_eq_true_2 by done. cbn. rewrite Hunread. cbn.
    unfold MessagesRoutes.get_unread_count. cbn. split.
    + rewrite (save_unread_count now messageId m (messages st) userId Hfind Hunread).
      rewrite bool_decide_eq_true_2 by done. lia.
    + intros v Hv.
      rewrite (save_unread_count now messageId m (messages st) v Hfind Hunread).
      rewrite bool_decide_eq_false_2 by congruence. lia.
  - intros Hrecv. by rewrite bool_decide_eq_false_2.
Qed.

(** Alice marks her own note as read. *)
Lemma put_read_lowers_unread_count_witness :
  MessagesRoutes.get_unread_count Sample.alice Scenes.one_note = 1
  /\ MessagesRoutes.get_unread_count Sample.alice
       (snd (MessagesRoutes.put_read 9 Sample.alice 0 Scenes.one_note)) = 0.
Proof.
  split; [vm_compute; reflexivity|].
  destruct (put_read_lowers_unread_count 9 Sample.alice 0 Scenes.one_note
              (mkMessage 0 Sample.alice Sample.alice "note" "text" "" false None 4))
    as [H _]; [vm_compute; reflexivity|reflexivity|].
  destruct (H eq_refl) as [Hc _]. cbn zeta in Hc.
  assert (E : MessagesRoutes.get_unread_count Sample.alice Scenes.one_note = 1)
    by (vm_compute; reflexivity).
  rewrite E in Hc. exact (Nat.succ_inj _ 0 Hc).
Defined.

(** X9: a message accepted by the REST route raises the receiver's unread
    count by exactly one and leaves every other user's count as it was. *)
Theorem post_message_raises_unread_count (lib : Query.Platform) (now : nat)
    (userId : string) (body : MessagesRoutes.SendBody) (st : Store) :
  succeeded (fst (MessagesRoutes.post_message lib now userId body st)) = true ->
  let st' := snd (MessagesRoutes.post_message lib now userId body st) in
  MessagesRoutes.get_unread_count (MessagesRoutes.b_receiver body) st'
  = S (MessagesRoutes.get_unread_count (MessagesRoutes.b_receiver body) st)
  /\ forall v, v ≠ MessagesRoutes.b_receiver body ->
       MessagesRoutes.get_unread_count v st' = MessagesRoutes.get_unread_count v st.
Proof.
  intros Hok. destruct (post_message_success lib now userId body st Hok) as [Hms _].
  cbn zeta. unfold MessagesRoutes.get_unread_count. rewrite Hms.
  split; [|intros v Hv]; rewrite List.filter_app, length_app; cbn.
  - rewrite !bool_decide_eq_true_2 by done. cbn. lia.
  - rewrite bool_decide_eq_false_2 by congruence. cbn. lia.
Qed.

Lemma post_message_raises_unread_count_witness :
  MessagesRoutes.get_unread_count Sample.alice Scenes.one_note = 1.
Proof.
  destruct (post_message_raises_unread_count Query.in_insertion_order 4 Sample.alice
              (MessagesRoutes.mkSendBody Sample.alice "note" None None)
              Sample.three_users) as [H _]; [vm_compute; reflexivity|].
  exact H.
Defined.

(** ** Pages *)

Section PageOrder.
Context {A : Type} (key : A -> nat).
Import Query.

Lemma descending_drop (n : nat) (l : list A) :
  descending key l -> descending key (drop n l).
Proof.
  unfold descending. intros H. rewrite <- (take_drop n l) in H.
  by apply StronglySorted_app_1_r in H.
Qed.

Lemma descending_take (n : nat) (l : list A) :
  descending key l -> descending key (take n l).
Proof.
  unfold descending. intros H. rewrite <- (take_drop n l) in H.
  by apply StronglySorted_app_1_l in H.
Qed.

Lemma descending_window (skip limit : nat) (l : list A) :
  descending key l -> descending key (window skip limit l).
Proof.
  intros H. unfold window. destruct (limit =? 0).
  - by apply descending_drop.
  - by apply descending_take, descending_drop.
Qed.

Lemma descending_rev (l : list A) :
  descending key l -> StronglySorted (fun x y => key x <= key y) (rev l).
Proof.
  unfold descending. induction 1 as [|x l Hl IH Hx]; cbn; [constructor|].
  apply StronglySorted_app_2; [|done|repeat constructor].
  intros a b Ha ->%list_elem_of_singleton.
  rewrite Forall_forall in Hx. apply Hx.
  apply list_elem_of_In. apply in_rev. by apply list_elem_of_In.
Qed.

Lemma length_window (skip limit : nat) (l : list A) :
  0 < limit -> length (window skip limit l) <= limit.
Proof.
  intros H. unfold window.
  replace (limit =? 0) with false by (symmetry; apply Nat.eqb_neq; lia).
  rewrite length_take. lia.
Qed.

(** The pages of a listing are consecutive slices of it. *)
Lemma pages_concat (limit n : nat) (l : list A) :
  0 < limit ->
  flat_map (fun k => paginate (S k) limit l) (seq 0 n) = take (n * limit) l.
Proof.
  intros H. induction n as [|n IH]; [done|].
  rewrite seq_S, flat_map_app, IH. cbn [flat_map]. rewrite app_nil_r.
  unfold paginate, window.
  replace (limit =? 0) with false by (symmetry; apply Nat.eqb_neq; lia).
  replace ((S (0 + n) - 1) * limit) with (n * limit) by lia.
  rewrite take_take_drop. f_equal. lia.
Qed.

End PageOrder.

Section MessagePage.
Import MessagesRoutes.

Lemma between_after_update now other current a b ms :
  length (List.filter (between a b) (updateMany_read now other current ms))
  = length (List.filter (between a b) ms).
Proof.
  unfold updateMany_read. induction ms as [|m ms IH]; cbn; [done|].
  assert (E : between a b (if unread_from other current m then mark_read now m else m)
              = between a b m).
  { by destruct (unread_from other current m). }
  rewrite E. destruct (between a b m); cbn; by rewrite IH.
Qed.

End MessagePage.

(** X10: the page of a conversation is sorted from the oldest to the
    newest message, holds only messages exchanged by the two users, in the
    state they were stored in before the read marking of the same request,
    and at most [limit] of them; the reported total is the number of
    messages the two have exchanged. *)
Theorem conversation_page_is_ordered (lib : Query.Platform) (now page limit : nat)
    (currentUserId otherUserId : string) (st : Store) :
  let reply := fst (MessagesRoutes.get_messages lib now page limit currentUserId
                      otherUserId st) in
  StronglySorted (fun a b => createdAt a <= createdAt b)
                 (MessagesRoutes.messages_of reply)
  /\ Forall (fun m => m ∈ messages st
                      /\ MessagesRoutes.between currentUserId otherUserId m = true)
            (MessagesRoutes.messages_of reply)
  /\ (0 < limit -> length (MessagesRoutes.messages_of reply) <= limit)
  /\ (forall pg, Paging.pagination_of reply = Some pg ->
        Query.pg_total pg
        = length (List.filter (MessagesRoutes.between currentUserId otherUserId)
                              (messages st))).
Proof.
  cbn zeta. unfold MessagesRoutes.get_messages.
  destruct (users st !! otherUserId);
    [|cbn; repeat split; try constructor; [lia|done]].
  destruct (Query.negative_skip page limit);
    [cbn; repeat split; try constructor; [lia|done]|].
  cbn [fst MessagesRoutes.messages_of Paging.pagination_of].
  split; [|split; [|split]].
  - apply descending_rev. unfold Query.paginate.
    apply descending_window, (Query.sort_by_descending lib).
  - apply Forall_forall. intros m Hm.
    apply list_elem_of_In, in_rev, list_elem_of_In in Hm.
    apply elem_of_paginate, elem_of_sort_by, elem_of_List_filter in Hm. done.
  - intros Hl. rewrite length_rev. by apply length_window.
  - intros pg [= <-]. cbn. apply between_after_update.
Qed.

(** ** The listing of conversations as a whole *)

Section ConversationTotals.
Import MessagesRoutes.

Lemma sum_list_perm (l l' : list nat) : l ≡ₚ l' -> sum_list l = sum_list l'.
Proof.
  induction 1 as [|x l l' _ IH|x y l|l1 l2 l3 _ IH1 _ IH2]; cbn; lia.
Qed.

Lemma group_step_sum u m gs :
  sum_list (map g_unreadCount (group_step u m gs))
  = sum_list (map g_unreadCount gs) + (if unread_for u m then 1 else 0).
Proof.
  induction gs as [|g gs IH]; cbn; [lia|].
  destruct (bool_decide (g_id g = otherUser u m)); cbn; [lia|].
  rewrite IH. lia.
Qed.

Lemma group_by_otherUser_sum u l :
  sum_list (map g_unreadCount (group_by_otherUser u l))
  = length (List.filter (unread_for u) l).
Proof.
  unfold group_by_otherUser. induction l as [|m l IH] using rev_ind; [done|].
  rewrite foldl_app. cbn [foldl]. rewrite group_step_sum, IH.
  rewrite List.filter_app, length_app. cbn.
  by destruct (unread_for u m).
Qed.

(** The groups account for every unread message addressed to the user. *)
Lemma conversation_groups_sum lib u st :
  sum_list (map g_unreadCount (conversation_groups lib u st)) = get_unread_count u st.
Proof.
  unfold conversation_groups, get_unread_count. rewrite group_by_otherUser_sum.
  rewrite (Permutation_length
             (List_filter_perm _ _ _ (Query.sort_by_perm lib _ createdAt _))).
  rewrite List_filter_filter. f_equal. apply List.filter_ext.
  intros m. unfold involves, unread_for.
  destruct (bool_decide (receiver m = u)); [|by rewrite andb_false_r].
  by rewrite orb_true_r.
Qed.

Lemma lookup_unwind_sum st gs :
  sum_list (map c_unreadCount (omap (lookup_unwind st) gs))
  <= sum_list (map g_unreadCount gs)
  /\ (Forall (fun g => is_Some (users st !! g_id g)) gs ->
      sum_list (map c_unreadCount (omap (lookup_unwind st) gs))
      = sum_list (map g_unreadCount gs)).
Proof.
  induction gs as [|g gs [IH1 IH2]]; [done|].
  destruct (lookup_unwind st g) as [row|] eqn:Hlu.
  - rewrite (omap_cons_Some _ _ _ _ Hlu), !map_cons.
    apply lookup_unwind_Some in Hlu as (_ & _ & _ & ->). cbn. split; [lia|].
    intros [_ H]%Forall_cons. rewrite IH2 by done. done.
  - rewrite (omap_cons_None _ _ _ Hlu), map_cons. cbn. split; [lia|].
    intros [[x Hx] _]%Forall_cons. apply lookup_unwind_None in Hlu. congruence.
Qed.

End ConversationTotals.

(** X11: the conversations are listed from the most recent last message
    to the oldest, and their unread counts never add up to more than the
    user's unread count; they add up to exactly that count when every
    counterparty has a user record. *)
Theorem conversations_ordered_and_counted (lib : Query.Platform) (userId : string)
    (st : Store) :
  let rows := MessagesRoutes.get_conversations lib userId st in
  StronglySorted
    (fun a b => createdAt (MessagesRoutes.c_lastMessage b)
                <= createdAt (MessagesRoutes.c_lastMessage a)) rows
  /\ sum_list (map MessagesRoutes.c_unreadCount rows)
     <= MessagesRoutes.get_unread_count userId st
  /\ ((forall m, m ∈ messages st -> MessagesRoutes.involves userId m = true ->
         is_Some (users st !! MessagesRoutes.otherUser userId m)) ->
      sum_list (map MessagesRoutes.c_unreadCount rows)
      = MessagesRoutes.get_unread_count userId st).
Proof.
  intros rows.
  assert (Hperm : map MessagesRoutes.c_unreadCount rows
                  ≡ₚ map MessagesRoutes.c_unreadCount
                       (omap (MessagesRoutes.lookup_unwind st)
                             (MessagesRoutes.conversation_groups lib userId st))).
  { apply Permutation_map, (Query.sort_by_perm lib). }
  destruct (lookup_unwind_sum st (MessagesRoutes.conversation_groups lib userId st))
    as [Hle Heq].
  rewrite (sum_list_perm _ _ Hperm), <- (conversation_groups_sum lib).
  split; [apply (Query.sort_by_descending lib)|].
  split; [exact Hle|]. intros Hall. apply Heq.
  apply Forall_forall. intros g Hg.
  destruct (conversation_group_ids lib userId st) as [_ Hids].
  assert (Hin : MessagesRoutes.g_id g
                ∈ map MessagesRoutes.g_id
                    (MessagesRoutes.conversation_groups lib userId st)).
  { apply list_elem_of_fmap. by exists g. }
  apply Hids in Hin as (m & Hm & Hc).
  unfold MessagesRoutes.in_conversation in Hc.
  apply andb_true_iff in Hc as [Hi Ho]. apply bool_decide_eq_true in Ho.
  rewrite <- Ho. by apply Hall.
Qed.

(** X12: when the posts visible to the user have pairwise distinct
    creation times, the pages of the feed are consecutive slices of one
    listing, however the database orders each of the page queries: the first
    [n] pages together are the [n * limit] most recent visible posts, newest
    first, so that no post is skipped or shown twice.  In any case a page
    has at most [limit] posts and reports the number of visible posts as
    total. *)
Theorem feed_pages_are_slices (libs : nat -> Query.Platform) (n limit : nat)
    (userId : string) (st : Store) (currentUser : User) :
  users st !! userId = Some currentUser -> 0 < limit ->
  let visible :=
    List.filter (PostsRoutes.feed_filter userId (friends currentUser)) (posts st) in
  (NoDup (map p_createdAt visible) ->
   Paging.feed_pages libs n limit userId st
   = take (n * limit) (Query.sort_desc p_createdAt visible)
   /\ Query.descending p_createdAt (Paging.feed_pages libs n limit userId st)
   /\ NoDup (Paging.feed_pages libs n limit userId st))
  /\ (forall lib page ps pg,
        PostsRoutes.get_feed lib page limit userId st = Reply 200 (ps, pg) ->
        length ps <= limit /\ Query.pg_total pg = length visible).
Proof.
  intros Hu Hl visible. split.
  - intros Hdistinct.
    assert (E : Paging.feed_pages libs n limit userId st
                = take (n * limit) (Query.sort_desc p_createdAt visible)).
    { unfold Paging.feed_pages. rewrite <- (pages_concat limit n _ Hl).
      apply flat_map_ext. intros k.
      unfold PostsRoutes.get_feed. rewrite Hu. cbn.
      fold visible. by rewrite sort_by_distinct. }
    split; [exact E|]. rewrite E. split.
    + apply descending_take, sort_desc_descending.
    + apply (sublist_NoDup _ (Query.sort_desc p_createdAt visible));
        [|apply sublist_take].
      rewrite sort_desc_perm. by apply (NoDup_fmap_1 p_createdAt).
  - intros lib page ps pg. unfold PostsRoutes.get_feed. rewrite Hu.
    destruct (Query.negative_skip page limit); [done|].
    intros [= <- <-]. split; [by apply length_window|done].
Qed.

(** Alice pages through her feed, two posts per page; her three posts
    were created at three different times. *)
Lemma feed_pages_are_slices_witness :
  map p_id (Paging.feed_pages (fun _ => Query.ties_reversed) 2 2 Sample.alice
              Sample.store_with_posts) = [3; 2; 1]
  /\ Query.descending p_createdAt
       (Paging.feed_pages (fun _ => Query.ties_reversed) 2 2 Sample.alice
          Sample.store_with_posts).
Proof.
  split; [vm_compute; reflexivity|].
  apply (feed_pages_are_slices (fun _ => Query.ties_reversed) 2 2 Sample.alice
           Sample.store_with_posts (Sample.new_user "Alice" "alice@example.org"));
    [vm_compute; reflexivity|lia|].
  apply (bool_decide_unpack _). vm_compute. exact I.
Defined.

(** ** Friend operations, composed *)

Section FriendRoundTrips.
Import FriendsRoutes.

Lemma pull_push_to (b : string) (now : nat) (l : list SentRequest) :
  b ∉ map sr_to l -> pull (request_to b) (push (mkSentRequest b now) l) = l.
Proof.
  intros Hn. unfold pull, push. rewrite List.filter_app. cbn.
  unfold request_to at 2. cbn. rewrite bool_decide_eq_true_2 by done. cbn.
  rewrite app_nil_r. apply List_filter_all. intros r Hr.
  apply negb_true_iff, bool_decide_eq_false. intros E. apply Hn.
  rewrite <- E. apply list_elem_of_fmap. by exists r.
Qed.

Lemma pull_push_from (a : string) (now : nat) (l : list FriendRequest) :
  a ∉ map fr_from l -> pull (request_from a) (push (mkFriendRequest a now) l) = l.
Proof.
  intros Hn. unfold pull, push. rewrite List.filter_app. cbn.
  unfold request_from at 2. cbn. rewrite bool_decide_eq_true_2 by done. cbn.
  rewrite app_nil_r. apply List_filter_all. intros r Hr.
  apply negb_true_iff, bool_decide_eq_false. intros E. apply Hn.
  rewrite <- E. apply list_elem_of_fmap. by exists r.
Qed.

Lemma pull_addToSet (x : string) (l : list string) :
  x ∉ l -> pull (fun z => bool_decide (z = x)) (addToSet x l) = l.
Proof.
  intros Hn. unfold addToSet. rewrite bool_decide_eq_false_2 by done.
  unfold pull. rewrite List.filter_app. cbn.
  rewrite bool_decide_eq_true_2 by done. cbn. rewrite app_nil_r.
  apply List_filter_all. intros y Hy.
  apply negb_true_iff, bool_decide_eq_false. by intros ->.
Qed.

Lemma store_eq (st st' : Store) :
  users st = users st' -> messages st = messages st' ->
  posts st = posts st' -> nextId st = nextId st' -> st = st'.
Proof. destruct st, st'. cbn. by intros -> -> -> ->. Qed.

End FriendRoundTrips.

(** X13: a friend request that is declined leaves no trace: in a store
    with consistent relationship records, declining a request right after it
    was sent succeeds and gives back the store as it was before the
    request. *)
Theorem request_then_decline_restores (lib : Query.Platform) (now : nat)
    (a b : string) (st : Store) :
  Query.castObjectId lib b = Some b ->
  FriendsRoutes.consistent st ->
  succeeded (fst (FriendsRoutes.post_request lib now a b st)) = true ->
  FriendsRoutes.post_decline b a (snd (FriendsRoutes.post_request lib now a b st))
  = (Reply 200 "Friend request declined", st).
Proof.
  intros Hcast Hc Hok.
  destruct (post_request_effect lib now a b st)
    as [[Hfail _]|(target & _ & _ & Hne & _ & Hns & _ & _ & _ & _)];
    [rewrite Hok in Hfail; discriminate|].
  assert (Hnr : a ∉ FriendsRoutes.get_requests_received b st).
  { intros H. apply Hns. by apply (FriendsRoutes.requests_paired _ Hc). }
  unfold FriendsRoutes.post_request in *.
  rewrite bool_decide_eq_false_2 in * by done. rewrite Hcast in *.
  unfold FriendsRoutes.get_requests_sent, FriendsRoutes.get_requests_received in *.
  destruct (users st !! b) as [ub|] eqn:Hb; [|done].
  destruct (users st !! a) as [ua|] eqn:Ha; [|done].
  destruct (includes (friends ua) b); [done|].
  destruct (existsb _ (sentFriendRequests ua)); [done|].
  destruct (existsb _ (friendRequests ua)); [done|].
  cbn [snd]. unfold FriendsRoutes.post_decline.
  rewrite !users_findByIdAndUpdate.
  rewrite (decide_False (P := b = a)) by done.
  rewrite (decide_True (P := a = a)) by done.
  rewrite (decide_True (P := b = b)) by done.
  rewrite (decide_False (P := a = b)) by done.
  rewrite Ha, Hb. cbn.
  unfold push at 1. rewrite existsb_app. cbn.
  unfold FriendsRoutes.request_from at 2. cbn.
  rewrite bool_decide_eq_true_2 by done. rewrite orb_true_r. cbn.
  f_equal. apply store_eq; cbn; try done.
  apply map_eq. intros k. rewrite !lookup_alter.
  repeat case_decide; simplify_eq; rewrite ?Ha, ?Hb; cbn; try done.
  - f_equal. destruct ua. unfold with_sentFriendRequests.
    cbn [firstName lastName email password friends friendRequests
         sentFriendRequests] in *.
    by rewrite pull_push_to.
  - f_equal. destruct ub. unfold with_friendRequests.
    cbn [firstName lastName email password friends friendRequests
         sentFriendRequests] in *.
    by rewrite pull_push_from.
Qed.

Lemma request_then_decline_restores_witness :
  FriendsRoutes.post_decline Sample.bob Sample.alice Sample.requested
  = (Reply 200 "Friend request declined", Sample.three_users).
Proof.
  apply (request_then_decline_restores Query.in_insertion_order 1 Sample.alice
           Sample.bob Sample.three_users).
  - vm_compute. reflexivity.
  - apply fresh_consistent, fresh_three_users.
  - vm_compute. reflexivity.
Defined.

(** X14: accepting a request and then ending the friendship comes to the
    same as declining the request: in a store with consistent relationship
    records, whichever of the two removes the other after the accept, the
    removal succeeds and the store is the one the decline would have
    produced. *)
Theorem accept_then_remove_is_decline (a b : string) (st : Store) :
  FriendsRoutes.consistent st ->
  succeeded (fst (FriendsRoutes.post_accept b a st)) = true ->
  let accepted := snd (FriendsRoutes.post_accept b a st) in
  FriendsRoutes.delete_friend b a accepted
  = (Reply 200 "Friend removed successfully", snd (FriendsRoutes.post_decline b a st))
  /\ FriendsRoutes.delete_friend a b accepted
     = (Reply 200 "Friend removed successfully",
        snd (FriendsRoutes.post_decline b a st)).
Proof.
  intros Hc Hok.
  destruct (post_accept_effect b a st) as [[Hfail _]|(_ & Hreq & _)];
    [rewrite Hok in Hfail; discriminate|].
  assert (Hsent : b ∈ FriendsRoutes.get_requests_sent a st)
    by by apply (FriendsRoutes.requests_paired _ Hc).
  assert (Hne : a ≠ b).
  { intros ->. by apply (FriendsRoutes.requests_one_way _ Hc b b). }
  destruct (consistent_exclusive st a b Hc) as [Hnab Hnba]; [by left|].
  unfold FriendsRoutes.post_accept, FriendsRoutes.post_decline in *.
  unfold FriendsRoutes.get_friends in *.
  destruct (users st !! a) as [ua|] eqn:Ha; [|done].
  destruct (users st !! b) as [ub|] eqn:Hb; [|done].
  destruct (existsb _ (friendRequests ub)); [|done].
  cbn [negb snd]. cbn zeta.
  assert (Hmap : forall m1 m2 : gmap string User,
            m1 = alter (with_friends (pull (fun x => bool_decide (x = b))))
                   a (alter (with_friends (pull (fun x => bool_decide (x = a)))) b
                        (alter (fun u => with_friends (addToSet b)
                                  (with_sentFriendRequests
                                     (pull (FriendsRoutes.request_to b)) u)) a
                           (alter (fun u => with_friends (addToSet a)
                                     (with_friendRequests
                                        (pull (FriendsRoutes.request_from a)) u)) b
                              (users st)))) ->
            m2 = alter (with_sentFriendRequests (pull (FriendsRoutes.request_to b))) a
                   (alter (with_friendRequests (pull (FriendsRoutes.request_from a))) b
                      (users st)) ->
            m1 = m2).
  { intros m1 m2 -> ->. apply map_eq. intros k. rewrite !lookup_alter.
    repeat case_decide; simplify_eq; rewrite ?Ha, ?Hb; cbn; try done.
    - f_equal. destruct ua. unfold with_friends, with_sentFriendRequests.
      cbn [firstName lastName email password friends friendRequests
           sentFriendRequests] in *.
      by rewrite pull_addToSet.
    - f_equal. destruct ub. unfold with_friends, with_friendRequests.
      cbn [firstName lastName email password friends friendRequests
           sentFriendRequests] in *.
      by rewrite pull_addToSet. }
  assert (Hin1 : includes (addToSet a (friends ub)) a = true).
  { apply bool_decide_eq_true, elem_of_addToSet. by right. }
  assert (Hin2 : includes (addToSet b (friends ua)) b = true).
  { apply bool_decide_eq_true, elem_of_addToSet. by right. }
  split.
  - unfold FriendsRoutes.delete_friend. rewrite !users_findByIdAndUpdate.
    rewrite (decide_True (P := a = a)) by done.
    rewrite (decide_False (P := b = a)) by done.
    rewrite (decide_True (P := b = b)) by done.
    rewrite (decide_False (P := a = b)) by done.
    rewrite Ha, Hb.
    cbn [fmap option_fmap option_map friends with_friends with_friendRequests
         with_sentFriendRequests].
    rewrite Hin1. cbn [negb]. f_equal.
    apply store_eq; cbn [users messages posts nextId findByIdAndUpdate]; try done.
    apply Hmap; [|done]. done.
  - unfold FriendsRoutes.delete_friend. rewrite !users_findByIdAndUpdate.
    rewrite (decide_True (P := a = a)) by done.
    rewrite (decide_False (P := b = a)) by done.
    rewrite (decide_True (P := b = b)) by done.
    rewrite (decide_False (P := a = b)) by done.
    rewrite Ha, Hb.
    cbn [fmap option_fmap option_map friends with_friends with_friendRequests
         with_sentFriendRequests].
    rewrite Hin2. cbn [negb]. f_equal.
    apply store_eq; cbn [users messages posts nextId findByIdAndUpdate]; try done.
    apply Hmap; [|done].
    apply map_eq. intros k. rewrite !lookup_alter.
    repeat case_decide; simplify_eq; done.
Qed.

Lemma accept_then_remove_is_decline_witness :
  FriendsRoutes.delete_friend Sample.alice Sample.bob Sample.befriended
  = (Reply 200 "Friend removed successfully", Sample.three_users).
Proof.
  assert (Hok : succeeded (fst (FriendsRoutes.post_accept Sample.bob Sample.alice
                                  Sample.requested)) = true)
    by (vm_compute; reflexivity).
  destruct (accept_then_remove_is_decline Sample.alice Sample.bob Sample.requested
              consistent_requested Hok) as [_ H].
  etrans; [exact H|]. f_equal.
Defined.

(** X15: what a friend operation never does: when it fails the store is
    unchanged; it never touches the document of a user other than its two
    participants; it never adds or removes a user and never changes a name,
    an e-mail address or a password; and it leaves messages and posts
    alone. *)
Theorem friend_op_frame (op : FriendsRoutes.FriendOp) (st : Store) :
  let st' := snd (FriendsRoutes.run op st) in
  (succeeded (fst (FriendsRoutes.run op st)) = false -> st' = st)
  /\ (forall k, k ∉ Parties.participants op -> users st' !! k = users st !! k)
  /\ (forall k, Parties.identity_of <$> users st' !! k
                = Parties.identity_of <$> users st !! k)
  /\ messages st' = messages st
  /\ posts st' = posts st.
Proof.
  cbn zeta. split; [|split; [|split; [|split]]].
  - intros Hfail. destruct op; cbn in *.
    + destruct (post_request_effect lib now currentUserId targetUserId st)
        as [[_ H]|(target & _ & Hok & _)]; [done|congruence].
    + destruct (post_accept_effect currentUserId senderUserId st)
        as [[_ H]|(Hok & _)]; [done|congruence].
    + destruct (post_decline_effect currentUserId senderUserId st)
        as [[_ H]|(Hok & _)]; [done|congruence].
    + destruct (delete_friend_effect currentUserId friendUserId st)
        as [[_ H]|(Hok & _)]; [done|congruence].
  - intros k Hk. destruct op; cbn in *;
      apply not_elem_of_cons in Hk as [Hk1 Hk2];
      unfold FriendsRoutes.post_request, FriendsRoutes.post_accept,
        FriendsRoutes.post_decline, FriendsRoutes.delete_friend;
      repeat (case_bool_decide || case_match); try done;
      apply not_elem_of_cons in Hk2 as [Hk2 _];
      cbn [snd]; rewrite !users_findByIdAndUpdate;
      rewrite !decide_False by done; done.
  - intros k. destruct op; cbn;
      unfold FriendsRoutes.post_request, FriendsRoutes.post_accept,
        FriendsRoutes.post_decline, FriendsRoutes.delete_friend;
      repeat (case_bool_decide || case_match); try done;
      cbn [snd]; rewrite !users_findByIdAndUpdate;
      repeat case_decide; destruct (users st !! k); done.
  - apply friend_run_messages.
  - destruct op; cbn;
      unfold FriendsRoutes.post_request, FriendsRoutes.post_accept,
        FriendsRoutes.post_decline, FriendsRoutes.delete_friend;
      repeat (case_bool_decide || case_match); done.
Qed.

(** ** Likes, comments and deletion of posts *)

Section PostDocs.
Import PostsMutations.

Lemma findIndex_None {A} (f : A -> bool) (l : list A) :
  findIndex f l = None <-> forall x, x ∈ l -> f x = false.
Proof.
  induction l as [|x l IH]; cbn.
  - split; [|done]. intros _ y Hy. by apply not_elem_of_nil in Hy.
  - destruct (f x) eqn:E.
    + split; [done|]. intros H. rewrite (H x) in E by by left. done.
    + destruct (findIndex f l) as [i|]; cbn.
      * split; [done|]. intros H.
        assert (Some i = None); [|done]. apply IH. intros y Hy. apply H. by right.
      * split; [|done]. intros _ y [->|Hy]%elem_of_cons; [done|].
        destruct IH as [IH _]. by apply IH.
Qed.


Lemma findIndex_app_new {A} (f : A -> bool) (l : list A) (x : A) :
  (forall y, y ∈ l -> f y = false) -> f x = true ->
  findIndex f (l ++ [x]) = Some (length l).
Proof.
  intros Hl Hx. induction l as [|y l IH]; cbn; [by rewrite Hx|].
  rewrite (Hl y) by by left. rewrite IH; [done|].
  intros z Hz. apply Hl. by right.
Qed.

Lemma delete_app_last {A} (l : list A) (x : A) :
  delete (length l) (l ++ [x])%list = l.
Proof. induction l as [|y l IH]; cbn; [done|]. f_equal. exact IH. Qed.


(** A like and its withdrawal cancel out exactly. *)
Lemma toggle_like_twice_new now now' userId ls :
  userId ∉ map l_user ls ->
  toggle_like now' userId (toggle_like now userId ls) = ls.
Proof.
  intros Hnot.
  assert (Hall : forall y, y ∈ ls -> liked_by userId y = false).
  { intros y Hy. apply bool_decide_eq_false. intros E. apply Hnot.
    rewrite <- E. apply list_elem_of_fmap. by exists y. }
  unfold toggle_like at 2.
  destruct (findIndex_None (liked_by userId) ls) as [_ H]. rewrite (H Hall).
  unfold toggle_like, push. rewrite findIndex_app_new; [|done|].
  - apply delete_app_last.
  - unfold liked_by. cbn. by apply bool_decide_eq_true.
Qed.

Lemma findPost_savePost id d d' ds :
  findPost id ds = Some d -> p_id (core d') = p_id (core d) ->
  findPost id (savePost d' ds) = Some d'.
Proof.
  unfold findPost. intros Hfind Hid.
  assert (Hi : p_id (core d) = id).
  { apply find_some in Hfind as [_ H]. by apply Nat.eqb_eq in H. }
  induction ds as [|x ds IH]; cbn in *; [done|].
  destruct (p_id (core x) =? id) eqn:E.
  - injection Hfind as ->. rewrite Hid, Nat.eqb_refl. cbn.
    rewrite Hid, Hi. by rewrite Nat.eqb_refl.
  - rewrite Hid, Hi, E. cbn. rewrite E. by apply IH.
Qed.

Lemma savePost_savePost d d' ds :
  p_id (core d') = p_id (core d) -> savePost d' (savePost d ds) = savePost d' ds.
Proof.
  intros Hid. induction ds as [|x ds IH]; cbn; [done|].
  destruct (p_id (core x) =? p_id (core d)) eqn:E; cbn.
  - by rewrite Hid, Nat.eqb_refl, E.
  - rewrite Hid, E. by rewrite IH.
Qed.

Lemma savePost_found id d ds : findPost id ds = Some d -> savePost d ds = ds.
Proof.
  unfold findPost. intros Hfind.
  assert (Hi : p_id (core d) = id).
  { apply find_some in Hfind as [_ H]. by apply Nat.eqb_eq in H. }
  induction ds as [|x ds IH]; cbn in *; [done|]. rewrite Hi.
  destruct (p_id (core x) =? id) eqn:E.
  - by injection Hfind as ->.
  - f_equal. by apply IH.
Qed.

End PostDocs.



(** X17: liking a post and then withdrawing the like gives the posts
    collection back exactly as it was, when the user had not liked the post
    before. *)
Theorem like_then_unlike_restores (now now' : nat) (userId : string) (id : nat)
    (ps : PostsMutations.Posts) (post : PostsMutations.PostDoc) :
  PostsMutations.findPost id (PostsMutations.docs ps) = Some post ->
  userId ∉ map PostsMutations.l_user (PostsMutations.likes post) ->
  snd (PostsMutations.post_like now' userId id
         (snd (PostsMutations.post_like now userId id ps))) = ps.
Proof.
  intros Hfind Hnot. unfold PostsMutations.post_like at 2. rewrite Hfind.
  cbn [snd]. unfold PostsMutations.post_like. cbn [PostsMutations.docs].
  rewrite (findPost_savePost id post) by done.
  cbn [snd PostsMutations.nextPostId PostsMutations.docs].
  rewrite savePost_savePost by done.
  assert (E : PostsMutations.with_likes (PostsMutations.toggle_like now' userId)
                (PostsMutations.with_likes (PostsMutations.toggle_like now userId) post)
              = post).
  { destruct post. unfold PostsMutations.with_likes.
    cbn [PostsMutations.core PostsMutations.images PostsMutations.videos
         PostsMutations.taggedUsers PostsMutations.likes PostsMutations.comments] in *.
    by rewrite toggle_like_twice_new. }
  rewrite E, (savePost_found id) by done. by destruct ps.
Qed.

(** Carol likes Alice's post and takes the like back. *)
Lemma like_then_unlike_restores_witness :
  snd (PostsMutations.post_like 8 Sample.carol 0
         (snd (PostsMutations.post_like 7 Sample.carol 0 Scenes.one_post)))
  = Scenes.one_post.
Proof.
  eapply (like_then_unlike_restores 7 8 Sample.carol 0 Scenes.one_post).
  - reflexivity.
  - cbn. intros [E|H]%elem_of_cons; [discriminate|by apply not_elem_of_nil in H].
Defined.



(** X19: a post is deleted only for its author: the request succeeds
    exactly when the post exists and the requester wrote it; then that post
    and no other leaves the collection and the public id of each of its
    images and videos, in that order, is handed to the storage for deletion;
    otherwise nothing is deleted, neither post nor media. *)
Theorem delete_post_only_by_author (userId : string) (id : nat)
    (ps : PostsMutations.Posts) :
  let '(reply, ps', destroyed) := PostsMutations.delete_post userId id ps in
  (succeeded reply = true
   <-> exists post, PostsMutations.findPost id (PostsMutations.docs ps) = Some post
                    /\ author (PostsMutations.core post) = userId)
  /\ (succeeded reply = false -> ps' = ps /\ destroyed = [])
  /\ (succeeded reply = true ->
      exists pre post suf,
        PostsMutations.docs ps = (pre ++ post :: suf)%list
        /\ PostsMutations.findPost id (PostsMutations.docs ps) = Some post
        /\ PostsMutations.docs ps' = (pre ++ suf)%list
        /\ destroyed
           = (map PostsMutations.md_publicId (PostsMutations.images post)
              ++ map PostsMutations.md_publicId (PostsMutations.videos post))%list).
Proof.
  unfold PostsMutations.delete_post.
  destruct (PostsMutations.findPost id (PostsMutations.docs ps)) as [post|] eqn:Hfind.
  - case_bool_decide as Ha; cbn.
    + split; [split; [eauto|done]|]. split; [done|]. intros _.
      assert (Hsplit : exists pre suf,
                PostsMutations.docs ps = (pre ++ post :: suf)%list
                /\ PostsMutations.removePost id (PostsMutations.docs ps)
                   = (pre ++ suf)%list).
      { clear Ha. unfold PostsMutations.findPost in Hfind.
        induction (PostsMutations.docs ps) as [|x ds IH]; cbn in *; [done|].
        destruct (p_id (PostsMutations.core x) =? id).
        - injection Hfind as ->. by exists [], ds.
        - destruct (IH Hfind) as (pre & suf & -> & ->). by exists (x :: pre), suf. }
      destruct Hsplit as (pre & suf & E1 & E2).
      exists pre, post, suf. rewrite map_app. done.
    + split; [|done]. split; [done|]. intros (p & [= <-] & E). done.
  - cbn. split; [|done]. split; [done|]. by intros (p & E & _).
Qed.

(** ** Creating a post with media *)

Section CreatePost.
Import PostsMutations Uploads.
Variable upload : File -> Media + string.
Variable destroy_ok : string -> bool.

Lemma upload_files_spec (files : list File) (imgs vids : list Media) :
  match upload_files upload files imgs vids with
  | inl (imgs', vids') =>
    Forall (fun f => is_Some (outcome upload f)) files
    /\ imgs' = (imgs ++ omap (outcome upload)
                          (List.filter (fun f => negb (is_video f)) files))%list
    /\ vids' = (vids ++ omap (outcome upload) (List.filter is_video files))%list
  | inr (uploaded, message) =>
    (exists f, f ∈ files /\ upload f = inr message)
    /\ uploaded ≡ₚ (imgs ++ vids ++ uploaded_before_failure upload files)%list
  end.
Proof.
  revert imgs vids. induction files as [|f files IH]; intros imgs vids.
  - cbn. by rewrite !app_nil_r.
  - cbn [upload_files uploaded_before_failure List.filter].
    destruct (upload f) as [result|message] eqn:Hf.
    + assert (Hout : outcome upload f = Some result) by (unfold outcome; by rewrite Hf).
      destruct (is_video f) eqn:Hv; cbn [negb].
      * specialize (IH imgs (vids ++ [result])%list).
        destruct (upload_files upload files imgs (vids ++ [result])) as [[i v]|[up msg]].
        -- destruct IH as (H1 & -> & ->). split; [constructor; [by eexists|done]|].
           rewrite (omap_cons_Some _ _ _ _ Hout). by rewrite <- app_assoc.
        -- destruct IH as ((g & Hg & Hm) & Hp). split; [exists g; split; [by right|done]|].
           rewrite Hp. by rewrite <- !app_assoc.
      * specialize (IH (imgs ++ [result])%list vids).
        destruct (upload_files upload files (imgs ++ [result]) vids) as [[i v]|[up msg]].
        -- destruct IH as (H1 & -> & ->). split; [constructor; [by eexists|done]|].
           rewrite (omap_cons_Some _ _ _ _ Hout). by rewrite <- app_assoc.
        -- destruct IH as ((g & Hg & Hm) & Hp). split; [exists g; split; [by right|done]|].
           rewrite Hp. rewrite <- !app_assoc. cbn [app].
           apply Permutation_app_head. apply Permutation_middle.
    + split; [exists f; split; [by left|done]|]. by rewrite app_nil_r.
Qed.

End CreatePost.

(** X20: when the upload of one of the files is rejected, no post is
    created: the collection is unchanged, the reply is a failure (400 when
    every clean-up deletion succeeds, 500 otherwise), and the public ids
    handed to the storage for deletion are exactly those of the files
    uploaded before the rejection, so nothing uploaded by the request is
    left without an attempt to delete it. *)
Theorem failed_upload_is_cleaned_up (lib : Query.Platform)
    (upload : PostsMutations.File -> PostsMutations.Media + string)
    (destroy_ok : string -> bool) (now : nat) (userId : string)
    (body : PostsMutations.CreateBody) (files : list PostsMutations.File)
    (ps : PostsMutations.Posts) :
  PostsMutations.valid_content (PostsMutations.cb_content body) files = true ->
  Exists (fun f => Uploads.outcome upload f = None) files ->
  let '(reply, ps', destroyed) :=
    PostsMutations.create_post upload destroy_ok lib now userId body files ps in
  ps' = ps
  /\ destroyed ≡ₚ map PostsMutations.md_publicId
                    (Uploads.uploaded_before_failure upload files)
  /\ status_of reply = (if forallb destroy_ok destroyed then 400 else 500)
  /\ succeeded reply = false.
Proof.
  intros Hvalid Hbad. unfold PostsMutations.create_post. rewrite Hvalid. cbn [negb].
  pose proof (upload_files_spec upload files [] []) as Hspec.
  destruct (PostsMutations.upload_files upload files [] []) as [[imgs vids]|[up msg]].
  - destruct Hspec as (Hall & _). exfalso.
    apply Exists_exists in Hbad as (f & Hf & Hnone).
    rewrite Forall_forall in Hall. specialize (Hall f Hf).
    rewrite Hnone in Hall. by destruct Hall.
  - destruct Hspec as [_ Hp]. cbn in Hp.
    destruct (forallb destroy_ok (map PostsMutations.md_publicId up)) eqn:E;
      cbn; rewrite E; repeat split; by rewrite Hp.
Qed.

(** Two files are uploaded before the third is rejected. *)
Lemma failed_upload_is_cleaned_up_witness :
  PostsMutations.create_post Scenes.flaky_upload (fun _ => true)
    Query.in_insertion_order 3 Sample.alice
    (PostsMutations.mkCreateBody (Some "at the beach") [] None)
    Scenes.three_files Scenes.one_post
  = (Failure 400 "Invalid image file", Scenes.one_post, ["sea.jpg"; "surf.mp4"]).
Proof.
  pose proof (failed_upload_is_cleaned_up Query.in_insertion_order
                Scenes.flaky_upload (fun _ => true) 3
                Sample.alice
                (PostsMutations.mkCreateBody (Some "at the beach") [] None)
                Scenes.three_files Scenes.one_post) as H.
  destruct (PostsMutations.create_post _ _ _ _ _ _ _ _) as [[reply ps'] destroyed] eqn:E.
  destruct H as (-> & _ & _ & _).
  - reflexivity.
  - apply Exists_exists. exists (PostsMutations.mkFile "broken" "image/png" 10).
    split; [|reflexivity]. apply list_elem_of_In. cbn. auto.
  - vm_compute in E. by injection E as <- <-.
Defined.

(** X21: when the content is valid (some text that is not white space, of
    at most 2000 UTF-16 units once trimmed, or at least one file), every
    upload is accepted and every tagged user is given by a string the
    database accepts as an id, the post is created for the requester and
    appended to the collection with a fresh id: its videos are the uploads
    of the files whose type starts with "video/" and its images those of all
    other files, each in the order of the files, so every file appears once;
    it tags the users the strings name, has no likes and no comments, is
    visible to friends unless a tier was chosen, and nothing is handed to
    the storage for deletion.  A content of white space only, of whatever
    kind, with no file is refused with 400 and nothing is stored. *)
Theorem accepted_post_holds_every_file (lib : Query.Platform)
    (upload : PostsMutations.File -> PostsMutations.Media + string)
    (destroy_ok : string -> bool) (now : nat) (userId : string)
    (body : PostsMutations.CreateBody) (files : list PostsMutations.File)
    (ps : PostsMutations.Posts) :
  (PostsMutations.valid_content (PostsMutations.cb_content body) files = true ->
   Forall (fun f => is_Some (Uploads.outcome upload f)) files ->
   Forall (fun t => is_Some (Query.castObjectId lib t))
          (PostsMutations.cb_taggedUsers body) ->
   exists post,
     PostsMutations.create_post upload destroy_ok lib now userId body files ps
     = (Reply 201 post,
        PostsMutations.mkPosts (PostsMutations.docs ps ++ [post])
                               (S (PostsMutations.nextPostId ps)), [])
     /\ PostsMutations.core post
        = mkPost (PostsMutations.nextPostId ps) userId
                 (default "" (PostsMutations.cb_content body))
                 (default FriendsOnly (PostsMutations.cb_privacy body)) now
     /\ PostsMutations.images post
        = omap (Uploads.outcome upload)
               (List.filter (fun f => negb (PostsMutations.is_video f)) files)
     /\ PostsMutations.videos post
        = omap (Uploads.outcome upload) (List.filter PostsMutations.is_video files)
     /\ length (PostsMutations.images post) + length (PostsMutations.videos post)
        = length files
     /\ Forall2 (fun t id => Query.castObjectId lib t = Some id)
                (PostsMutations.cb_taggedUsers body) (PostsMutations.taggedUsers post)
     /\ PostsMutations.likes post = [] /\ PostsMutations.comments post = [])
  /\ (PostsMutations.valid_content (PostsMutations.cb_content body) files = true
      <-> (files ≠ [] \/ Query.trim (default "" (PostsMutations.cb_content body)) ≠ "")
          /\ Query.js_length (Query.trim (default "" (PostsMutations.cb_content body)))
             <= 2000)
  /\ (PostsMutations.valid_content (PostsMutations.cb_content body) files = false ->
      PostsMutations.create_post upload destroy_ok lib now userId body files ps
      = (Failure 400 "Validation errors", ps, [])).
Proof.
  split; [|split].
  - intros Hvalid Hall Htags. unfold PostsMutations.create_post.
    rewrite Hvalid. cbn [negb].
    pose proof (upload_files_spec upload files [] []) as Hspec.
    destruct (PostsMutations.upload_files upload files [] []) as [[imgs vids]|[up msg]].
    + destruct Hspec as (_ & -> & ->). cbn [app].
      destruct (mapM (Query.castObjectId lib) (PostsMutations.cb_taggedUsers body))
        as [tagged|] eqn:Htagged.
      * apply mapM_Some in Htagged.
        eexists. split; [reflexivity|]. cbn. repeat split; [|done].
        clear Hvalid. induction files as [|f files IH]; cbn; [done|].
        apply Forall_cons in Hall as [[r Hr] Hall]. specialize (IH Hall).
        destruct (PostsMutations.is_video f); cbn; rewrite Hr; cbn; lia.
      * exfalso. apply mapM_None in Htagged.
        apply Exists_exists in Htagged as (t & Ht & Hnone).
        rewrite Forall_forall in Htags. destruct (Htags t Ht) as [id Hid]. congruence.
    + destruct Hspec as [(f & Hf & Hm) _]. exfalso.
      rewrite Forall_forall in Hall. destruct (Hall f Hf) as [r Hr].
      unfold Uploads.outcome in Hr. by rewrite Hm in Hr.
  - unfold PostsMutations.valid_content.
    destruct (PostsMutations.cb_content body) as [value|]; cbn [default id].
    + destruct (decide (Query.trim value = "")) as [E|E].
      * rewrite (bool_decide_eq_true_2 _ E). rewrite E. cbn [negb andb].
        destruct (decide (files = [])) as [->|Hf].
        -- rewrite bool_decide_eq_true_2 by done. cbn [negb andb].
           split; [done|]. intros [[H|H] _]; done.
        -- rewrite (bool_decide_eq_false_2 _ Hf). cbn [negb andb].
           split; [|done]. intros _. split; [by left|]. vm_compute. lia.
      * rewrite (bool_decide_eq_false_2 _ E). cbn [negb andb].
        destruct (2000 <? Query.js_length (Query.trim value)) eqn:El.
        -- apply Nat.ltb_lt in El. split; [done|]. intros [_ H]. lia.
        -- apply Nat.ltb_ge in El. split; [|done]. intros _. split; [by right|done].
    + cbn [negb andb]. destruct (decide (files = [])) as [->|Hf].
      * rewrite bool_decide_eq_true_2 by done. cbn [negb andb].
        split; [done|]. intros [[H|H] _]; done.
      * rewrite (bool_decide_eq_false_2 _ Hf). cbn [negb andb].
        split; [|done]. intros _. split; [by left|]. vm_compute. lia.
  - intros Hvalid. unfold PostsMutations.create_post. by rewrite Hvalid.
Qed.

(** The first two of the files go up without the broken one, with Bob
    tagged under his id in upper case; and a content that is a no-break
    space, with no file, is refused. *)
Lemma accepted_post_holds_every_file_witness :
  (exists post,
     fst (fst (PostsMutations.create_post Scenes.flaky_upload (fun _ => true)
                 Query.in_insertion_order 3 Sample.alice
                 (PostsMutations.mkCreateBody None [Sample.BOB] None)
                 (take 2 Scenes.three_files) Scenes.one_post))
     = Reply 201 post
     /\ map PostsMutations.md_publicId (PostsMutations.images post) = ["sea.jpg"]
     /\ map PostsMutations.md_publicId (PostsMutations.videos post) = ["surf.mp4"]
     /\ PostsMutations.taggedUsers post = [Sample.bob]
     /\ privacy (PostsMutations.core post) = FriendsOnly)
  /\ PostsMutations.create_post Scenes.flaky_upload (fun _ => true)
       Query.in_insertion_order 3 Sample.alice
       (PostsMutations.mkCreateBody (Some Scenes.no_break_space) [] None)
       [] Scenes.one_post
     = (Failure 400 "Validation errors", Scenes.one_post, []).
Proof.
  split.
  - destruct (accepted_post_holds_every_file Query.in_insertion_order
                Scenes.flaky_upload (fun _ => true) 3
                Sample.alice (PostsMutations.mkCreateBody None [Sample.BOB] None)
                (take 2 Scenes.three_files) Scenes.one_post)
      as [H _].
    destruct H as (post & -> & Hcore & Himages & Hvideos & _ & Htags & _).
    + reflexivity.
    + repeat constructor; by eexists.
    + repeat constructor. by eexists.
    + exists post. rewrite Hcore, Himages, Hvideos.
      repeat split.
      apply Forall2_cons_inv_l in Htags as (id & rest & Hid & Hrest & ->).
      apply Forall2_nil_inv_l in Hrest as ->.
      vm_compute in Hid. by injection Hid as <-.
  - apply (accepted_post_holds_every_file Query.in_insertion_order
             Scenes.flaky_upload (fun _ => true) 3 Sample.alice
             (PostsMutations.mkCreateBody (Some Scenes.no_break_space) [] None)
             [] Scenes.one_post).
    vm_compute. reflexivity.
Defined.

(** ** The feed cache of the client *)

Section FeedCache.
Import PostsMutations.

Lemma savePost_map d' ds :
  NoDup (map (fun d => p_id (core d)) ds) ->
  savePost d' ds
  = map (fun x => if p_id (core x) =? p_id (core d') then d' else x) ds.
Proof.
  induction ds as [|x ds IH]; cbn [savePost map]; [done|].
  intros Hnd. apply NoDup_cons in Hnd as [Hx Hnd].
  destruct (p_id (core x) =? p_id (core d')) eqn:E.
  - f_equal. apply Nat.eqb_eq in E. clear IH Hnd.
    induction ds as [|y ds IH]; cbn [map]; [done|].
    destruct (p_id (core y) =? p_id (core d')) eqn:E'.
    + apply Nat.eqb_eq in E'. exfalso. apply Hx. rewrite E, <- E'. cbn. by left.
    + f_equal. apply IH. intros H. apply Hx. cbn. by right.
  - f_equal. by apply IH.
Qed.

Lemma findPost_unique id d c ds :
  NoDup (map (fun d => p_id (core d)) ds) ->
  findPost id ds = Some d -> c ∈ ds -> p_id (core c) = id -> c = d.
Proof.
  unfold findPost. induction ds as [|x ds IH]; cbn [List.find map]; [done|].
  intros Hnd Hfind Hc Hid. apply NoDup_cons in Hnd as [Hx Hnd].
  destruct (p_id (core x) =? id) eqn:E.
  - injection Hfind as <-. apply Nat.eqb_eq in E.
    apply elem_of_cons in Hc as [Hc|Hc]; [done|]. exfalso. apply Hx.
    rewrite E, <- Hid. apply list_elem_of_fmap. by exists c.
  - apply elem_of_cons in Hc as [->|Hc]; [|by apply IH].
    apply Nat.eqb_neq in E. done.
Qed.

Lemma findPost_id id d ds : findPost id ds = Some d -> p_id (core d) = id /\ d ∈ ds.
Proof.
  unfold findPost. intros H. apply find_some in H as [Hin H].
  split; [by apply Nat.eqb_eq in H|by apply list_elem_of_In].
Qed.

End FeedCache.

(** X23: the feed cache follows a like.  When every cached post is a
    post of the collection and ids are distinct, then after a successful
    like and the cache update of its reply every cached post is again a post
    of the collection as the route left it, the cached posts are the same
    ones in the same order, and the count of the reply is the number of
    likes of the post that was liked. *)
Theorem like_keeps_feed_cache_current (now : nat) (userId : string) (id : nat)
    (ps ps' : PostsMutations.Posts) (reply : PostsMutations.LikeReply)
    (cached : list PostsMutations.PostDoc) :
  Wellformed.post_ids_ok ps ->
  (forall d, d ∈ cached -> d ∈ PostsMutations.docs ps) ->
  PostsMutations.post_like now userId id ps = (Reply 200 reply, ps') ->
  (forall d, d ∈ Client.cache_like id reply cached -> d ∈ PostsMutations.docs ps')
  /\ map (fun d => p_id (PostsMutations.core d)) (Client.cache_like id reply cached)
     = map (fun d => p_id (PostsMutations.core d)) cached
  /\ (forall d, d ∈ PostsMutations.docs ps' -> p_id (PostsMutations.core d) = id ->
        PostsMutations.lr_likeCount reply = length (PostsMutations.likes d)).
Proof.
  intros [Hnd _] Hsub. unfold PostsMutations.post_like.
  destruct (PostsMutations.findPost id _) as [post|] eqn:Hfind; [|done].
  intros [= <- <-]. cbn [PostsMutations.docs PostsMutations.lr_likes
                         PostsMutations.lr_likeCount].
  apply findPost_id in Hfind as Hpost. destruct Hpost as [Hid Hin].
  set (post' := PostsMutations.with_likes (PostsMutations.toggle_like now userId) post).
  assert (Hid' : p_id (PostsMutations.core post') = id) by done.
  rewrite (savePost_map post' _ Hnd), Hid'.
  split; [|split].
  - intros d Hd. unfold Client.cache_like in Hd.
    apply list_elem_of_fmap in Hd as (c & -> & Hc).
    apply list_elem_of_fmap. exists c. split; [|by apply Hsub].
    destruct (p_id (PostsMutations.core c) =? id) eqn:E; [|done].
    apply Nat.eqb_eq in E.
    rewrite (findPost_unique id post c _ Hnd Hfind (Hsub c Hc) E). done.
  - unfold Client.cache_like. rewrite map_map. apply map_ext. intros c.
    by destruct (p_id (PostsMutations.core c) =? id).
  - intros d Hd Hd'. apply list_elem_of_fmap in Hd as (c & -> & Hc).
    destruct (p_id (PostsMutations.core c) =? id) eqn:E; [done|].
    apply Nat.eqb_neq in E. done.
Qed.

(** Carol likes the post that Alice has in her cache. *)
Lemma like_keeps_feed_cache_current_witness :
  exists r ps',
    PostsMutations.post_like 7 Sample.carol 0 Scenes.one_post = (Reply 200 r, ps')
    /\ map PostsMutations.l_user (PostsMutations.lr_likes r) = [Sample.bob; Sample.carol]
    /\ forall d, d ∈ Client.cache_like 0 r (PostsMutations.docs Scenes.one_post) ->
                 d ∈ PostsMutations.docs ps'.
Proof.
  eexists _, _. split; [reflexivity|]. split; [reflexivity|].
  apply (like_keeps_feed_cache_current 7 Sample.carol 0 Scenes.one_post _ _
           (PostsMutations.docs Scenes.one_post)).
  - split; cbn; [apply NoDup_singleton|repeat constructor].
  - auto.
  - reflexivity.
Defined.

(** X24: the feed cache follows a comment.  Under the same conditions,
    after a successful comment and the cache update that appends the reply's
    comment, every cached post is a post of the collection as the route left
    it, the cached posts are the same ones in the same order, and the count
    of the reply is the number of comments of the commented post. *)
Theorem comment_keeps_feed_cache_current (lib : Query.Platform) (now : nat)
    (userId : string) (id : nat)
    (content : string) (ps ps' : PostsMutations.Posts)
    (comment : PostsMutations.Comment) (count : nat)
    (cached : list PostsMutations.PostDoc) :
  Wellformed.post_ids_ok ps ->
  (forall d, d ∈ cached -> d ∈ PostsMutations.docs ps) ->
  PostsMutations.post_comment lib now userId id content ps
  = (Reply 200 (comment, count), ps') ->
  (forall d, d ∈ Client.cache_comment id comment cached -> d ∈ PostsMutations.docs ps')
  /\ map (fun d => p_id (PostsMutations.core d)) (Client.cache_comment id comment cached)
     = map (fun d => p_id (PostsMutations.core d)) cached
  /\ (forall d, d ∈ PostsMutations.docs ps' -> p_id (PostsMutations.core d) = id ->
        count = length (PostsMutations.comments d)).
Proof.
  intros [Hnd _] Hsub. unfold PostsMutations.post_comment.
  destruct (_ || _); [done|].
  destruct (PostsMutations.findPost id _) as [post|] eqn:Hfind; [|done].
  cbn [PostsMutations.with_comments PostsMutations.comments PostsMutations.commentCount].
  unfold push. rewrite last_last. intros [= <- <- <-]. cbn [PostsMutations.docs].
  apply findPost_id in Hfind as Hpost. destruct Hpost as [Hid Hin].
  set (comment := PostsMutations.mkComment userId (Query.trim content) now).
  set (post' := PostsMutations.with_comments _ post).
  assert (Hid' : p_id (PostsMutations.core post') = id) by done.
  rewrite (savePost_map post' _ Hnd), Hid'.
  split; [|split].
  - intros d Hd. unfold Client.cache_comment in Hd.
    apply list_elem_of_fmap in Hd as (c & -> & Hc).
    apply list_elem_of_fmap. exists c. split; [|by apply Hsub].
    destruct (p_id (PostsMutations.core c) =? id) eqn:E; [|done].
    apply Nat.eqb_eq in E.
    rewrite (findPost_unique id post c _ Hnd Hfind (Hsub c Hc) E). done.
  - unfold Client.cache_comment. rewrite map_map. apply map_ext. intros c.
    by destruct (p_id (PostsMutations.core c) =? id).
  - intros d Hd Hd'. apply list_elem_of_fmap in Hd as (c & -> & Hc).
    destruct (p_id (PostsMutations.core c) =? id) eqn:E; [done|].
    apply Nat.eqb_neq in E. done.
Qed.

(** Bob comments on the post that Alice has in her cache. *)
Lemma comment_keeps_feed_cache_current_witness :
  exists c n ps',
    PostsMutations.post_comment Query.in_insertion_order 8 Sample.bob 0 " lovely "
      Scenes.one_post
    = (Reply 200 (c, n), ps')
    /\ PostsMutations.cm_content c = "lovely"
    /\ forall d, d ∈ Client.cache_comment 0 c (PostsMutations.docs Scenes.one_post) ->
                 d ∈ PostsMutations.docs ps'.
Proof.
  eexists _, _, _. split; [reflexivity|]. split; [reflexivity|].
  eapply (comment_keeps_feed_cache_current Query.in_insertion_order 8 Sample.bob 0
            " lovely " Scenes.one_post _ _ _
           (PostsMutations.docs Scenes.one_post)).
  - split; cbn; [apply NoDup_singleton|repeat constructor].
  - auto.
  - reflexivity.
Defined.

(** ** Friend suggestions *)

(** X25: the suggestions of a user are at most five distinct users, none
    of them the requester, a friend, or a user with a request pending in
    either direction; and a user who qualifies but is not suggested is left
    out only because five others, none of them created earlier, fill the
    list. *)
Theorem suggestions_are_unconnected_newest (lib : Query.Platform)
    (createdAtOf : string -> nat)
    (userId : string) (st : Store) (currentUser : User) :
  users st !! userId = Some currentUser ->
  let suggested :=
    UsersExtras.suggestions_of
      (UsersExtras.get_suggestions lib createdAtOf userId st) in
  let qualifies v :=
    is_Some (users st !! v) /\ v ∉ UsersExtras.excluded userId currentUser in
  NoDup suggested
  /\ length suggested <= 5
  /\ (forall v, v ∈ suggested -> qualifies v)
  /\ (forall w, qualifies w -> w ∉ suggested ->
        length suggested = 5
        /\ forall v, v ∈ suggested -> createdAtOf w <= createdAtOf v).
Proof.
  intros Hcu. unfold UsersExtras.get_suggestions. rewrite Hcu.
  cbn [UsersExtras.suggestions_of].
  set (keep := fun '((id, _) : string * User) =>
                 negb (includes (UsersExtras.excluded userId currentUser) id)).
  set (found := List.filter keep (map_to_list (users st))).
  set (key := fun p : string * User => createdAtOf (fst p)).
  set (sorted := Query.sort_by lib key found).
  assert (Hfound : forall v u, (v, u) ∈ found <->
            users st !! v = Some u /\ v ∉ UsersExtras.excluded userId currentUser).
  { intros v u. unfold found. rewrite elem_of_List_filter, elem_of_map_to_list.
    unfold keep, includes. rewrite negb_true_iff, bool_decide_eq_false. done. }
  assert (Hsorted : forall p, p ∈ sorted <-> p ∈ found).
  { intros p. apply elem_of_sort_by. }
  split; [|split; [|split]].
  - eapply sublist_NoDup; [|apply fmap_sublist, sublist_take].
    assert (Hp : map fst sorted ≡ₚ map fst found)
      by apply fmap_Permutation, (Query.sort_by_perm lib).
    rewrite Hp. apply NoDup_map_filter. apply NoDup_fst_map_to_list.
  - rewrite length_map, length_take. lia.
  - intros v Hv. apply list_elem_of_fmap in Hv as ([v' u] & -> & Hin).
    apply elem_of_take in Hin as (i & Hin & _).
    apply list_elem_of_lookup_2, Hsorted, Hfound in Hin as [Hu Hex]. by split; [exists u|].
  - intros w [[u Hu] Hex] Hnot.
    assert (Hw : (w, u) ∈ sorted) by by apply Hsorted, Hfound.
    rewrite <- (take_drop 5 sorted) in Hw. apply elem_of_app in Hw as [Hw|Hw].
    { exfalso. apply Hnot. apply list_elem_of_fmap. by exists (w, u). }
    split.
    + rewrite length_map, length_take.
      apply list_elem_of_lookup in Hw as [i Hi]. rewrite lookup_drop in Hi.
      apply lookup_lt_Some in Hi. lia.
    + intros v Hv. apply list_elem_of_fmap in Hv as ([v' u'] & -> & Hin).
      pose proof (Query.sort_by_descending lib _ key found) as Hd. fold sorted in Hd.
      unfold Query.descending in Hd. rewrite <- (take_drop 5 sorted) in Hd.
      exact (StronglySorted_app_1_elem_of _ _ _ _ _ Hd Hin Hw).
Qed.

(** Alice has asked Bob: only Carol is suggested to her. *)
Lemma suggestions_are_unconnected_newest_witness :
  exists currentUser,
    users Sample.requested !! Sample.alice = Some currentUser
    /\ UsersExtras.suggestions_of
         (UsersExtras.get_suggestions Query.ties_reversed (fun _ => 0) Sample.alice
            Sample.requested)
       = [Sample.carol]
    /\ forall v,
         v ∈ UsersExtras.suggestions_of
               (UsersExtras.get_suggestions Query.ties_reversed (fun _ => 0)
                  Sample.alice Sample.requested) ->
         v ∉ UsersExtras.excluded Sample.alice currentUser.
Proof.
  eexists. split; [vm_compute; reflexivity|]. split; [vm_compute; reflexivity|].
  intros v Hv.
  eapply (suggestions_are_unconnected_newest Query.ties_reversed (fun _ => 0)
            Sample.alice Sample.requested).
  - vm_compute. reflexivity.
  - exact Hv.
Defined.

(** ** The old avatar *)

Section OldAvatar.
Import UsersExtras.

Lemma split_on_chars (sep : ascii) (s piece : list ascii) (c : ascii) :
  piece ∈ split_on sep s -> c ∈ piece -> c ∈ s /\ c ≠ sep.
Proof.
  revert piece. induction s as [|a s IH]; cbn [split_on]; intros piece Hp Hc.
  - apply list_elem_of_singleton in Hp. subst. by apply not_elem_of_nil in Hc.
  - destruct (Ascii.eqb a sep) eqn:E.
    + apply elem_of_cons in Hp as [->|Hp]; [by apply not_elem_of_nil in Hc|].
      destruct (IH piece Hp Hc). split; [by right|done].
    + apply Ascii.eqb_neq in E.
      destruct (split_on sep s) as [|first pieces] eqn:Es.
      * apply list_elem_of_singleton in Hp. subst.
        apply list_elem_of_singleton in Hc. subst. split; [by left|done].
      * apply elem_of_cons in Hp as [->|Hp].
        -- apply elem_of_cons in Hc as [->|Hc]; [split; [by left|done]|].
           destruct (IH first) as [H1 H2]; [by left|done|]. split; [by right|done].
        -- destruct (IH piece) as [H1 H2]; [by right|done|]. split; [by right|done].
Qed.

Lemma last_elem_of {A} (l : list A) (d : A) : l ≠ [] -> List.last l d ∈ l.
Proof.
  induction l as [|x [|y l] IH]; [done|by left|].
  intros _. right. by apply IH.
Qed.

Lemma split_on_nonempty (sep : ascii) (s : list ascii) : split_on sep s ≠ [].
Proof.
  destruct s as [|a s]; cbn; [done|].
  destruct (Ascii.eqb a sep); [done|]. by destruct (split_on sep s).
Qed.

Lemma prefix_append (s1 s2 : string) :
  String.prefix s1 s2 = true -> exists rest, s2 = String.append s1 rest.
Proof.
  revert s2. induction s1 as [|a s1 IH]; intros s2; cbn.
  - intros _. by exists s2.
  - destruct s2 as [|b s2]; cbn; [done|]. destruct (ascii_dec a b) as [->|]; [|done].
    intros H. destruct (IH _ H) as [rest ->]. by exists rest.
Qed.

Lemma old_public_id_chars (profilePicture : string) (c : ascii) :
  c ∈ String.list_ascii_of_string (old_public_id profilePicture) ->
  c ≠ "/"%char /\ c ≠ "."%char.
Proof.
  unfold old_public_id. rewrite String.list_ascii_of_string_of_list_ascii.
  set (segments := split_on "/" (String.list_ascii_of_string profilePicture)).
  set (segment := List.last segments []).
  assert (Hseg : segment ∈ segments) by apply last_elem_of, split_on_nonempty.
  pose proof (split_on_nonempty "." segment) as Hne.
  destruct (split_on "." segment) as [|piece pieces] eqn:Es; [done|]. cbn [hd].
  intros Hc.
  assert (Hp : piece ∈ split_on "." segment) by (rewrite Es; by left).
  destruct (split_on_chars _ _ _ _ Hp Hc) as [Hin Hdot].
  destruct (split_on_chars _ _ _ _ Hseg Hin) as [_ Hslash]. done.
Qed.

End OldAvatar.

(** X26: the public id the avatar route hands to the storage for the
    deletion of the old picture is "snaptalk/" followed by a name that holds
    neither a slash nor a dot, whatever the stored picture url is; so it
    never names a file inside the folder "snaptalk/avatars", to which the
    same route uploads. *)
Theorem old_avatar_target_outside_avatar_folder (profilePicture : string) :
  String.prefix (String.append UsersExtras.avatar_folder "/")
                (UsersExtras.old_avatar_target profilePicture) = false
  /\ UsersExtras.old_avatar_target profilePicture
     = String.append "snaptalk/" (UsersExtras.old_public_id profilePicture)
  /\ Forall (fun c => c ≠ "/"%char /\ c ≠ "."%char)
            (String.list_ascii_of_string (UsersExtras.old_public_id profilePicture)).
Proof.
  assert (Hchars := old_public_id_chars profilePicture).
  split; [|split; [done|]].
  - unfold UsersExtras.old_avatar_target, UsersExtras.avatar_folder.
    destruct (String.prefix _ _) eqn:E; [|done]. exfalso.
    apply prefix_append in E as [rest E]. cbv [String.append] in E.
    injection E as E.
    destruct (Hchars "/"%char); [|done]. rewrite E. cbn.
    do 7 right. by left.
  - apply Forall_forall. exact Hchars.
Qed.

(** ** The navigation bar *)

(** X27: whatever the current path, at most one entry of the navigation
    bar is shown as active; the home entry is active on the path "/" only,
    and on a path that starts with none of the other entries nothing is
    active. *)
Theorem at_most_one_nav_item_active (pathname : string) :
  length (List.filter (Client.isActive pathname) Client.navigation) <= 1
  /\ (Client.isActive pathname "/" = bool_decide (pathname = "/")).
Proof.
  assert (Hhome : Client.isActive pathname "/" = bool_decide (pathname = "/")).
  { unfold Client.isActive. rewrite bool_decide_eq_true_2 by done. cbn.
    by case_bool_decide. }
  split; [|exact Hhome].
  assert (Hother : forall a s, Client.isActive pathname (String "/" (String a s))
                               = String.prefix (String "/" (String a s)) pathname).
  { intros a s. unfold Client.isActive.
    rewrite (bool_decide_eq_false_2 (String "/" (String a s) = "/")) by done.
    cbn [andb negb]. by destruct (String.prefix _ _). }
  unfold Client.navigation. cbn [List.filter]. rewrite Hhome, !Hother.
  destruct pathname as [|c0 [|c1 rest]]; [vm_compute; lia| |].
  - cbv [String.prefix]. destruct (ascii_dec "/" c0) as [<-|]; cbn;
      case_bool_decide; cbn; lia.
  - rewrite (bool_decide_eq_false_2 (String c0 (String c1 rest) = "/")) by done.
    cbn [String.prefix].
    destruct (ascii_dec "/" c0); [|cbn; lia].
    destruct (ascii_dec "f" c1), (ascii_dec "m" c1), (ascii_dec "s" c1);
      try congruence; repeat case_match; cbn; lia.
Qed.
